(** * ChessMastery: the position evaluator and the game analysers

    A shallow embedding of the analysis code of the repository:
    - the Python [analyze_game] scripts (python-chess driving a UCI engine),
    - [RealStockfishEngine] (the local heuristic evaluator and its depth-1
      best-move search, written against chess.js),
    - [StockfishApiEngine] (the remote evaluation service client with its
      retry loop, and the game analyser with its PGN extraction fallback).

    JavaScript numbers that hold service evaluations are binary64 floats
    ([PrimFloat]); the heuristic evaluator only ever adds integer constants,
    so its numbers are integers ([Z]).  JavaScript strings are [string]s whose
    characters stand for code units below 256.  The rules of chess are not
    part of the code: chess.js is the interface [ChessRules], and the board
    and the engine of python-chess are the variables of a section. *)

From Stdlib Require Import ZArith List String Ascii Bool Lia Sorted.
From Stdlib Require Import PrimFloat FloatOps SpecFloat DecimalString Decimal.
From Stdlib Require Uint63.

Set Warnings "-inexact-float".
Import ListNotations.

Open Scope string_scope.
Open Scope Z_scope.

(* ================================================================== *)
(** ** JavaScript values and built-ins *)

Module Js.

(** [String.prototype.startsWith] *)
Definition startsWith (s p : string) : bool := String.prefix p s.

(** [String.prototype.includes] *)
Fixpoint includes (s sub : string) : bool :=
  String.prefix sub s ||
  match s with
  | EmptyString => false
  | String _ s' => includes s' sub
  end.

(** [String.prototype.padEnd(n)] with the default filler, a space *)
Definition padEnd (n : nat) (s : string) : string :=
  s ++ string_of_list_ascii (repeat " "%char (n - String.length s)).

(** The line feed, ['\n'] *)
Definition newline : string := String "010"%char EmptyString.

(** [Array.prototype.join] *)
Definition join (sep : string) (l : list string) : string := String.concat sep l.

(** [String(n)] for a number holding an integer *)
Definition string_of_Z (z : Z) : string := NilZero.string_of_int (Z.to_int z).

(** *** Numbers *)

Definition two52 : float := 4503599627370496%float.

(** [Math.floor]: below 2^52 in magnitude, adding and subtracting 2^52 rounds
    to an integer (to nearest), which is then corrected downwards. *)
Definition Math_floor (x : float) : float :=
  if is_nan x || is_zero x || PrimFloat.leb two52 (PrimFloat.abs x) then x
  else
    let r := if PrimFloat.ltb x 0%float
             then ((x - two52) + two52)%float
             else ((x + two52) - two52)%float in
    if PrimFloat.ltb x r then (r - 1)%float else r.

(** [Math.ceil] *)
Definition Math_ceil (x : float) : float := (- Math_floor (- x))%float.

(** [Math.round]: the closest integer, a tie going towards +Infinity *)
Definition Math_round (x : float) : float :=
  let c := Math_ceil x in
  if PrimFloat.ltb x (c - 0.5)%float then (c - 1)%float else c.

(** [Math.abs] *)
Definition Math_abs (x : float) : float := PrimFloat.abs x.

(** The digits of [n] with a point before the last two, [n] being the number
    of hundredths: step 10 of [Number.prototype.toFixed]. *)
Definition hundredths (n : Z) : string :=
  let m := NilZero.string_of_uint (N.to_uint (Z.to_N n)) in
  let m := string_of_list_ascii (repeat "0"%char (3 - String.length m)) ++ m in
  let k := String.length m in
  String.substring 0 (k - 2) m ++ "." ++ String.substring (k - 2) 2 m.

(** [Number.prototype.toFixed(2)].  [Number_toString] is the built-in
    conversion of a number to a string, which [toFixed] falls back to from
    1e21 on. *)
Definition toFixed2 (Number_toString : float -> string) (x : float) : string :=
  match Prim2SF x with
  | S754_nan => "NaN"
  | S754_infinity false => "Infinity"
  | S754_infinity true => "-Infinity"
  | S754_zero _ => "0.00"
  | S754_finite s m e =>
      let sign := if s then "-" else EmptyString in
      if (0 <=? e) && (10 ^ 21 <=? Z.pos m * 2 ^ e)
      then sign ++ Number_toString (PrimFloat.abs x)
      else
        let n := if 0 <=? e then 100 * Z.pos m * 2 ^ e
                 else (200 * Z.pos m + 2 ^ (- e)) / (2 * 2 ^ (- e)) in
        sign ++ hundredths n
  end.

(** *** Control: state, exceptions and fuel

    A computation reads and writes a state [S] and either returns, throws
    an [Error] (carried as its [message]), or runs out of the fuel given to
    a recursive call. *)

Inductive Res (A : Type) : Type :=
| Ok (a : A)
| Throw (message : string)
| OutOfFuel.

Arguments Ok {A} a.
Arguments Throw {A} message.
Arguments OutOfFuel {A}.

Definition M (S A : Type) : Type := S -> Res A * S.

Definition ret {S A} (a : A) : M S A := fun s => (Ok a, s).

Definition bind {S A B} (c : M S A) (k : A -> M S B) : M S B :=
  fun s =>
    match c s with
    | (Ok a, s') => k a s'
    | (Throw e, s') => (Throw e, s')
    | (OutOfFuel, s') => (OutOfFuel, s')
    end.

Definition throw {S A} (message : string) : M S A := fun s => (Throw message, s).

(** [try { c } catch (error) { h error.message }] *)
Definition try_catch {S A} (c : M S A) (h : string -> M S A) : M S A :=
  fun s =>
    match c s with
    | (Throw e, s') => h e s'
    | r => r
    end.

Definition get {S} : M S S := fun s => (Ok s, s).

Definition modify {S} (f : S -> S) : M S unit := fun s => (Ok tt, f s).

End Js.

Import Js.

Declare Scope js_scope.
Delimit Scope js_scope with js.
Notation "x <- c ;; k" := (bind c (fun x => k))
  (at level 100, c at next level, right associativity) : js_scope.
Notation "c ;;; k" := (bind c (fun _ => k))
  (at level 100, right associativity) : js_scope.

(* ================================================================== *)
(** ** The rules of chess: the chess.js interface the engines use *)

Inductive Color : Type := White | Black.

Inductive PieceType : Type := Pawn | Knight | Bishop | Rook | Queen | King.

Record Piece : Type := { type : PieceType; color : Color }.

(** A move as [moves({ verbose: true })] returns it. *)
Record Move : Type := {
  san : string;
  flags : string;
  piece : PieceType;
  captured : option PieceType;
  from : string;
  to : string
}.

Definition Color_eqb (a b : Color) : bool :=
  match a, b with
  | White, White | Black, Black => true
  | _, _ => false
  end.

Definition PieceType_eqb (a b : PieceType) : bool :=
  match a, b with
  | Pawn, Pawn | Knight, Knight | Bishop, Bishop
  | Rook, Rook | Queen, Queen | King, King => true
  | _, _ => false
  end.

(** What the code asks of a chess.js position.  A method that throws on
    its argument returns [None]; the error then carries a message of
    chess.js, which no code reads and which is shortened here to
    [Invalid move] or [Invalid FEN]. *)
Class ChessRules : Type := {
  Position : Type;
  startpos : Position;                            (* new Chess(), reset() *)
  load : string -> option Position;               (* new Chess(fen) *)
  fen : Position -> string;                       (* fen() *)
  moves : Position -> list Move;                  (* moves({ verbose: true }) *)
  moves_from : Position -> string -> list Move;   (* moves({ verbose: true, square }) *)
  move : Position -> Move -> option Position;     (* move(moveObject) *)
  move_san : Position -> string -> option Position; (* move(sanString) *)
  board : Position -> Z -> Z -> option Piece;     (* board()[rank][file] *)
  get_square : Position -> string -> option Piece; (* get(square) *)
  turn : Position -> Color;                       (* turn() *)
  inCheck : Position -> bool;                     (* inCheck() *)
  getCastlingRights : Position -> Color -> bool * bool; (* { k, q } *)
  moveNumber : Position -> Z;                     (* moveNumber() *)
  loadPgn : string -> option (list string)        (* loadPgn(pgn); history() *)
}.

(** A [Chess] object: the current position and the positions that [undo]
    goes back to. *)
Record Chess `{ChessRules} : Type := {
  position : Position;
  undo_stack : list Position
}.

Section ChessObject.
Context `{ChessRules}.

(** [new Chess()], and the board after [chess.reset()] *)
Definition new_Chess : Chess := {| position := startpos; undo_stack := [] |}.

(** [chess.move(moveObject)]: throws, changing nothing, on a move that is
    not legal. *)
Definition chess_move (m : Move) : M Chess unit :=
  fun chess =>
    match move (position chess) m with
    | Some p => (Ok tt, {| position := p;
                           undo_stack := position chess :: undo_stack chess |})
    | None => (Throw "Invalid move", chess)
    end.

(** [chess.move(sanString)] *)
Definition chess_move_san (s : string) : M Chess unit :=
  fun chess =>
    match move_san (position chess) s with
    | Some p => (Ok tt, {| position := p;
                           undo_stack := position chess :: undo_stack chess |})
    | None => (Throw "Invalid move", chess)
    end.

(** [chess.undo()]: takes back the last move; does nothing when there is
    none. *)
Definition chess_undo : M Chess unit :=
  fun chess =>
    match undo_stack chess with
    | p :: rest => (Ok tt, {| position := p; undo_stack := rest |})
    | [] => (Ok tt, chess)
    end.

End ChessObject.

(* ================================================================== *)
(** ** RealStockfishEngine: the heuristic evaluator *)

Module RealStockfishEngine.

Record Alternative : Type := {
  alt_move : string;
  alt_evaluation : Z;
  alt_description : string
}.

Record RealEngineAnalysis : Type := {
  evaluation : Z;
  bestMove : string;
  principalVariation : list string;
  depth : Z;
  nodes : float;
  time : float
}.

Record RealPositionAnalysis : Type := {
  currentEvaluation : RealEngineAnalysis;
  alternativeMoves : list Alternative;
  tacticalThemes : list string;
  positionType : string
}.

(** The running maximum of the best-move search starts at [-Infinity]. *)
Inductive Num : Type := NegInfinity | Int (z : Z).

Definition gt (a : Z) (b : Num) : bool :=
  match b with
  | NegInfinity => true
  | Int b => b <? a
  end.

Definition analysisDepth : Z := 15.

Definition range8 : list Z := [0; 1; 2; 3; 4; 5; 6; 7].

Definition pieceValues (t : PieceType) : Z :=
  match t with
  | Pawn => 100 | Knight => 320 | Bishop => 330
  | Rook => 500 | Queen => 900 | King => 0
  end.

Definition getPieceValue (t : PieceType) : Z := pieceValues t.

Definition signed (c : Color) (v : Z) : Z :=
  match c with White => v | Black => - v end.

Section Evaluator.
Context `{ChessRules}.

Definition getMaterialBalance (chess : Chess) : Z :=
  fold_left (fun material rank =>
    fold_left (fun material file =>
      match board (position chess) rank file with
      | Some piece => material + signed (color piece) (pieceValues (type piece))
      | None => material
      end) range8 material) range8 0.

Definition evaluatePieceActivity (chess : Chess) : Z :=
  let moves := moves (position chess) in
  let activity := Z.of_nat (List.length moves) * 4 in
  let activity :=
    fold_left (fun activity move =>
      let activity := if includes (flags move) "c" then activity + 15 else activity in
      let activity := if includes (flags move) "+" then activity + 20 else activity in
      if PieceType_eqb (piece move) Knight || PieceType_eqb (piece move) Bishop
      then activity + 5 else activity) moves activity in
  signed (turn (position chess)) activity.

Definition centerSquares : list string := ["e4"; "e5"; "d4"; "d5"].

(** The size of the [Set] of the moves' target squares *)
Definition attackedSquares (ms : list Move) : Z :=
  Z.of_nat (List.length (nodup string_dec (map to ms))).

Definition evaluatePositionalFactors (chess : Chess) : Z :=
  let positional :=
    fold_left (fun positional square =>
      match get_square (position chess) square with
      | Some piece => positional + signed (color piece) 35
      | None => positional
      end) centerSquares 0 in
  positional
  + signed (turn (position chess)) (attackedSquares (moves (position chess)) * 2).

Definition evaluateTacticalFactors (chess : Chess) : Z :=
  fold_left (fun tactical move =>
    let tactical :=
      if includes (flags move) "c"
      then
        let capturedPieceValue :=
          getPieceValue (match captured move with Some t => t | None => Pawn end) in
        tactical + signed (turn (position chess)) capturedPieceValue
      else tactical in
    if includes (flags move) "+"
    then tactical + signed (turn (position chess)) 50
    else tactical) (moves (position chess)) 0.

Definition evaluateKingSafety (chess : Chess) : Z :=
  let safety :=
    if inCheck (position chess)
    then match turn (position chess) with White => -60 | Black => 60 end
    else 0 in
  let whiteCastling := getCastlingRights (position chess) White in
  let blackCastling := getCastlingRights (position chess) Black in
  let whiteCastlingCount :=
    (if fst whiteCastling then 1 else 0) + (if snd whiteCastling then 1 else 0) in
  let blackCastlingCount :=
    (if fst blackCastling then 1 else 0) + (if snd blackCastling then 1 else 0) in
  safety + whiteCastlingCount * 25 - blackCastlingCount * 25.

Definition is_pawn_of (c : Color) (sq : option Piece) : bool :=
  match sq with
  | Some piece => PieceType_eqb (type piece) Pawn && Color_eqb (color piece) c
  | None => false
  end.

Definition isIsolatedPawn (chess : Chess) (file : Z) (c : Color) : bool :=
  let leftFile := file - 1 in
  let rightFile := file + 1 in
  forallb (fun checkFile =>
    if (0 <=? checkFile) && (checkFile <? 8)
    then negb (existsb (fun rank => is_pawn_of c (board (position chess) rank checkFile))
                       range8)
    else true) [leftFile; rightFile].

Definition countPawns (chess : Chess) (file : Z) (c : Color) : Z :=
  fold_left (fun n rank =>
    if is_pawn_of c (board (position chess) rank file) then n + 1 else n) range8 0.

Definition evaluatePawnStructure (chess : Chess) : Z :=
  fold_left (fun structure file =>
    let whitePawns := countPawns chess file White in
    let blackPawns := countPawns chess file Black in
    let structure :=
      if 1 <? whitePawns then structure - (whitePawns - 1) * 25 else structure in
    let structure :=
      if 1 <? blackPawns then structure + (blackPawns - 1) * 25 else structure in
    let structure :=
      if (whitePawns =? 1) && isIsolatedPawn chess file White
      then structure - 20 else structure in
    if (blackPawns =? 1) && isIsolatedPawn chess file Black
    then structure + 20 else structure) range8 0.

Definition calculateStockfishStyleEvaluation (chess : Chess) : Z :=
  let evaluation := 0 in
  let evaluation := evaluation + getMaterialBalance chess in
  let evaluation := evaluation + evaluatePieceActivity chess in
  let evaluation := evaluation + evaluateKingSafety chess in
  let evaluation := evaluation + evaluatePawnStructure chess in
  let evaluation := evaluation + evaluatePositionalFactors chess in
  let evaluation := evaluation + evaluateTacticalFactors chess in
  evaluation.

(** The score of a candidate: play it, evaluate, negate, take it back. *)
Definition scoreAfter (m : Move) : M Chess Z :=
  (chess_move m ;;;
   chess <- get ;;
   let moveEvaluation := - calculateStockfishStyleEvaluation chess in
   chess_undo ;;;
   ret moveEvaluation)%js.

Fixpoint findBest_loop (ms : list Move) (bestMove : Move) (bestEvaluation : Num)
  : M Chess Move :=
  match ms with
  | [] => ret bestMove
  | m :: rest =>
      (moveEvaluation <- scoreAfter m ;;
       if gt moveEvaluation bestEvaluation
       then findBest_loop rest m (Int moveEvaluation)
       else findBest_loop rest bestMove bestEvaluation)%js
  end.

Definition findBestMoveUsingEvaluation : M Chess string :=
  (chess <- get ;;
   match moves (position chess) with
   | [] => ret "none"
   | first :: _ =>
       bestMove <- findBest_loop (moves (position chess)) first NegInfinity ;;
       ret (san bestMove)
   end)%js.

Definition describeMoveType (m : Move) : string :=
  if includes (flags m) "c" then "Capture"
  else if includes (flags m) "+" then "Check"
  else if includes (flags m) "k" || includes (flags m) "q" then "Castling"
  else if PieceType_eqb (piece m) Pawn then "Pawn advance"
  else "Development".

(** [Array.prototype.map] with a callback that works on the board *)
Fixpoint mapM {A B} (f : A -> M Chess B) (l : list A) : M Chess (list B) :=
  match l with
  | [] => ret []
  | a :: rest => (b <- f a ;; bs <- mapM f rest ;; ret (b :: bs))%js
  end.

Definition getTopAlternativesWithEvaluation : M Chess (list Alternative) :=
  (chess <- get ;;
   mapM (fun m =>
     evaluation <- scoreAfter m ;;
     ret {| alt_move := san m;
            alt_evaluation := evaluation;
            alt_description := describeMoveType m |})
     (firstn 3 (moves (position chess))))%js.

Definition createsFork (m : Move) : M Chess bool :=
  if negb (PieceType_eqb (piece m) Knight) then ret false
  else
    (chess_move m ;;;
     chess <- get ;;
     let knightMoves := moves_from (position chess) (to m) in
     chess_undo ;;;
     let attacks := filter (fun k => includes (flags k) "c") knightMoves in
     ret (2 <=? List.length attacks)%nat)%js.

Definition createsPinOrSkewer (m : Move) : bool :=
  PieceType_eqb (piece m) Bishop || PieceType_eqb (piece m) Rook
  || PieceType_eqb (piece m) Queen.

Fixpoint collectTactics (ms : list Move) (tactics : list string)
  : M Chess (list string) :=
  match ms with
  | [] => ret tactics
  | m :: rest =>
      let tactics := if includes (flags m) "c" then (tactics ++ ["Capture"])%list else tactics in
      let tactics := if includes (flags m) "+" then (tactics ++ ["Check"])%list else tactics in
      (fork <- (if PieceType_eqb (piece m) Knight then createsFork m else ret false) ;;
       let tactics := if fork then (tactics ++ ["Fork"])%list else tactics in
       let tactics := if createsPinOrSkewer m then (tactics ++ ["Pin"])%list else tactics in
       collectTactics rest tactics)%js
  end.

Definition uniqueTactics (tactics : list string) : list string :=
  fold_left (fun unique tactic =>
    if existsb (String.eqb tactic) unique then unique else (unique ++ [tactic])%list)
    tactics [].

Definition identifyRealTactics : M Chess (list string) :=
  (chess <- get ;;
   tactics <- collectTactics (moves (position chess)) [] ;;
   ret (uniqueTactics tactics))%js.

Definition classifyGamePhase (chess : Chess) : string :=
  let moveNumber := moveNumber (position chess) in
  if moveNumber <=? 10 then "Opening"
  else if 30 <=? moveNumber then "Endgame"
  else "Middlegame".

(** [analyzePosition(fen)].  [random k] is what the [k]-th call of
    [Math.random()] of this run returns. *)
Definition analyzePosition (random : nat -> float) (fen : string)
  : Res RealPositionAnalysis :=
  match load fen with
  | None => Throw "Invalid FEN"
  | Some p =>
      fst ((chess <- get ;;
            let evaluation := calculateStockfishStyleEvaluation chess in
            bestMove <- findBestMoveUsingEvaluation ;;
            alternatives <- getTopAlternativesWithEvaluation ;;
            let nodes := (150000 + Math_floor (random 0%nat * 100000))%float in
            let time := (1000 + Math_floor (random 1%nat * 800))%float in
            themes <- identifyRealTactics ;;
            chess <- get ;;
            ret {| currentEvaluation :=
                     {| evaluation := evaluation;
                        bestMove := bestMove;
                        principalVariation := [bestMove];
                        depth := analysisDepth;
                        nodes := nodes;
                        time := time |};
                   alternativeMoves := alternatives;
                   tacticalThemes := themes;
                   positionType := classifyGamePhase chess |})%js
           {| position := p; undo_stack := [] |})
  end.

(** [getGamePhaseEvaluation(moveNumber)], which no other method calls.
    [Math_sin] is the built-in sine and [random] the value that
    [Math.random()] returns. *)
Definition getGamePhaseEvaluation (Math_sin : float -> float) (random : float)
  (moveNumber : float) : float :=
  if PrimFloat.leb moveNumber 8
  then (Math_sin (moveNumber * 0.3) * 45 + (random - 0.5) * 30)%float
  else if PrimFloat.leb moveNumber 25
  then (Math_sin (moveNumber * 0.2) * 80 + (random - 0.5) * 60)%float
  else (Math_sin (moveNumber * 0.15) * 35 + (random - 0.5) * 25)%float.

(** *** The second copy of the search and of the positional term *)

(** [Array.prototype.forEach] with a callback that works on the board and
    assigns the variables [locals] of the function around it *)
Fixpoint forEach {A L} (l : list A) (body : A -> L -> M Chess L) (locals : L)
  : M Chess L :=
  match l with
  | [] => ret locals
  | a :: rest => (locals <- body a locals ;; forEach rest body locals)%js
  end.

(** [findStrongestMove]: the variables of the callback are [bestMove] and
    [bestScore]. *)
Definition findStrongestMove : M Chess string :=
  (chess <- get ;;
   match moves (position chess) with
   | [] => ret "none"
   | first :: _ =>
       best <- forEach (moves (position chess))
                 (fun m (best : Move * Num) =>
                    score <- scoreAfter m ;;
                    if gt score (snd best) then ret (m, Int score) else ret best)
                 (first, NegInfinity) ;;
       ret (san (fst best))
   end)%js.

Definition getTopAlternatives : M Chess (list Alternative) :=
  (chess <- get ;;
   mapM (fun m =>
     evaluation <- scoreAfter m ;;
     ret {| alt_move := san m;
            alt_evaluation := evaluation;
            alt_description := describeMoveType m |})
     (firstn 3 (moves (position chess))))%js.

Definition evaluatePosition (chess : Chess) : Z :=
  let positional :=
    fold_left (fun positional square =>
      match get_square (position chess) square with
      | Some piece => positional + signed (color piece) 35
      | None => positional
      end) centerSquares 0 in
  positional
  + signed (turn (position chess)) (attackedSquares (moves (position chess)) * 2).

End Evaluator.

End RealStockfishEngine.

(* ================================================================== *)
(** ** Regular expressions, as the PGN fallback uses them

    A backtracking matcher with the order of JavaScript's: alternatives
    left to right, quantifiers greedy.  A continuation receives the
    character before the current position (for [\b]) and the rest of the
    input. *)

Module Regex.

Inductive re : Type :=
| Chr (p : ascii -> bool)        (* a character class *)
| Seq (r1 r2 : re)
| Alt (r1 r2 : re)
| Opt (r : re)                   (* r? *)
| Plus (p : ascii -> bool)       (* [class]+ *)
| WordBoundary                   (* \b *)
| AtEnd                          (* $ *)
| Eps.

Definition between (lo hi c : ascii) : bool :=
  (nat_of_ascii lo <=? nat_of_ascii c)%nat && (nat_of_ascii c <=? nat_of_ascii hi)%nat.

Definition one_of (s : string) (c : ascii) : bool :=
  existsb (Ascii.eqb c) (list_ascii_of_string s).

Definition is_digit : ascii -> bool := between "0" "9".

(** [\w] *)
Definition is_word (c : ascii) : bool :=
  between "a" "z" c || between "A" "Z" c || is_digit c || Ascii.eqb c "_".

(** [\s], and what [trim] removes: tab, line feed, vertical tab, form feed,
    carriage return, space and no-break space *)
Definition is_space (c : ascii) : bool :=
  existsb (Nat.eqb (nat_of_ascii c)) [9; 10; 11; 12; 13; 32; 160]%nat.

Definition word_before (prev : option ascii) : bool :=
  match prev with Some c => is_word c | None => false end.

Definition word_after (s : list ascii) : bool :=
  match s with c :: _ => is_word c | [] => false end.

Fixpoint plus {A} (p : ascii -> bool) (k : option ascii -> list ascii -> option A)
  (prev : option ascii) (s : list ascii) : option A :=
  match s with
  | c :: s' =>
      if p c
      then match plus p k (Some c) s' with
           | Some x => Some x
           | None => k (Some c) s'
           end
      else None
  | [] => None
  end.

Fixpoint run {A} (r : re) (k : option ascii -> list ascii -> option A)
  (prev : option ascii) (s : list ascii) : option A :=
  match r with
  | Chr p =>
      match s with
      | c :: s' => if p c then k (Some c) s' else None
      | [] => None
      end
  | Seq r1 r2 => run r1 (run r2 k) prev s
  | Alt r1 r2 =>
      match run r1 k prev s with
      | Some x => Some x
      | None => run r2 k prev s
      end
  | Opt r1 =>
      match run r1 k prev s with
      | Some x => Some x
      | None => k prev s
      end
  | Plus p => plus p k prev s
  | WordBoundary => if xorb (word_before prev) (word_after s) then k prev s else None
  | AtEnd => match s with [] => k prev s | _ :: _ => None end
  | Eps => k prev s
  end.

(** The rest of the input after a match that starts here *)
Definition match_at (r : re) (prev : option ascii) (s : list ascii)
  : option (list ascii) :=
  run r (fun _ rest => Some rest) prev s.

Definition matched (s rest : list ascii) : string :=
  string_of_list_ascii (firstn (List.length s - List.length rest) s).

(** The leftmost position at which [f] succeeds *)
Fixpoint search {A} (f : option ascii -> list ascii -> option A)
  (prev : option ascii) (s : list ascii) : option A :=
  match f prev s with
  | Some x => Some x
  | None =>
      match s with
      | c :: s' => search f (Some c) s'
      | [] => None
      end
  end.

(** [str.match(r)] with the [g] flag: the matches from left to right, each
    search resuming where the previous match ended ([skip] characters are
    still covered by it); an empty match moves on by one character. *)
Fixpoint scan (r : re) (prev : option ascii) (s : list ascii) (skip : nat)
  : list string :=
  match skip with
  | S k =>
      match s with
      | c :: s' => scan r (Some c) s' k
      | [] => []
      end
  | O =>
      match match_at r prev s with
      | Some rest =>
          matched s rest ::
          match s with
          | c :: s' => scan r (Some c) s' (List.length s - List.length rest - 1)
          | [] => []
          end
      | None =>
          match s with
          | c :: s' => scan r (Some c) s' 0
          | [] => []
          end
      end
  end.

Definition match_all (r : re) (s : string) : list string :=
  scan r None (list_ascii_of_string s) 0.

(** [str.replace(r, '')] without the [g] flag: the leftmost match is
    removed. *)
Fixpoint remove_first (r : re) (prev : option ascii) (s : list ascii) : list ascii :=
  match match_at r prev s with
  | Some rest => rest
  | None =>
      match s with
      | c :: s' => c :: remove_first r (Some c) s'
      | [] => []
      end
  end.

Definition replace_empty (r : re) (s : string) : string :=
  string_of_list_ascii (remove_first r None (list_ascii_of_string s)).

(** [r.test(str)] for a pattern that starts with [^] *)
Definition test_anchored (r : re) (s : string) : bool :=
  match match_at r None (list_ascii_of_string s) with
  | Some _ => true
  | None => false
  end.

(** The pattern that matches the characters of [s] one after the other *)
Fixpoint lit (s : string) : re :=
  match s with
  | EmptyString => Eps
  | String c s' => Seq (Chr (Ascii.eqb c)) (lit s')
  end.

End Regex.

(* ================================================================== *)
(** ** More string methods *)

Module JsString.

(** [str.split('\n')] *)
Fixpoint split_lines (s : string) : list string :=
  match s with
  | EmptyString => [EmptyString]
  | String c s' =>
      match split_lines s' with
      | first :: rest =>
          if Ascii.eqb c "010" then EmptyString :: first :: rest
          else String c first :: rest
      | [] => [String c EmptyString]
      end
  end.

Fixpoint trimStart (s : list ascii) : list ascii :=
  match s with
  | c :: s' => if Regex.is_space c then trimStart s' else s
  | [] => []
  end.

(** [str.trim()] *)
Definition trim (s : string) : string :=
  string_of_list_ascii
    (List.rev (trimStart (List.rev (trimStart (list_ascii_of_string s))))).

(** [str.lastIndexOf(c)] for a one-character [c]; [None] is [-1]. *)
Fixpoint lastIndexOf (s : string) (c : ascii) : option nat :=
  match s with
  | EmptyString => None
  | String d s' =>
      match lastIndexOf s' c with
      | Some i => Some (S i)
      | None => if Ascii.eqb d c then Some O else None
      end
  end.

(** [str.substring(i)] *)
Definition substring_from (i : nat) (s : string) : string :=
  String.substring i (String.length s - i) s.

(** A string is truthy when it is not empty. *)
Definition truthy (s : string) : bool :=
  match s with EmptyString => false | String _ _ => true end.

End JsString.

(* ================================================================== *)
(** ** StockfishApiEngine: the remote evaluation service and the game
       analyser *)

Module StockfishApiAnalysis.
Record t : Type := {
  success : bool;
  evaluation : float;
  mate : option Z;
  bestmove : string;
  continuation : string
}.
End StockfishApiAnalysis.

Module MoveEvaluation.
Record t : Type := {
  moveNumber : Z;
  move : string;
  evaluation : float;
  evaluationFloat : float;
  mate : option Z;
  bestMove : string
}.
End MoveEvaluation.

Module GameAnalysisResult.
Record t : Type := {
  gameId : string;
  pgn : string;
  moveEvaluations : list MoveEvaluation.t;
  rawOutput : string;
  totalMoves : Z
}.
End GameAnalysisResult.

Module StockfishApiEngine.

(** What one [fetch] of the service comes to. *)
Inductive FetchOutcome : Type :=
| FetchRejected (message : string)   (* fetch rejects: transport failure, or
                                        the abort of the 15 s timer *)
| HttpStatus (status : Z)            (* a response with [ok] false *)
| BodyRejected (message : string)    (* [response.json()] rejects *)
| Body (data : StockfishApiAnalysis.t).

(** What a run leaves behind: the number of requests sent, the delays slept
    ([setTimeout], in milliseconds, in order) and the errors given to
    [console.error]. *)
Record Net : Type := {
  fetches : nat;
  sleeps : list Z;
  errors : list string
}.

Definition net0 : Net := {| fetches := 0; sleeps := []; errors := [] |}.

Definition maxRetries : Z := 2.

Definition baseDelay : Z := 600.

(** How the [try] statement of [analyzePosition] is left: with the data, or
    towards [return this.analyzePosition(fen, retryCount + 1)], a call whose
    rejection this [try] does not catch. *)
Inductive Step : Type :=
| Return (data : StockfishApiAnalysis.t)
| Retry.

Definition clean_summary : string := "✅ No major evaluation drops detected.".

Definition blunder_summary : string := "⚠️ Major evaluation drops detected.".

(** The first line of the transcript *)
Definition game_line (gameName : string) : string := "📂 Game: " ++ gameName.

(** The result at the end of a line: white space ([\s+]), then [1-0], [0-1],
    [1/2-1/2] or an asterisk, then the end of the string ([$]) *)
Definition resultPattern : Regex.re :=
  Regex.Seq (Regex.Plus Regex.is_space)
    (Regex.Seq
       (Regex.Alt (Regex.lit "1-0")
          (Regex.Alt (Regex.lit "0-1")
             (Regex.Alt (Regex.lit "1/2-1/2") (Regex.lit "*"))))
       Regex.AtEnd).

Definition promotion : Regex.re :=
  Regex.Opt (Regex.Seq (Regex.lit "=") (Regex.Chr (Regex.one_of "NBRQK"))).

Definition check_mark : Regex.re := Regex.Opt (Regex.Chr (Regex.one_of "+#")).

Definition file_char : ascii -> bool := Regex.between "a" "h".

Definition rank_char : ascii -> bool := Regex.between "1" "8".

(** [\b(?:(?:[NBRQK]?[a-h]?[1-8]?x?[a-h][1-8](?:=[NBRQK])?[+#]?)|(?:O-O(?:-O)?)|(?:[a-h][1-8](?:=[NBRQK])?[+#]?))\b] *)
Definition movePattern : Regex.re :=
  Regex.Seq Regex.WordBoundary
    (Regex.Seq
       (Regex.Alt
          (Regex.Seq (Regex.Opt (Regex.Chr (Regex.one_of "NBRQK")))
             (Regex.Seq (Regex.Opt (Regex.Chr file_char))
                (Regex.Seq (Regex.Opt (Regex.Chr rank_char))
                   (Regex.Seq (Regex.Opt (Regex.lit "x"))
                      (Regex.Seq (Regex.Chr file_char)
                         (Regex.Seq (Regex.Chr rank_char)
                            (Regex.Seq promotion check_mark)))))))
          (Regex.Alt
             (Regex.Seq (Regex.lit "O-O") (Regex.Opt (Regex.lit "-O")))
             (Regex.Seq (Regex.Chr file_char)
                (Regex.Seq (Regex.Chr rank_char)
                   (Regex.Seq promotion check_mark)))))
       Regex.WordBoundary).

(** [^\d+\.?$] *)
Definition moveNumberPattern : Regex.re :=
  Regex.Seq (Regex.Plus Regex.is_digit)
    (Regex.Seq (Regex.Opt (Regex.lit ".")) Regex.AtEnd).

Definition quote : ascii := "034"%char.

(** The name in the [Event] header, the group of the pattern that [pgn.match]
    is given: an opening bracket and [Event], white space ([\s+]), a quote, one
    or more characters other than a quote (the group), a quote, a closing
    bracket.  The leftmost match counts. *)
Definition eventName (pgn : string) : option string :=
  Regex.search
    (Regex.run
       (Regex.Seq (Regex.lit "[Event")
          (Regex.Seq (Regex.Plus Regex.is_space) (Regex.Chr (Ascii.eqb quote))))
       (fun p1 s1 =>
          Regex.plus (fun c => negb (Ascii.eqb c quote))
            (fun p2 s2 =>
               Regex.run (Regex.Seq (Regex.Chr (Ascii.eqb quote)) (Regex.lit "]"))
                 (fun _ _ => Some (Regex.matched s1 s2)) p2 s2)
            p1 s1))
    None (list_ascii_of_string pgn).

(** The manual extraction: the text of the move lines *)
Definition moveLines (pgn : string) : list string :=
  flat_map (fun line =>
    let trimmedLine := JsString.trim line in
    if startsWith trimmedLine "["
    then
      match JsString.lastIndexOf trimmedLine "]" with
      | Some closingBracket =>
          if (closingBracket <? String.length trimmedLine - 1)%nat
          then
            let afterHeader :=
              JsString.trim (JsString.substring_from (closingBracket + 1) trimmedLine) in
            let afterHeader := Regex.replace_empty resultPattern afterHeader in
            if JsString.truthy afterHeader then [afterHeader] else []
          else []
      | None => []
      end
    else if JsString.truthy trimmedLine
    then
      let cleanedLine := Regex.replace_empty resultPattern trimmedLine in
      if JsString.truthy cleanedLine then [cleanedLine] else []
    else []) (JsString.split_lines pgn).

(** The candidates: the matches of [movePattern], filtered *)
Definition extractedMoves (pgn : string) : list string :=
  let movesText := join " " (moveLines pgn) in
  filter (fun move =>
    negb (Regex.test_anchored moveNumberPattern move)
    && negb (includes move "1-0")
    && negb (includes move "0-1")
    && negb (includes move "1/2-1/2")
    && negb (includes move "*"))
    (Regex.match_all movePattern movesText).

(** The check for major evaluation drops: [curr] against [prev] *)
Fixpoint dropAfter (prev : MoveEvaluation.t) (rest : list MoveEvaluation.t) : bool :=
  match rest with
  | [] => false
  | curr :: rest' =>
      let evalDrop :=
        Math_abs (MoveEvaluation.evaluationFloat curr
                  - MoveEvaluation.evaluationFloat prev)%float in
      if PrimFloat.ltb 1.0%float evalDrop then true else dropAfter curr rest'
  end.

Definition hasBlunders (moveEvaluations : list MoveEvaluation.t) : bool :=
  match moveEvaluations with
  | [] => false
  | first :: rest => dropAfter first rest
  end.

Section Engine.
Context `{ChessRules}.

(** The service as one version of the engine addresses it: the URL holds
    the FEN and the depth of that version, 18 in this one and 15 in the
    earlier one.  [service n fen] is what the [n]-th request of a run, for
    this FEN, comes to; the abort of a request after 15 seconds, which this
    version arms, is one of the rejections of [fetch]. *)
Variable service : nat -> string -> FetchOutcome.

(** The built-in [Number::toString], for [toFixed]. *)
Variable Number_toString : float -> string.

Definition fetch (fen : string) : M Net FetchOutcome :=
  fun w => (Ok (service (fetches w) fen),
            {| fetches := S (fetches w); sleeps := sleeps w; errors := errors w |}).

(** [await new Promise(resolve => setTimeout(resolve, ms))] *)
Definition sleep (ms : Z) : M Net unit :=
  modify (fun w => {| fetches := fetches w;
                      sleeps := (sleeps w ++ [ms])%list;
                      errors := errors w |}).

Definition console_error (message : string) : M Net unit :=
  modify (fun w => {| fetches := fetches w;
                      sleeps := sleeps w;
                      errors := (errors w ++ [message])%list |}).

(** The [try] statement of [analyzePosition] *)
Definition attempt (fen : string) (retryCount : Z) : M Net Step :=
  let backoff : M Net Step :=
    let delay := baseDelay + retryCount * 200 in
    (sleep delay ;;; ret Retry)%js in
  try_catch
    (outcome <- fetch fen ;;
     match outcome with
     | FetchRejected message => throw message
     | HttpStatus status =>
         if retryCount <? maxRetries then backoff
         else throw ("API request failed: " ++ string_of_Z status)
     | BodyRejected message => throw message
     | Body data =>
         if negb (StockfishApiAnalysis.success data)
         then
           if retryCount <? maxRetries then backoff
           else throw "API returned unsuccessful response"
         else ret (Return data)
     end)%js
    (fun message =>
       if (retryCount <? maxRetries)
          && negb (includes message "API request failed:")
          && negb (includes message "unsuccessful response")
       then backoff
       else
         (console_error message ;;;
          throw "Failed to analyze position with Stockfish API")%js).

Fixpoint analyzePosition_fuel (fuel : nat) (fen : string) (retryCount : Z)
  : M Net StockfishApiAnalysis.t :=
  match fuel with
  | O => fun w => (OutOfFuel, w)
  | S fuel' =>
      (step <- attempt fen retryCount ;;
       match step with
       | Return data => ret data
       | Retry => analyzePosition_fuel fuel' fen (retryCount + 1)
       end)%js
  end.

(** [analyzePosition(fen, retryCount = 0)] *)
Definition analyzePosition (fen : string) (retryCount : Z)
  : M Net StockfishApiAnalysis.t :=
  analyzePosition_fuel (S (Z.to_nat (maxRetries - retryCount))) fen retryCount.

(** [analysis.mate || undefined], and the test [analysis.mate ? ... : ...] *)
Definition truthy_mate (mate : option Z) : option Z :=
  match mate with
  | Some m => if m =? 0 then None else Some m
  | None => None
  end.

Definition evalStr (analysis : StockfishApiAnalysis.t) : string :=
  match truthy_mate (StockfishApiAnalysis.mate analysis) with
  | Some m => "#" ++ (if 0 <? m then "+" else EmptyString) ++ string_of_Z m
  | None =>
      let evaluationFloat := StockfishApiAnalysis.evaluation analysis in
      (if PrimFloat.ltb 0%float evaluationFloat then "+" else EmptyString)
      ++ toFixed2 Number_toString evaluationFloat
  end.

Definition recordOf (i : Z) (move : string) (analysis : StockfishApiAnalysis.t)
  : MoveEvaluation.t :=
  {| MoveEvaluation.moveNumber := i / 2 + 1;
     MoveEvaluation.move := padEnd 7 move ++ "|";
     MoveEvaluation.evaluation :=
       Math_round (StockfishApiAnalysis.evaluation analysis * 100)%float;
     MoveEvaluation.evaluationFloat := StockfishApiAnalysis.evaluation analysis;
     MoveEvaluation.mate := truthy_mate (StockfishApiAnalysis.mate analysis);
     MoveEvaluation.bestMove := StockfishApiAnalysis.bestmove analysis |}.

Definition lineOf (i : Z) (move : string) (analysis : StockfishApiAnalysis.t)
  : string :=
  let moveNum := i + 1 in
  "Move " ++ string_of_Z moveNum ++ ": " ++ padEnd 7 move ++ "| Eval: "
  ++ evalStr analysis.

(** The arrays the analyser fills *)
Definition Output : Type := (list MoveEvaluation.t * list string)%type.

(** The inner [try] of the loop, for the move of index [i] *)
Definition evaluateMove (analyze : string -> M Net StockfishApiAnalysis.t)
  (i : Z) (move currentFen : string) (out : Output) : M Net Output :=
  try_catch
    ((if 0 <? i then sleep 500 else ret tt) ;;;
     analysis <- analyze currentFen ;;
     if StockfishApiAnalysis.success analysis
     then ret ((fst out ++ [recordOf i move analysis])%list,
               (snd out ++ [lineOf i move analysis])%list)
     else ret out)%js
    (fun message => (console_error message ;;; ret out)%js).

(** The loop over the moves, from index [i] on *)
Fixpoint analyzeMoves (analyze : string -> M Net StockfishApiAnalysis.t)
  (i : Z) (gameMoves : list string) (chess : Chess) (out : Output)
  : M Net Output :=
  match gameMoves with
  | [] => ret out
  | move :: rest =>
      match chess_move_san move chess with
      | (Ok _, chess) =>
          let currentFen := fen (position chess) in
          (out <- evaluateMove analyze i move currentFen out ;;
           analyzeMoves analyze (i + 1) rest chess out)%js
      | (Throw message, _) => throw message
      | (OutOfFuel, _) => fun w => (OutOfFuel, w)
      end
  end.

(** The manual extraction: the candidates are played from the starting
    position until one is refused. *)
Fixpoint validateMoves (candidates : list string) (chess : Chess)
  (gameMoves : list string) : list string :=
  match candidates with
  | [] => gameMoves
  | move :: rest =>
      match chess_move_san move chess with
      | (Ok _, chess) => validateMoves rest chess (gameMoves ++ [move])%list
      | _ => gameMoves
      end
  end.

Definition extractManually (pgn : string) : list string :=
  validateMoves (extractedMoves pgn) new_Chess [].

(** The moves of the game: chess.js's parser, and the manual extraction when
    it throws *)
Definition gameMovesOf (pgn : string) : list string :=
  match loadPgn pgn with
  | Some history => history
  | None => extractManually pgn
  end.

(** From the moves to the result: the header line, the loop, the check for
    drops, the summary.  The outer [catch] logs what was thrown and throws
    the error of the analyser. *)
Definition analyzeGameMoves (analyze : string -> M Net StockfishApiAnalysis.t)
  (maxMoves : nat) (pgn gameId : string) (gameMoves : list string)
  : M Net GameAnalysisResult.t :=
  try_catch
    (let gameName :=
       match eventName pgn with Some name => name | None => "Chess Game" end in
     let rawOutputLines := [game_line gameName] in
     out <- analyzeMoves analyze 0 (firstn maxMoves gameMoves) new_Chess
              ([], rawOutputLines) ;;
     let moveEvaluations := fst out in
     let rawOutputLines :=
       (snd out ++ [EmptyString;
                    if hasBlunders moveEvaluations
                    then blunder_summary else clean_summary])%list in
     ret {| GameAnalysisResult.gameId := gameId;
            GameAnalysisResult.pgn := pgn;
            GameAnalysisResult.moveEvaluations := moveEvaluations;
            GameAnalysisResult.rawOutput := join newline rawOutputLines;
            GameAnalysisResult.totalMoves := Z.of_nat (List.length gameMoves) |})%js
    (fun message =>
       (console_error message ;;;
        throw "Failed to analyze game with Stockfish API")%js).

(** [analyzeCompleteGame(pgn, gameId)]: at most the first 30 moves are sent
    to the service. *)
Definition analyzeCompleteGame (pgn gameId : string) : M Net GameAnalysisResult.t :=
  let gameMoves := gameMovesOf pgn in
  let maxMoves := Nat.min (List.length gameMoves) 30 in
  analyzeGameMoves (fun fen => analyzePosition fen 0) maxMoves pgn gameId gameMoves.

(** *** The earlier version of the engine: one request per position, the
        parser of chess.js only, every move sent *)

Definition analyzePosition_v1 (fen : string) : M Net StockfishApiAnalysis.t :=
  try_catch
    (outcome <- fetch fen ;;
     match outcome with
     | FetchRejected message => throw message
     | HttpStatus status => throw ("API request failed: " ++ string_of_Z status)
     | BodyRejected message => throw message
     | Body data => ret data
     end)%js
    (fun message =>
       (console_error message ;;;
        throw "Failed to analyze position with Stockfish API")%js).

(** [analyzeCompleteGame(pgn, gameId)] of the earlier version.  The call of
    [loadPgn] sits inside the [try]: when it throws, the outer [catch] logs
    its error, written [Invalid PGN] here, and throws the error of the
    analyser. *)
Definition analyzeCompleteGame_v1 (pgn gameId : string) : M Net GameAnalysisResult.t :=
  match loadPgn pgn with
  | Some moves =>
      analyzeGameMoves analyzePosition_v1 (List.length moves) pgn gameId moves
  | None =>
      (console_error "Invalid PGN" ;;;
       throw "Failed to analyze game with Stockfish API")%js
  end.

End Engine.

End StockfishApiEngine.

(* ================================================================== *)
(** ** The Python analysers: [analyze_game]

    python-chess supplies the board, the engine and its scores.  A score
    relative to the side to move is a number of centipawns or a distance to
    mate. *)

Module LichessAnalyzer.

Inductive Score : Type :=
| Cp (cp : Z)
| Mate (moves : Z).

(** What [engine.analyse] returns: the ["score"] entry, relative to the
    side to move, and the ["pv"] entry when there is one. *)
Record Info : Type := {
  score : Score;
  pv : option (list string)
}.

(** [info.get("pv", [None])[0]]: an empty line raises. *)
Definition first_of_pv (info : Info) : Res (option string) :=
  match pv info with
  | None => Ok None
  | Some [] => Throw "IndexError"
  | Some (best_move :: _) => Ok (Some best_move)
  end.

(** [played_move != best_move] *)
Definition differs (played_move : string) (best_move : option string) : bool :=
  match best_move with
  | Some best => negb (String.eqb played_move best)
  | None => true
  end.

(** The float of an integer (exact below 2^53 in magnitude) *)
Definition float_of_Z (z : Z) : float :=
  let magnitude := PrimFloat.of_uint63 (Uint63.of_Z (Z.abs z)) in
  if z <? 0 then (- magnitude)%float else magnitude.

(** *** The scripts that count in pawns *)

(** [100.0 if raw.mate() > 0 else -100.0] for a mate, [raw.score() / 100]
    otherwise *)
Definition score_in_pawns (raw : Score) : float :=
  match raw with
  | Mate moves => if 0 <? moves then 100.0%float else (-100.0)%float
  | Cp cp => (float_of_Z cp / 100)%float
  end.

(** [delta >= 2.0 and played_move != best_move] *)
Definition is_big_drop_pawns (score_before score_after : float)
  (played_move : string) (best_move : option string) : bool :=
  let delta := PrimFloat.abs (score_before - score_after)%float in
  PrimFloat.leb 2.0%float delta && differs played_move best_move.

(** *** The script that counts in centipawns *)

(** The test of the script on the two scores, [None] being a score that the
    library did not convert *)
Definition is_big_drop (score_before score_after : option Z)
  (played_move : string) (best_move : option string) : bool :=
  match score_before, score_after with
  | Some before, Some after =>
      let delta := Z.abs (before - after) in
      (200 <=? delta) && differs played_move best_move
  | _, _ => false
  end.

(** An entry of [big_drops] *)
Record Drop (number : Type) : Type := {
  move_number : Z;
  played : string;
  best : option string;
  before : number;
  after : number
}.

Arguments move_number {number} d.
Arguments played {number} d.
Arguments best {number} d.
Arguments before {number} d.
Arguments after {number} d.

Section Game.

(** The board of python-chess *)
Variable Board : Type.
Variable push : Board -> string -> Board.
Variable fullmove_number : Board -> Z.

(** [board.san(move)], [None] when it raises; [board.is_legal(move)] *)
Variable san : Board -> string -> option string.
Variable is_legal : Board -> string -> bool.

(** The engine: what its [n]-th analysis, of this board, returns *)
Variable analyse : nat -> Board -> Info.

(** [Score.score(mate_score=...)] of the library *)
Variable score_with : Z -> Score -> option Z.

(** The loop of the centipawn script over the main line, [calls] analyses
    having been made *)
Fixpoint analyze_moves (calls : nat) (board : Board) (mainline : list string)
  (big_drops : list (Drop Z)) : Res (list (Drop Z)) :=
  match mainline with
  | [] => Ok big_drops
  | played_move :: rest =>
      let info_before := analyse calls board in
      let score_before := score_with 10000 (score info_before) in
      match first_of_pv info_before with
      | Ok best_move =>
          let board := push board played_move in
          let info_after := analyse (S calls) board in
          let score_after := score_with 10000 (score info_after) in
          let move_number := fullmove_number board in
          let big_drops :=
            match score_before, score_after with
            | Some before, Some after =>
                if is_big_drop score_before score_after played_move best_move
                then (big_drops ++ [{| move_number := move_number;
                                       played := played_move;
                                       best := best_move;
                                       before := before;
                                       after := after |}])%list
                else big_drops
            | _, _ => big_drops
            end in
          analyze_moves (S (S calls)) board rest big_drops
      | Throw e => Throw e
      | OutOfFuel => OutOfFuel
      end
  end.

(** [analyze_game]: the entries of [big_drops] at the end *)
Definition analyze_game (board : Board) (mainline : list string)
  : Res (list (Drop Z)) :=
  analyze_moves 0 board mainline [].

(** [board.san(best_move) if best_move and board.is_legal(best_move) else "N/A"],
    and ["N/A"] when the conversion raises *)
Definition san_of_best (board : Board) (best_move : option string) : string :=
  match best_move with
  | Some best =>
      if JsString.truthy best && is_legal board best
      then match san board best with Some s => s | None => "N/A" end
      else "N/A"
  | None => "N/A"
  end.

(** The loop of the scripts that count in pawns *)
Fixpoint analyze_moves_pawns (calls : nat) (board : Board) (mainline : list string)
  (big_drops : list (Drop float)) : Res (list (Drop float)) :=
  match mainline with
  | [] => Ok big_drops
  | played_move :: rest =>
      let info_before := analyse calls board in
      let score_before := score_in_pawns (score info_before) in
      match first_of_pv info_before with
      | Ok best_move =>
          let san_played :=
            match san board played_move with Some s => s | None => played_move end in
          let san_best := san_of_best board best_move in
          let board := push board played_move in
          let info_after := analyse (S calls) board in
          let score_after := score_in_pawns (score info_after) in
          let move_number := fullmove_number board in
          let big_drops :=
            if is_big_drop_pawns score_before score_after played_move best_move
            then (big_drops ++ [{| move_number := move_number;
                                   played := san_played;
                                   best := Some san_best;
                                   before := score_before;
                                   after := score_after |}])%list
            else big_drops in
          analyze_moves_pawns (S (S calls)) board rest big_drops
      | Throw e => Throw e
      | OutOfFuel => OutOfFuel
      end
  end.

Definition analyze_game_pawns (board : Board) (mainline : list string)
  : Res (list (Drop float)) :=
  analyze_moves_pawns 0 board mainline [].

End Game.

End LichessAnalyzer.

(* ================================================================== *)
(** ** An instance of the rules: a small opening book

    The positions are those of a few opening lines; the moves offered in a
    position are the moves of the book.  The board, the side to move and
    the FEN are computed from the moves played.  No line of the book moves
    a king or a rook, so that every castling right stays.  The examples
    below run the engines on this instance. *)

Module Book.

#[warnings="-register-all"]
Inductive Tree : Type := Node (replies : list (Move * Tree)).

Definition replies_of (t : Tree) : list (Move * Tree) :=
  match t with Node replies => replies end.

Definition quiet (san : string) (piece : PieceType) (from to : string) : Move :=
  {| san := san; flags := "n"; piece := piece; captured := None;
     from := from; to := to |}.

Definition push2 (san from : string) : Move :=
  {| san := san; flags := "b"; piece := Pawn; captured := None;
     from := from; to := san |}.

Definition takes (san : string) (piece victim : PieceType) (from to : string) : Move :=
  {| san := san; flags := "c"; piece := piece; captured := Some victim;
     from := from; to := to |}.

Definition leaf : Tree := Node [].

(** 1. e4 e5 2. Nf3 Nc6 3. Bb5 with a few side lines *)
Definition book : Tree :=
  Node
    [ (push2 "e4" "e2",
       Node
         [ (push2 "e5" "e7",
            Node
              [ (quiet "Nf3" Knight "g1" "f3",
                 Node
                   [ (quiet "Nc6" Knight "b8" "c6",
                      Node
                        [ (quiet "Bb5" Bishop "f1" "b5", leaf);
                          (quiet "Bc4" Bishop "f1" "c4", leaf);
                          (push2 "d4" "d2", leaf) ]);
                     (quiet "Nf6" Knight "g8" "f6", leaf) ]);
                (quiet "Bc4" Bishop "f1" "c4", leaf) ]);
           (push2 "c5" "c7", leaf);
           (push2 "d5" "d7",
            Node
              [ (takes "exd5" Pawn Pawn "e4" "d5",
                 Node [ (takes "Qxd5" Queen Pawn "d8" "d5", leaf) ]);
                (quiet "e5" Pawn "e4" "e5", leaf) ]) ]);
      (push2 "d4" "d2", leaf);
      (quiet "Nf3" Knight "g1" "f3", leaf) ].

Record Pos : Type := {
  played : list Move;
  rest : Tree
}.

Definition start : Pos := {| played := []; rest := book |}.

Definition file_of (square : string) : Z :=
  match square with
  | String f _ => Z.of_nat (nat_of_ascii f) - 97
  | EmptyString => -1
  end.

(** The index of the row of a square in [board()], whose first row is the
    eighth rank *)
Definition row_of (square : string) : Z :=
  match square with
  | String _ (String r _) => 8 - (Z.of_nat (nat_of_ascii r) - 48)
  | _ => -1
  end.

Definition back_rank (file : Z) : option PieceType :=
  nth_error [Rook; Knight; Bishop; Queen; King; Bishop; Knight; Rook] (Z.to_nat file).

Definition initial_board (row file : Z) : option Piece :=
  if (file <? 0) || (7 <? file) then None
  else if row =? 0 then option_map (fun t => {| type := t; color := Black |}) (back_rank file)
  else if row =? 1 then Some {| type := Pawn; color := Black |}
  else if row =? 6 then Some {| type := Pawn; color := White |}
  else if row =? 7 then option_map (fun t => {| type := t; color := White |}) (back_rank file)
  else None.

Definition relocate (b : Z -> Z -> option Piece) (m : Move) : Z -> Z -> option Piece :=
  fun row file =>
    if (row =? row_of (to m)) && (file =? file_of (to m))
    then b (row_of (from m)) (file_of (from m))
    else if (row =? row_of (from m)) && (file =? file_of (from m)) then None
    else b row file.

Definition board_of (p : Pos) : Z -> Z -> option Piece :=
  fold_left relocate (played p) initial_board.

Definition side (p : Pos) : Color :=
  if Nat.even (List.length (played p)) then White else Black.

Definition fullmove (p : Pos) : Z := Z.of_nat (List.length (played p)) / 2 + 1.

Definition play (p : Pos) (s : string) : option Pos :=
  match find (fun reply => String.eqb (san (fst reply)) s) (replies_of (rest p)) with
  | Some (m, t) => Some {| played := (played p ++ [m])%list; rest := t |}
  | None => None
  end.

Definition letter (piece : Piece) : ascii :=
  let c :=
    match type piece with
    | Pawn => "p" | Knight => "n" | Bishop => "b"
    | Rook => "r" | Queen => "q" | King => "k"
    end%char in
  match color piece with
  | White => ascii_of_nat (nat_of_ascii c - 32)
  | Black => c
  end.

Definition gap (empties : nat) : string :=
  match empties with
  | O => EmptyString
  | S _ => string_of_Z (Z.of_nat empties)
  end.

Fixpoint fen_row (cells : list (option Piece)) (empties : nat) : string :=
  match cells with
  | [] => gap empties
  | None :: more => fen_row more (S empties)
  | Some piece :: more => gap empties ++ String (letter piece) (fen_row more 0)
  end.

Definition halfmove_clock (p : Pos) : Z :=
  fold_left (fun clock m =>
    match piece m, captured m with
    | Pawn, _ => 0
    | _, Some _ => 0
    | _, None => clock + 1
    end) (played p) 0.

Definition fen_of (p : Pos) : string :=
  join "/" (map (fun row =>
              fen_row (map (board_of p row) RealStockfishEngine.range8) 0)
              RealStockfishEngine.range8)
  ++ (match side p with White => " w" | Black => " b" end)
  ++ " KQkq - " ++ string_of_Z (halfmove_clock p) ++ " " ++ string_of_Z (fullmove p).

#[export] Instance rules : ChessRules := {|
  Position := Pos;
  startpos := start;
  load := fun s => if String.eqb s (fen_of start) then Some start else None;
  fen := fen_of;
  moves := fun p => map fst (replies_of (rest p));
  moves_from := fun p square =>
    filter (fun m => String.eqb (from m) square) (map fst (replies_of (rest p)));
  move := fun p m => play p (san m);
  move_san := play;
  board := board_of;
  get_square := fun p square => board_of p (row_of square) (file_of square);
  turn := side;
  inCheck := fun _ => false;
  getCastlingRights := fun _ _ => (true, true);
  moveNumber := fullmove;
  loadPgn := fun _ => None
|}.

(** A board set up at the start of the book *)
Definition opening_board : Chess := {| position := start; undo_stack := [] |}.

End Book.

(* ================================================================== *)
(** ** The vocabulary of the statements *)

Module Statements.

Import StockfishApiEngine.

(** The data of a request that succeeded *)
Definition succeeded (o : FetchOutcome) : option StockfishApiAnalysis.t :=
  match o with
  | Body data => if StockfishApiAnalysis.success data then Some data else None
  | _ => None
  end.

(** A failure after which [analyzePosition] tries again, while it has
    retries left *)
Definition retryable (o : FetchOutcome) : bool :=
  match o with
  | FetchRejected message | BodyRejected message =>
      negb (includes message "API request failed:")
      && negb (includes message "unsuccessful response")
  | HttpStatus _ => true
  | Body data => negb (StockfishApiAnalysis.success data)
  end.

(** The error that a failed request raises in [analyzePosition] *)
Definition error_of (o : FetchOutcome) : string :=
  match o with
  | FetchRejected message | BodyRejected message => message
  | HttpStatus status => "API request failed: " ++ string_of_Z status
  | Body _ => "API returned unsuccessful response"
  end.

(** The error that [analyzePosition] throws *)
Definition position_error : string := "Failed to analyze position with Stockfish API".

(** What a run leaves behind after a request, a delay, a logged error *)
Definition sent (w : Net) : Net :=
  {| fetches := S (fetches w); sleeps := sleeps w; errors := errors w |}.

Definition slept (ms : Z) (w : Net) : Net :=
  {| fetches := fetches w; sleeps := (sleeps w ++ [ms])%list; errors := errors w |}.

Definition logged (message : string) (w : Net) : Net :=
  {| fetches := fetches w; sleeps := sleeps w; errors := (errors w ++ [message])%list |}.

(** The delay before the [k]-th retry, in milliseconds *)
Definition retry_delay (k : nat) : Z := 600 + 200 * (Z.of_nat k - 1).

(** Playing the moves one after the other from a position *)
Fixpoint replay `{ChessRules} (p : Position) (moves : list string) : option Position :=
  match moves with
  | [] => Some p
  | m :: rest =>
      match move_san p m with
      | Some p' => replay p' rest
      | None => None
      end
  end.

(** The record of a move agrees with the evaluation of the service:
    [evaluation] is [Math.round(evaluationFloat * 100)]. *)
Definition rounded (e : MoveEvaluation.t) : Prop :=
  MoveEvaluation.evaluation e
  = Math_round (MoveEvaluation.evaluationFloat e * 100)%float.

(** A move of index [i] with the analysis that the service gave for it *)
Definition Entry : Type := (Z * string * StockfishApiAnalysis.t)%type.

Definition record_of_entry (e : Entry) : MoveEvaluation.t :=
  recordOf (fst (fst e)) (snd (fst e)) (snd e).

Definition line_of_entry (Number_toString : float -> string) (e : Entry) : string :=
  lineOf Number_toString (fst (fst e)) (snd (fst e)) (snd e).

(** The moves of indices [i], [i + 1], ... with their analyses *)
Fixpoint entries_from (i : Z) (moves : list string)
  (analyses : list StockfishApiAnalysis.t) : list Entry :=
  match moves, analyses with
  | move :: moves', analysis :: analyses' =>
      (i, move, analysis) :: entries_from (i + 1) moves' analyses'
  | _, _ => []
  end.

(** The test of the check for drops on two consecutive records *)
Definition big_swing (prev curr : MoveEvaluation.t) : bool :=
  PrimFloat.ltb 1.0%float
    (Math_abs (MoveEvaluation.evaluationFloat curr
               - MoveEvaluation.evaluationFloat prev)%float).

(** The last line of the transcript *)
Definition summary_line (r : GameAnalysisResult.t) : string :=
  last (JsString.split_lines (GameAnalysisResult.rawOutput r)) EmptyString.

(** The blunder rule in the words of the specification: the delta exceeds
    the threshold and the played move is not the suggested one. *)
Definition spec_isBlunder (threshold score_before score_after : float)
  (played suggested : string) : bool :=
  PrimFloat.ltb threshold (PrimFloat.abs (score_before - score_after)%float)
  && negb (String.eqb played suggested).


(** Services and a number printer for the examples *)

Definition answer (evaluation : float) (mate : option Z) (bestmove : string)
  : FetchOutcome :=
  Body {| StockfishApiAnalysis.success := true;
          StockfishApiAnalysis.evaluation := evaluation;
          StockfishApiAnalysis.mate := mate;
          StockfishApiAnalysis.bestmove := bestmove;
          StockfishApiAnalysis.continuation := bestmove |}.

(** Every request is answered with the status 503. *)
Definition unavailable : nat -> string -> FetchOutcome := fun _ _ => HttpStatus 503.

(** Two requests are answered with the status 500, the others with an
    evaluation of a quarter of a pawn. *)
Definition flaky : nat -> string -> FetchOutcome :=
  fun n _ =>
    match n with
    | 0%nat | 1%nat => HttpStatus 500
    | _ => answer 0.25%float None "e7e5"
    end.

(** Every request is answered with an evaluation of a quarter of a pawn. *)
Definition steady : nat -> string -> FetchOutcome :=
  fun _ _ => answer 0.25%float None "e7e5".

(** The first position is worth a pawn and a half and [e5] is suggested;
    the second is worth minus a pawn and a half. *)
Definition swing : nat -> string -> FetchOutcome :=
  fun n _ =>
    match n with
    | 0%nat => answer 1.5%float None "e5"
    | _ => answer (-1.5)%float None "Nf3"
    end.


Definition exponent_form : float -> string := fun _ => "1e+21".

(** A header line of a PGN text, and a text made of header lines, an empty
    line and the line of the moves *)
Definition header (body : string) : string := "[" ++ body ++ "]".

Definition no_newline (s : string) : Prop :=
  forall c, In c (list_ascii_of_string s) -> c <> "010"%char.

Definition pgn_text (bodies : list string) (movetext : string) : string :=
  fold_right (fun body text => header body ++ newline ++ text)
    (newline ++ movetext) bodies.

(** The score of a candidate of the best-move search: the evaluation of the
    position after the move, negated *)
Definition candidateScore `{ChessRules} (chess : Chess) (m : Move) : Z :=
  match move (position chess) m with
  | Some p =>
      - RealStockfishEngine.calculateStockfishStyleEvaluation
          {| position := p; undo_stack := position chess :: undo_stack chess |}
  | None => 0
  end.

(** The candidate that the loop of the search ends with *)
Fixpoint selected `{ChessRules} (chess : Chess) (ms : list Move) (bestMove : Move)
  (bestEvaluation : RealStockfishEngine.Num) : Move :=
  match ms with
  | [] => bestMove
  | m :: rest =>
      if RealStockfishEngine.gt (candidateScore chess m) bestEvaluation
      then selected chess rest m (RealStockfishEngine.Int (candidateScore chess m))
      else selected chess rest bestMove bestEvaluation
  end.

(** An analysis of the heuristic engine without the two fields that are
    drawn at random, [nodes] and [time] *)
Definition without_random (r : Res RealStockfishEngine.RealPositionAnalysis)
  : Res (Z * string * list string * Z
         * list RealStockfishEngine.Alternative * list string * string) :=
  match r with
  | Ok a =>
      let e := RealStockfishEngine.currentEvaluation a in
      Ok (RealStockfishEngine.evaluation e,
          RealStockfishEngine.bestMove e,
          RealStockfishEngine.principalVariation e,
          RealStockfishEngine.depth e,
          RealStockfishEngine.alternativeMoves a,
          RealStockfishEngine.tacticalThemes a,
          RealStockfishEngine.positionType a)
  | Throw message => Throw message
  | OutOfFuel => OutOfFuel
  end.

(** The moves of the end-to-end example and of the extraction example *)
Definition opening : list string := ["e4"; "e5"; "Nf3"; "Nc6"; "Bb5"].

Definition sample_moves : list string := ["e4"; "e5"; "Nf3"; "Nc6"].

(** What the centipawn script says of an entry of [big_drops]: the delta is
    at least 200, the played move is not the suggested one, and the two
    scores are conversions by the library with [mate_score=10000]. *)
Definition drop_in_centipawns
  (score_with : Z -> LichessAnalyzer.Score -> option Z)
  (d : LichessAnalyzer.Drop Z) : Prop :=
  200 <= Z.abs (LichessAnalyzer.before d - LichessAnalyzer.after d)
  /\ LichessAnalyzer.best d <> Some (LichessAnalyzer.played d)
  /\ exists raw_before raw_after,
       score_with 10000 raw_before = Some (LichessAnalyzer.before d)
       /\ score_with 10000 raw_after = Some (LichessAnalyzer.after d).

(** What the scripts that count in pawns say of an entry of [big_drops]:
    the delta is at least 2.0 and the two scores are conversions by
    [score_in_pawns]. *)
Definition drop_in_pawns (d : LichessAnalyzer.Drop float) : Prop :=
  PrimFloat.leb 2.0%float
    (PrimFloat.abs (LichessAnalyzer.before d - LichessAnalyzer.after d)%float) = true
  /\ exists raw_before raw_after,
       LichessAnalyzer.before d = LichessAnalyzer.score_in_pawns raw_before
       /\ LichessAnalyzer.after d = LichessAnalyzer.score_in_pawns raw_after.

(** An engine and a board for the examples of the Python scripts: the
    board is the list of the moves pushed, the engine sees 150 centipawns
    for the side to move before the first move and -150 afterwards, and
    suggests [d7d5]. *)
Module PyExample.

Definition Board : Type := list string.

Definition push (board : Board) (m : string) : Board := (board ++ [m])%list.

Definition fullmove_number (board : Board) : Z := Z.of_nat (List.length board) / 2 + 1.

Definition san (board : Board) (m : string) : option string := Some m.

Definition is_legal (board : Board) (m : string) : bool := true.

Definition analyse (n : nat) (board : Board) : LichessAnalyzer.Info :=
  {| LichessAnalyzer.score :=
       match n with
       | O => LichessAnalyzer.Cp 150
       | S _ => LichessAnalyzer.Cp (-150)
       end;
     LichessAnalyzer.pv := Some ["d7d5"] |}.

Definition score_with (mate_score : Z) (s : LichessAnalyzer.Score) : option Z :=
  match s with
  | LichessAnalyzer.Cp cp => Some cp
  | LichessAnalyzer.Mate moves =>
      Some (if 0 <? moves then mate_score - moves else - mate_score - moves)
  end.

End PyExample.

End Statements.

(* ================================================================== *)
(** ** The script that evaluates every move of a PGN (python-stockfish) *)

Module PgnAnalyzer.

(** What [stockfish.get_evaluation()] returns: the ["type"] and the
    ["value"] *)
Inductive Evaluation : Type :=
| cp (value : Z)
| mate (value : Z).

(** An entry of [analysis_results] *)
Record MoveEval : Type := {
  move_number : Z;
  move : string;
  evaluation : Evaluation
}.

Section Game.

(** The board and the moves of python-chess.  The moves of the main line
    come from the parser of the library, which keeps legal moves only, so
    that [board.san(move)] returns. *)
Variable Board : Type.
Variable Move : Type.
Variable push : Board -> Move -> Board.
Variable san : Board -> Move -> string.
Variable fen : Board -> string.

(** The engine: what [get_evaluation()] returns at its [n]-th call, the
    position having been set from this FEN *)
Variable get_evaluation : nat -> string -> Evaluation.

(** The loop over [game.mainline_moves()], [calls] evaluations having been
    asked *)
Fixpoint mainline_loop (mainline : list Move) (board : Board) (move_number : Z)
  (is_white_move : bool) (analysis_results : list MoveEval) (calls : nat)
  : list MoveEval :=
  match mainline with
  | [] => analysis_results
  | m :: rest =>
      let san_move := san board m in
      let board := push board m in
      let evaluation := get_evaluation calls (fen board) in
      let move_eval :=
        {| move_number := move_number; move := san_move; evaluation := evaluation |} in
      let analysis_results := (analysis_results ++ [move_eval])%list in
      let move_number := if negb is_white_move then move_number + 1 else move_number in
      let is_white_move := negb is_white_move in
      mainline_loop rest board move_number is_white_move analysis_results (S calls)
  end.

(** [analyze_pgn(pgn_string, stockfish_depth)].  [stockfish_found] says
    whether the executable was found; [game] is what
    [chess.pgn.read_game] returns, the board of the game and its main line,
    [None] being [None]. *)
Definition analyze_pgn (stockfish_found : bool) (game : option (Board * list Move))
  : option (list MoveEval) :=
  if stockfish_found
  then match game with
       | None => None
       | Some (board, mainline) => Some (mainline_loop mainline board 1 true [] 0)
       end
  else None.

End Game.

End PgnAnalyzer.

(* ================================================================== *)
(** ** More vocabulary *)

Module Vocabulary.

Import StockfishApiEngine Statements.

(** The delay before the retry that follows the attempt of count
    [retryCount], in milliseconds *)
Definition delay_after (retryCount : Z) : Z := baseDelay + retryCount * 200.

(** How many times a run slept the 500 ms that separate two positions *)
Definition spacings (w : Net) : nat := count_occ Z.eq_dec (sleeps w) 500.

(** The error that [analyzeCompleteGame] throws *)
Definition game_error : string := "Failed to analyze game with Stockfish API".

(** The record fields that the index [k] of a move in the game gives *)
Definition numbered (gameMoves : list string) (k : nat) : Z * string :=
  (Z.of_nat k / 2 + 1, padEnd 7 (nth k gameMoves EmptyString) ++ "|").

Definition number_and_move (e : MoveEvaluation.t) : Z * string :=
  (MoveEvaluation.moveNumber e, MoveEvaluation.move e).

(** A text that starts with the header of the event *)
Definition event_text (name rest : string) : string :=
  "[Event " ++ String quote name ++ String quote ("]" ++ rest).

Definition no_quote (s : string) : Prop :=
  forall c, In c (list_ascii_of_string s) -> c <> quote.

Definition no_bracket (s : string) : Prop :=
  forall c, In c (list_ascii_of_string s) -> c <> "["%char.


(** The book with a parser that does not check: [loadPgn] gives the
    candidates of the text as they are written. *)
Definition unchecked_book : ChessRules := {|
  Position := Book.Pos;
  startpos := Book.start;
  load := @load Book.rules;
  fen := Book.fen_of;
  moves := @moves Book.rules;
  moves_from := @moves_from Book.rules;
  move := @move Book.rules;
  move_san := Book.play;
  board := Book.board_of;
  get_square := @get_square Book.rules;
  turn := Book.side;
  inCheck := fun _ => false;
  getCastlingRights := fun _ _ => (true, true);
  moveNumber := Book.fullmove;
  loadPgn := fun pgn => Some (extractedMoves pgn)
|}.

(** Two records of a game, a pawn and a half apart *)
Definition record_at (evaluationFloat : float) : MoveEvaluation.t :=
  {| MoveEvaluation.moveNumber := 1;
     MoveEvaluation.move := "e4     |";
     MoveEvaluation.evaluation := Math_round (evaluationFloat * 100)%float;
     MoveEvaluation.evaluationFloat := evaluationFloat;
     MoveEvaluation.mate := None;
     MoveEvaluation.bestMove := "e7e5" |}.

(** The other colour, a piece of the other colour, and a position whose
    board is that of another with the colours exchanged *)
Definition opposite (c : Color) : Color :=
  match c with White => Black | Black => White end.

Definition recolour (piece : Piece) : Piece :=
  {| type := type piece; color := opposite (color piece) |}.

Definition recoloured `{ChessRules} (p p' : Position) : Prop :=
  forall rank file, board p' rank file = option_map recolour (board p rank file).

(** The alternative that the listing gives for a move *)
Definition alternative_of `{ChessRules} (chess : Chess) (m : Move)
  : RealStockfishEngine.Alternative :=
  {| RealStockfishEngine.alt_move := san m;
     RealStockfishEngine.alt_evaluation := candidateScore chess m;
     RealStockfishEngine.alt_description := RealStockfishEngine.describeMoveType m |}.

(** The position of the book after 1. e4 d5 2. exd5, White a pawn up *)
Definition pawn_up : Book.Pos :=
  match Book.play Book.start "e4" with
  | Some p1 =>
      match Book.play p1 "d5" with
      | Some p2 =>
          match Book.play p2 "exd5" with
          | Some p3 => p3
          | None => p2
          end
      | None => p1
      end
  | None => Book.start
  end.

(** Two boards without moves: that of [pawn_up] and the same with the
    colours exchanged *)
Definition two_boards : ChessRules := {|
  Position := bool;
  startpos := false;
  load := fun _ => None;
  fen := fun _ => EmptyString;
  moves := fun _ => [];
  moves_from := fun _ _ => [];
  move := fun _ _ => None;
  move_san := fun _ _ => None;
  board := fun exchanged rank file =>
    if exchanged then option_map recolour (Book.board_of pawn_up rank file)
    else Book.board_of pawn_up rank file;
  get_square := fun exchanged square =>
    if exchanged
    then option_map recolour
           (Book.board_of pawn_up (Book.row_of square) (Book.file_of square))
    else Book.board_of pawn_up (Book.row_of square) (Book.file_of square);
  turn := fun exchanged => if exchanged then White else Black;
  inCheck := fun _ => false;
  getCastlingRights := fun _ _ => (true, true);
  moveNumber := fun _ => 2;
  loadPgn := fun _ => None
|}.

(** The names of the themes, and the list of [identifyRealTactics] after
    the callback has seen a move, [fork] being what [createsFork] said *)
Definition theme_names : list string := ["Capture"; "Check"; "Fork"; "Pin"].

Definition themes_after (tactics : list string) (m : Move) (fork : bool)
  : list string :=
  let tactics :=
    if includes (flags m) "c" then (tactics ++ ["Capture"])%list else tactics in
  let tactics :=
    if includes (flags m) "+" then (tactics ++ ["Check"])%list else tactics in
  let tactics := if fork then (tactics ++ ["Fork"])%list else tactics in
  if RealStockfishEngine.createsPinOrSkewer m
  then (tactics ++ ["Pin"])%list else tactics.

(** A board of [two_boards] *)
Definition board_without_moves (exchanged : bool) : @Chess two_boards :=
  @Build_Chess two_boards exchanged [].

(** *** The Python scripts *)

Section Scripts.

Variable Board : Type.
Variable push : Board -> string -> Board.
Variable fullmove_number : Board -> Z.
Variable san : Board -> string -> option string.
Variable is_legal : Board -> string -> bool.
Variable analyse : nat -> Board -> LichessAnalyzer.Info.
Variable score_with : Z -> LichessAnalyzer.Score -> option Z.

(** The board before the move of index [k] of the main line *)
Definition board_before (board : Board) (mainline : list string) (k : nat) : Board :=
  fold_left push (firstn k mainline) board.

(** The engine, [calls] analyses having been made, hands back an empty
    line before the move of index [k] *)
Definition empty_line (calls : nat) (board : Board) (mainline : list string)
  (k : nat) : Prop :=
  LichessAnalyzer.pv (analyse (2 * k + calls) (board_before board mainline k))
  = Some [].

(** The entry of the centipawn script for the move of index [k], if it is
    a big drop: the analyses are those of number [2k] and [2k+1], of the
    boards before and after the move *)
Definition judged (calls : nat) (board : Board) (mainline : list string) (k : nat)
  : list (LichessAnalyzer.Drop Z) :=
  match nth_error mainline k with
  | None => []
  | Some played_move =>
      let b := board_before board mainline k in
      let info_before := analyse (2 * k + calls) b in
      let info_after := analyse (S (2 * k + calls)) (push b played_move) in
      match score_with 10000 (LichessAnalyzer.score info_before),
            score_with 10000 (LichessAnalyzer.score info_after),
            LichessAnalyzer.first_of_pv info_before with
      | Some before, Some after, Ok best_move =>
          if LichessAnalyzer.is_big_drop (Some before) (Some after) played_move best_move
          then [{| LichessAnalyzer.move_number := fullmove_number (push b played_move);
                   LichessAnalyzer.played := played_move;
                   LichessAnalyzer.best := best_move;
                   LichessAnalyzer.before := before;
                   LichessAnalyzer.after := after |}]
          else []
      | _, _, _ => []
      end
  end.

Definition reported (calls : nat) (board : Board) (mainline : list string)
  : list (LichessAnalyzer.Drop Z) :=
  List.concat (map (judged calls board mainline) (seq 0 (List.length mainline))).

(** The same for the scripts that count in pawns *)
Definition judged_pawns (calls : nat) (board : Board) (mainline : list string)
  (k : nat) : list (LichessAnalyzer.Drop float) :=
  match nth_error mainline k with
  | None => []
  | Some played_move =>
      let b := board_before board mainline k in
      let info_before := analyse (2 * k + calls) b in
      let info_after := analyse (S (2 * k + calls)) (push b played_move) in
      let score_before :=
        LichessAnalyzer.score_in_pawns (LichessAnalyzer.score info_before) in
      let score_after :=
        LichessAnalyzer.score_in_pawns (LichessAnalyzer.score info_after) in
      match LichessAnalyzer.first_of_pv info_before with
      | Ok best_move =>
          if LichessAnalyzer.is_big_drop_pawns score_before score_after
               played_move best_move
          then [{| LichessAnalyzer.move_number := fullmove_number (push b played_move);
                   LichessAnalyzer.played :=
                     match san b played_move with Some s => s | None => played_move end;
                   LichessAnalyzer.best :=
                     Some (LichessAnalyzer.san_of_best Board san is_legal b best_move);
                   LichessAnalyzer.before := score_before;
                   LichessAnalyzer.after := score_after |}]
          else []
      | _ => []
      end
  end.

Definition reported_pawns (calls : nat) (board : Board) (mainline : list string)
  : list (LichessAnalyzer.Drop float) :=
  List.concat (map (judged_pawns calls board mainline) (seq 0 (List.length mainline))).

(** What it is for the move of index [k] to enter [big_drops] in the
    centipawn script, as the entry [d]: the engine suggests a move or none
    before it, the library converts the scores of the analyses before and
    after it, these differ by 200 or more and the played move is not the
    suggested one. *)
Definition enters_big_drops (calls : nat) (board : Board) (mainline : list string)
  (k : nat) (d : LichessAnalyzer.Drop Z) : Prop :=
  let b := board_before board mainline k in
  exists played_move best_move before after,
    nth_error mainline k = Some played_move
    /\ LichessAnalyzer.first_of_pv (analyse (2 * k + calls) b) = Ok best_move
    /\ score_with 10000 (LichessAnalyzer.score (analyse (2 * k + calls) b))
       = Some before
    /\ score_with 10000
         (LichessAnalyzer.score (analyse (S (2 * k + calls)) (push b played_move)))
       = Some after
    /\ 200 <= Z.abs (before - after)
    /\ best_move <> Some played_move
    /\ d = {| LichessAnalyzer.move_number := fullmove_number (push b played_move);
              LichessAnalyzer.played := played_move;
              LichessAnalyzer.best := best_move;
              LichessAnalyzer.before := before;
              LichessAnalyzer.after := after |}.

(** The same in the scripts that count in pawns: the two scores are those
    of the analyses before and after the move, a mate counted as 100.0 or
    -100.0, and they differ by 2.0 or more. *)
Definition enters_big_drops_pawns (calls : nat) (board : Board)
  (mainline : list string) (k : nat) (d : LichessAnalyzer.Drop float) : Prop :=
  let b := board_before board mainline k in
  exists played_move best_move,
    nth_error mainline k = Some played_move
    /\ LichessAnalyzer.first_of_pv (analyse (2 * k + calls) b) = Ok best_move
    /\ PrimFloat.leb 2.0%float
         (PrimFloat.abs
            (LichessAnalyzer.score_in_pawns
               (LichessAnalyzer.score (analyse (2 * k + calls) b))
             - LichessAnalyzer.score_in_pawns
                 (LichessAnalyzer.score
                    (analyse (S (2 * k + calls)) (push b played_move))))%float)
       = true
    /\ best_move <> Some played_move
    /\ d = {| LichessAnalyzer.move_number := fullmove_number (push b played_move);
              LichessAnalyzer.played :=
                match san b played_move with Some s => s | None => played_move end;
              LichessAnalyzer.best :=
                Some (LichessAnalyzer.san_of_best Board san is_legal b best_move);
              LichessAnalyzer.before :=
                LichessAnalyzer.score_in_pawns
                  (LichessAnalyzer.score (analyse (2 * k + calls) b));
              LichessAnalyzer.after :=
                LichessAnalyzer.score_in_pawns
                  (LichessAnalyzer.score
                     (analyse (S (2 * k + calls)) (push b played_move))) |}.


End Scripts.




(** The entry of [analyze_pgn] for the move of index [i] *)
Definition entry_of {Board Move : Type} (push : Board -> Move -> Board)
  (san : Board -> Move -> string) (fen : Board -> string)
  (get_evaluation : nat -> string -> PgnAnalyzer.Evaluation)
  (board : Board) (mainline : list Move) (i : nat) (m : Move) : PgnAnalyzer.MoveEval :=
  let before := fold_left push (firstn i mainline) board in
  {| PgnAnalyzer.move_number := Z.of_nat i / 2 + 1;
     PgnAnalyzer.move := san before m;
     PgnAnalyzer.evaluation := get_evaluation i (fen (push before m)) |}.

End Vocabulary.

(* ================================================================== *)
(** * Properties *)

Import StockfishApiEngine Statements.

(* ================================================================== *)
(** ** The retry loop of [analyzePosition] *)

Section Retry.
Variable service : nat -> string -> FetchOutcome.

(** One pass through the [try] statement: the data, a retry after the
    delay, or the fixed error after the caught one has been logged. *)
Lemma attempt_cases (fen : string) (retryCount : Z) (w : Net) :
  attempt service fen retryCount w =
  let o := service (fetches w) fen in
  match succeeded o with
  | Some data => (Ok (Return data), sent w)
  | None =>
      if (retryCount <? maxRetries) && retryable o
      then (Ok Retry, slept (baseDelay + retryCount * 200) (sent w))
      else (Throw position_error, logged (error_of o) (sent w))
  end.
Proof.
  unfold attempt, try_catch, bind, fetch; cbn zeta.
  destruct (service (fetches w) fen) as [m | st | m | data]; cbn [succeeded retryable error_of].
  - unfold throw.
    destruct (retryCount <? maxRetries); cbn [andb]; [| reflexivity].
    destruct (includes m "API request failed:"); cbn [negb andb]; [reflexivity |].
    destruct (includes m "unsuccessful response"); reflexivity.
  - destruct (retryCount <? maxRetries) eqn:E; cbn [andb]; [reflexivity |].
    reflexivity.
  - unfold throw.
    destruct (retryCount <? maxRetries); cbn [andb]; [| reflexivity].
    destruct (includes m "API request failed:"); cbn [negb andb]; [reflexivity |].
    destruct (includes m "unsuccessful response"); reflexivity.
  - destruct (StockfishApiAnalysis.success data); cbn [negb]; [reflexivity |].
    destruct (retryCount <? maxRetries) eqn:E; cbn [andb]; [reflexivity |].
    reflexivity.
Qed.


Lemma analyzePosition_unfold (fen : string) (w : Net) :
  analyzePosition service fen 0 w =
  let o1 := service (fetches w) fen in
  let o2 := service (S (fetches w)) fen in
  let o3 := service (S (S (fetches w))) fen in
  match succeeded o1 with
  | Some data => (Ok data, sent w)
  | None =>
      if retryable o1
      then
        match succeeded o2 with
        | Some data => (Ok data, sent (slept 600 (sent w)))
        | None =>
            if retryable o2
            then
              match succeeded o3 with
              | Some data => (Ok data, sent (slept 800 (sent (slept 600 (sent w)))))
              | None =>
                  (Throw position_error,
                   logged (error_of o3) (sent (slept 800 (sent (slept 600 (sent w))))))
              end
            else (Throw position_error,
                  logged (error_of o2) (sent (slept 600 (sent w))))
        end
      else (Throw position_error, logged (error_of o1) (sent w))
  end.
Proof.
  unfold analyzePosition.
  change (S (Z.to_nat (maxRetries - 0))) with 3%nat.
  cbn [analyzePosition_fuel]. unfold bind at 1. rewrite attempt_cases. cbn zeta.
  destruct (succeeded (service (fetches w) fen)); [reflexivity |].
  change (0 <? maxRetries) with true. cbn [andb].
  destruct (retryable (service (fetches w) fen)); [| reflexivity].
  change (baseDelay + 0 * 200) with 600.
  unfold bind at 1. rewrite attempt_cases. cbn zeta.
  change (fetches (slept 600 (sent w))) with (S (fetches w)).
  destruct (succeeded (service (S (fetches w)) fen)); [reflexivity |].
  change (0 + 1 <? maxRetries) with true. cbn [andb].
  destruct (retryable (service (S (fetches w)) fen)); [| reflexivity].
  change (baseDelay + (0 + 1) * 200) with 800.
  unfold bind at 1. rewrite attempt_cases. cbn zeta.
  change (fetches (slept 800 (sent (slept 600 (sent w))))) with (S (S (fetches w))).
  destruct (succeeded (service (S (S (fetches w))) fen)); [reflexivity |].
  change (0 + 1 + 1 <? maxRetries) with false. cbn [andb]. reflexivity.
Qed.

Lemma retryable_not_succeeded (o : FetchOutcome) :
  retryable o = true -> succeeded o = None.
Proof.
  destruct o as [m | st | m | data]; cbn; try reflexivity.
  destruct (StockfishApiAnalysis.success data); [discriminate | reflexivity].
Qed.

(** C4, as the code has it: a call makes one request and at most two
    retries; before the k-th retry (k = 1, 2) it sleeps 600 + 200 (k - 1)
    milliseconds; every request before the last one failed in a way that
    is retried; the call returns the data of the last request when that
    succeeded, and otherwise logs the error of the last request and throws
    the fixed [position_error] in its place.  In particular two failures
    that are retried and a success return the data after the delays 600
    and 800, and three failures throw [position_error]. *)
Theorem analyzePosition_retry_budget (fen : string) (w : Net) :
  let outcome (j : nat) := service (fetches w + j)%nat fen in
  exists r w' k,
    analyzePosition service fen 0 w = (r, w')
    /\ (k <= 2)%nat
    /\ fetches w' = (fetches w + k + 1)%nat
    /\ sleeps w' = (sleeps w ++ map retry_delay (seq 1 k))%list
    /\ (forall j, (j < k)%nat -> retryable (outcome j) = true)
    /\ match succeeded (outcome k) with
       | Some data => r = Ok data /\ errors w' = errors w
       | None =>
           r = Throw position_error
           /\ errors w' = (errors w ++ [error_of (outcome k)])%list
           /\ ((k < 2)%nat -> retryable (outcome k) = false)
       end
    /\ (retryable (outcome 0%nat) = true -> retryable (outcome 1%nat) = true ->
        match succeeded (outcome 2%nat) with
        | Some data => r = Ok data /\ sleeps w' = (sleeps w ++ [600; 800])%list
        | None => r = Throw position_error /\ k = 2%nat
        end).
Proof.
  intro outcome. rewrite analyzePosition_unfold. cbn zeta.
  assert (E0 : service (fetches w) fen = outcome 0%nat)
    by (unfold outcome; now rewrite Nat.add_0_r).
  assert (E1 : service (S (fetches w)) fen = outcome 1%nat)
    by (unfold outcome; now rewrite Nat.add_1_r).
  assert (E2 : service (S (S (fetches w))) fen = outcome 2%nat)
    by (unfold outcome; f_equal; lia).
  rewrite E0, E1, E2. clear E0 E1 E2.
  assert (L0 : forall j, (j < 0)%nat -> retryable (outcome j) = true) by (intros; lia).
  destruct (succeeded (outcome 0%nat)) as [d0 |] eqn:S0.
  { exists (Ok d0), (sent w), 0%nat. rewrite S0. cbn.
    repeat split; try lia; try (now rewrite app_nil_r); auto.
    intros R0. apply retryable_not_succeeded in R0. congruence. }
  destruct (retryable (outcome 0%nat)) eqn:R0.
  2:{ exists (Throw position_error), (logged (error_of (outcome 0%nat)) (sent w)), 0%nat.
      rewrite S0. cbn. repeat split; try lia; try (now rewrite app_nil_r); auto;
      try discriminate. }
  assert (L1 : forall j, (j < 1)%nat -> retryable (outcome j) = true).
  { intros j Hj. replace j with 0%nat by lia. exact R0. }
  destruct (succeeded (outcome 1%nat)) as [d1 |] eqn:S1.
  { exists (Ok d1), (sent (slept 600 (sent w))), 1%nat. rewrite S1. cbn.
    repeat split; try lia; auto.
    intros _ R1. apply retryable_not_succeeded in R1. congruence. }
  destruct (retryable (outcome 1%nat)) eqn:R1.
  2:{ exists (Throw position_error),
        (logged (error_of (outcome 1%nat)) (sent (slept 600 (sent w)))), 1%nat.
      rewrite S1. cbn. repeat split; try lia; auto; try discriminate. }
  assert (L2 : forall j, (j < 2)%nat -> retryable (outcome j) = true).
  { intros j Hj. destruct j as [| [| j]]; [exact R0 | exact R1 | lia]. }
  destruct (succeeded (outcome 2%nat)) as [d2 |] eqn:S2.
  - exists (Ok d2), (sent (slept 800 (sent (slept 600 (sent w))))), 2%nat.
    rewrite S2. cbn. rewrite <- app_assoc. repeat split; try lia; auto.
  - exists (Throw position_error),
      (logged (error_of (outcome 2%nat)) (sent (slept 800 (sent (slept 600 (sent w)))))),
      2%nat.
    rewrite S2. cbn. rewrite <- app_assoc. repeat split; try lia; auto.
Qed.

End Retry.


(** C4, the counterexample: three requests answered with the status 503.
    The last error met is the one logged, [API request failed: 503]; the
    call surfaces another one, [position_error]. *)
Lemma analyzePosition_hides_last_error :
  exists w',
    analyzePosition unavailable "startpos" 0 net0 = (Throw position_error, w')
    /\ fetches w' = 3%nat
    /\ last (errors w') EmptyString = "API request failed: 503"
    /\ position_error <> "API request failed: 503".
Proof.
  eexists. split; [vm_compute; reflexivity |].
  repeat split; try reflexivity. discriminate.
Qed.


(** C4, an instance: two statuses 500, then an evaluation *)
Lemma analyzePosition_retry_budget_witness :
  exists r w',
    analyzePosition flaky "startpos" 0 net0 = (r, w')
    /\ (exists data, r = Ok data)
    /\ sleeps w' = [600; 800].
Proof.
  destruct (analyzePosition_retry_budget flaky "startpos" net0)
    as (r & w' & k & Hrun & _ & _ & _ & _ & _ & Htwice).
  exists r, w'. split; [exact Hrun |].
  specialize (Htwice eq_refl eq_refl). cbn in Htwice.
  destruct Htwice as [Hr Hs]. split; [eexists; exact Hr | exact Hs].
Defined.

(* ================================================================== *)
(** ** The game analyser *)

Section Analyser.
Context `{ChessRules}.
Variable service : nat -> string -> FetchOutcome.
Variable Number_toString : float -> string.


(** [analyzePosition] returns data marked as a success or throws
    [position_error]; three units of fuel are enough. *)
Lemma analyzePosition_result (fen : string) (w : Net) :
  exists w',
    (exists data, analyzePosition service fen 0 w = (Ok data, w')
                  /\ StockfishApiAnalysis.success data = true)
    \/ analyzePosition service fen 0 w = (Throw position_error, w').
Proof.
  rewrite analyzePosition_unfold. cbn zeta.
  assert (Hs : forall o data, succeeded o = Some data ->
                              StockfishApiAnalysis.success data = true).
  { intros [m | st | m | d] data; cbn; try discriminate.
    destruct (StockfishApiAnalysis.success d) eqn:E; [| discriminate].
    intros [= <-]. exact E. }
  destruct (succeeded (service (fetches w) fen)) eqn:S0;
    [eexists; left; eexists; split; [reflexivity | eauto] |].
  destruct (retryable (service (fetches w) fen));
    [| eexists; right; reflexivity].
  destruct (succeeded (service (S (fetches w)) fen)) eqn:S1;
    [eexists; left; eexists; split; [reflexivity | eauto] |].
  destruct (retryable (service (S (fetches w)) fen));
    [| eexists; right; reflexivity].
  destruct (succeeded (service (S (S (fetches w))) fen)) eqn:S2;
    [eexists; left; eexists; split; [reflexivity | eauto] |].
  eexists; right; reflexivity.
Qed.

Section Loop.
Variable analyze : string -> M Net StockfishApiAnalysis.t.
Hypothesis analyze_returns : forall fen w, fst (analyze fen w) <> OutOfFuel.

(** The inner [try]: the move adds its record and its line, or nothing. *)
Lemma evaluateMove_cases (i : Z) (move currentFen : string) (out : Output) (w : Net) :
  exists w',
    evaluateMove Number_toString analyze i move currentFen out w = (Ok out, w')
    \/ exists analysis,
         StockfishApiAnalysis.success analysis = true
         /\ evaluateMove Number_toString analyze i move currentFen out w
            = (Ok ((fst out ++ [recordOf i move analysis])%list,
                   (snd out ++ [lineOf Number_toString i move analysis])%list), w').
Proof.
  unfold evaluateMove, try_catch, bind.
  set (pause := (if 0 <? i then sleep 500 else ret tt) w).
  assert (Hp : exists w1, pause = (Ok tt, w1)).
  { unfold pause. destruct (0 <? i); eexists; reflexivity. }
  destruct Hp as [w1 ->].
  pose proof (analyze_returns currentFen w1) as Hfuel.
  destruct (analyze currentFen w1) as [[analysis | message |] w2]; cbn in Hfuel.
  - destruct (StockfishApiAnalysis.success analysis) eqn:E.
    + eexists. right. exists analysis. split; [exact E | reflexivity].
    + eexists. left. reflexivity.
  - eexists. left. reflexivity.
  - congruence.
Qed.

(** The loop: it throws only when a move is refused; otherwise it has
    added the records and lines of some of the moves, in order. *)
Lemma analyzeMoves_spec (gameMoves : list string) :
  forall (i : Z) (chess : Chess) (out : Output) (w : Net),
    match analyzeMoves Number_toString analyze i gameMoves chess out w with
    | (Ok out', _) =>
        exists entries : list Entry,
          out' = ((fst out ++ map record_of_entry entries)%list,
                  (snd out ++ map (line_of_entry Number_toString) entries)%list)
          /\ (List.length entries <= List.length gameMoves)%nat
          /\ Forall (fun e => StockfishApiAnalysis.success (snd e) = true) entries
    | (Throw _, _) => replay (position chess) gameMoves = None
    | (OutOfFuel, _) => False
    end.
Proof.
  induction gameMoves as [| move rest IH]; intros i chess out w.
  - cbn. exists []. cbn. rewrite !app_nil_r. destruct out; auto.
  - cbn [analyzeMoves replay]. unfold chess_move_san.
    destruct (move_san (position chess) move) as [p |]; [| reflexivity].
    unfold bind.
    destruct (evaluateMove_cases i move (fen p) out w) as [w1 [E | (analysis & Hs & E)]];
      cbn [position] in *; rewrite E; clear E;
      match goal with
      | |- context [analyzeMoves _ _ ?j rest ?c ?o ?v] => specialize (IH j c o v)
      end;
      destruct (analyzeMoves _ _ _ rest _ _ _) as [[out' | e |] w2]; cbn [position] in IH;
      try assumption.
    + destruct IH as (entries & -> & Hlen & Hall).
      exists entries. repeat split; [cbn; lia | assumption].
    + destruct IH as (entries & -> & Hlen & Hall).
      exists ((i, move, analysis) :: entries). cbn [fst snd map].
      rewrite <- !app_assoc. repeat split; [cbn; lia |].
      constructor; assumption.
Qed.

End Loop.

Lemma analyzePosition_returns :
  forall fen w, fst (analyzePosition service fen 0 w) <> OutOfFuel.
Proof.
  intros fen w. destruct (analyzePosition_result fen w) as [w' [(d & -> & _) | ->]];
    discriminate.
Qed.

Lemma recordOf_rounded (e : Entry) : rounded (record_of_entry e).
Proof. reflexivity. Qed.

Lemma replay_firstn (n : nat) (moves : list string) :
  forall p, replay p moves <> None -> replay p (firstn n moves) <> None.
Proof.
  revert n. induction moves as [| m rest IH]; intros [| n] p Hp; cbn in *;
    try discriminate.
  destruct (move_san p m); [apply IH; exact Hp | exact Hp].
Qed.

(** What [analyzeGameMoves] returns when it returns. *)
Lemma analyzeGameMoves_ok (analyze : string -> M Net StockfishApiAnalysis.t)
  (maxMoves : nat) (pgn gameId : string) (gameMoves : list string)
  (w w' : Net) (r : GameAnalysisResult.t) :
  (forall fen w, fst (analyze fen w) <> OutOfFuel) ->
  analyzeGameMoves Number_toString analyze maxMoves pgn gameId gameMoves w = (Ok r, w') ->
  exists entries : list Entry,
    (List.length entries <= List.length (firstn maxMoves gameMoves))%nat
    /\ Forall (fun e => StockfishApiAnalysis.success (snd e) = true) entries
    /\ GameAnalysisResult.moveEvaluations r = map record_of_entry entries
    /\ GameAnalysisResult.totalMoves r = Z.of_nat (List.length gameMoves)
    /\ GameAnalysisResult.rawOutput r
       = join newline
           ((game_line (match eventName pgn with Some name => name | None => "Chess Game" end)
             :: map (line_of_entry Number_toString) entries)
            ++ [EmptyString;
                if hasBlunders (map record_of_entry entries)
                then blunder_summary else clean_summary])%list.
Proof.
  intros Hfuel. unfold analyzeGameMoves, try_catch, bind.
  pose proof (analyzeMoves_spec analyze Hfuel (firstn maxMoves gameMoves) 0 new_Chess
                ([], [game_line (match eventName pgn with
                                 | Some name => name | None => "Chess Game" end)]) w) as Hloop.
  destruct (analyzeMoves _ _ _ _ _ _ _) as [[out' | e |] w1]; [| discriminate | contradiction].
  destruct Hloop as (entries & -> & Hlen & Hall).
  cbn [fst snd List.app]. unfold ret. intros [= <- <-]. cbn.
  exists entries. repeat split; assumption.
Qed.

(** C10: a result of [analyzeCompleteGame] counts every extracted move in
    [totalMoves], holds at most [min(totalMoves, 30)] evaluation records,
    and every record has [evaluation = Math.round(evaluationFloat * 100)]. *)
Theorem analyzeCompleteGame_result_invariant (pgn gameId : string)
  (w w' : Net) (r : GameAnalysisResult.t) :
  analyzeCompleteGame service Number_toString pgn gameId w = (Ok r, w') ->
  GameAnalysisResult.totalMoves r = Z.of_nat (List.length (gameMovesOf pgn))
  /\ Z.of_nat (List.length (GameAnalysisResult.moveEvaluations r))
     <= Z.min (GameAnalysisResult.totalMoves r) 30
  /\ Forall rounded (GameAnalysisResult.moveEvaluations r).
Proof.
  unfold analyzeCompleteGame. intros Hrun.
  apply analyzeGameMoves_ok in Hrun; [| exact analyzePosition_returns].
  destruct Hrun as (entries & Hlen & _ & -> & -> & _).
  split; [reflexivity |]. split.
  - rewrite length_map. rewrite length_firstn in Hlen. lia.
  - apply Forall_map. apply Forall_forall. intros e _. apply recordOf_rounded.
Qed.

End Analyser.

(* ================================================================== *)
(** ** The check for drops and the summary *)

Lemma dropAfter_iff (rest : list MoveEvaluation.t) :
  forall prev,
    dropAfter prev rest = true <->
    exists before p c after,
      prev :: rest = (before ++ p :: c :: after)%list /\ big_swing p c = true.
Proof.
  induction rest as [| curr rest' IH]; intros prev; cbn [dropAfter].
  - split; [discriminate |].
    intros (before & p & c & after & E & _).
    destruct before as [| b [| b' before]]; discriminate.
  - fold (big_swing prev curr). destruct (big_swing prev curr) eqn:B.
    + split; [| reflexivity]. intros _. exists [], prev, curr, rest'. auto.
    + rewrite IH. split.
      * intros (before & p & c & after & E & Hb).
        exists (prev :: before), p, c, after. cbn. rewrite E. auto.
      * intros (before & p & c & after & E & Hb).
        destruct before as [| b before]; cbn in E; inversion E; subst.
        -- congruence.
        -- exists before, p, c, after. auto.
Qed.

Lemma hasBlunders_iff (records : list MoveEvaluation.t) :
  hasBlunders records = true <->
  exists before p c after,
    records = (before ++ p :: c :: after)%list /\ big_swing p c = true.
Proof.
  destruct records as [| first rest]; cbn [hasBlunders].
  - split; [discriminate |].
    intros (before & p & c & after & E & _). destruct before; discriminate.
  - apply dropAfter_iff.
Qed.

Lemma dropAfter_evaluations (rest rest' : list MoveEvaluation.t) :
  forall prev prev',
    map MoveEvaluation.evaluationFloat (prev :: rest)
    = map MoveEvaluation.evaluationFloat (prev' :: rest') ->
    dropAfter prev rest = dropAfter prev' rest'.
Proof.
  revert rest'. induction rest as [| c rest IH]; intros [| c' rest'] prev prev' E;
    cbn in E; try discriminate; [reflexivity |].
  injection E as Ep Ec E. cbn [dropAfter]. rewrite Ep, Ec.
  rewrite (IH rest' c c'); [reflexivity |]. cbn. congruence.
Qed.

Lemma hasBlunders_evaluations (records records' : list MoveEvaluation.t) :
  map MoveEvaluation.evaluationFloat records
  = map MoveEvaluation.evaluationFloat records' ->
  hasBlunders records = hasBlunders records'.
Proof.
  destruct records, records'; cbn [hasBlunders]; intros E; try discriminate E;
    [reflexivity | apply dropAfter_evaluations; exact E].
Qed.

Section Summary.
Context `{ChessRules}.
Variable service : nat -> string -> FetchOutcome.
Variable Number_toString : float -> string.

Lemma analyzePosition_v1_returns :
  forall fen w, fst (analyzePosition_v1 service fen w) <> OutOfFuel.
Proof.
  intros fen w. unfold analyzePosition_v1, try_catch, bind, fetch.
  destruct (service (fetches w) fen); cbn; discriminate.
Qed.

(** C2, as the code has it: a result without any evaluation record has the
    transcript of a game without drops and nothing else: the game line, an
    empty line and [clean_summary].  This holds for both versions of the
    analyser. *)
Theorem no_evaluation_reads_as_clean (pgn gameId : string) (w w' : Net)
  (r : GameAnalysisResult.t) :
  analyzeCompleteGame service Number_toString pgn gameId w = (Ok r, w')
  \/ analyzeCompleteGame_v1 service Number_toString pgn gameId w = (Ok r, w') ->
  GameAnalysisResult.moveEvaluations r = [] ->
  GameAnalysisResult.rawOutput r
  = join newline
      [game_line (match eventName pgn with Some name => name | None => "Chess Game" end);
       EmptyString;
       clean_summary].
Proof.
  intros Hrun Hnone.
  assert (Hok : exists analyze maxMoves gameMoves,
             (forall fen w, fst (analyze fen w) <> OutOfFuel)
             /\ analyzeGameMoves Number_toString analyze maxMoves pgn gameId gameMoves w
                = (Ok r, w')).
  { destruct Hrun as [Hrun | Hrun].
    - eexists _, _, _. split; [| exact Hrun]. apply analyzePosition_returns.
    - unfold analyzeCompleteGame_v1 in Hrun. destruct (loadPgn pgn); [| discriminate].
      eexists _, _, _. split; [| exact Hrun]. apply analyzePosition_v1_returns. }
  destruct Hok as (analyze & maxMoves & gameMoves & Hfuel & Hok).
  apply analyzeGameMoves_ok in Hok; [| exact Hfuel].
  destruct Hok as (entries & _ & _ & Hrec & _ & ->).
  rewrite Hnone in Hrec. destruct entries; [reflexivity | discriminate].
Qed.

(** When the service answers every request with a success, every move that
    is played gets its record and its line. *)
Lemma analyzeMoves_all_succeed :
  (forall n fen, succeeded (service n fen) <> None) ->
  forall (gameMoves : list string) (i : Z) (chess : Chess) (out : Output) (w : Net),
    replay (position chess) gameMoves <> None ->
    exists analyses w',
      List.length analyses = List.length gameMoves
      /\ analyzeMoves Number_toString (fun fen => analyzePosition service fen 0)
           i gameMoves chess out w
         = (Ok ((fst out ++ map record_of_entry (entries_from i gameMoves analyses))%list,
                (snd out ++ map (line_of_entry Number_toString)
                              (entries_from i gameMoves analyses))%list), w').
Proof.
  intros Hsvc. induction gameMoves as [| move rest IH]; intros i chess out w Hplay.
  - exists [], w. cbn. rewrite !app_nil_r. destruct out; auto.
  - cbn [analyzeMoves replay] in *. unfold chess_move_san.
    destruct (move_san (position chess) move) as [p |]; [| congruence].
    cbn [position]. unfold bind at 1. unfold evaluateMove, try_catch.
    unfold bind at 1.
    set (pause := (if 0 <? i then sleep 500 else ret tt) w).
    assert (Hp : exists w1, pause = (Ok tt, w1)).
    { unfold pause. destruct (0 <? i); eexists; reflexivity. }
    destruct Hp as [w1 ->]. unfold bind at 1.
    rewrite analyzePosition_unfold. cbn zeta.
    destruct (succeeded (service (fetches w1) (fen p))) as [data |] eqn:E;
      [| now apply Hsvc in E].
    assert (Hs : StockfishApiAnalysis.success data = true).
    { destruct (service (fetches w1) (fen p)) as [m | st | m | d]; cbn in E; try discriminate.
      destruct (StockfishApiAnalysis.success d) eqn:Ed; [| discriminate].
      injection E as <-. exact Ed. }
    rewrite Hs. unfold ret at 1.
    match goal with
    | |- context [analyzeMoves _ _ ?j rest ?c ?o ?v] =>
        destruct (IH j c o v Hplay) as (analyses & w2 & Hlen & ->)
    end.
    exists (data :: analyses), w2. cbn [List.length entries_from map fst snd].
    rewrite <- !app_assoc. split; [lia | reflexivity].
Qed.

(** C7, as the code has it: when the five moves are the moves of the game,
    the rules accept them and the service answers every request with a
    success, the analysis returns five records in the order of the moves;
    their [moveNumber]s are the full-move numbers 1, 1, 2, 2, 3; the lines
    of the transcript carry the ply numbers 1 to 5; the summary depends on
    the evaluations alone, through the fixed threshold of one pawn. *)
Theorem analyzeCompleteGame_five_moves (pgn gameId : string) (w : Net) :
  gameMovesOf pgn = opening ->
  replay startpos opening <> None ->
  (forall n fen, succeeded (service n fen) <> None) ->
  exists r w' a1 a2 a3 a4 a5,
    analyzeCompleteGame service Number_toString pgn gameId w = (Ok r, w')
    /\ GameAnalysisResult.totalMoves r = 5
    /\ GameAnalysisResult.moveEvaluations r
       = [recordOf 0 "e4" a1; recordOf 1 "e5" a2; recordOf 2 "Nf3" a3;
          recordOf 3 "Nc6" a4; recordOf 4 "Bb5" a5]
    /\ map MoveEvaluation.moveNumber (GameAnalysisResult.moveEvaluations r)
       = [1; 1; 2; 2; 3]
    /\ map MoveEvaluation.move (GameAnalysisResult.moveEvaluations r)
       = ["e4     |"; "e5     |"; "Nf3    |"; "Nc6    |"; "Bb5    |"]
    /\ GameAnalysisResult.rawOutput r
       = join newline
           [game_line (match eventName pgn with Some name => name | None => "Chess Game" end);
            "Move 1: e4     | Eval: " ++ evalStr Number_toString a1;
            "Move 2: e5     | Eval: " ++ evalStr Number_toString a2;
            "Move 3: Nf3    | Eval: " ++ evalStr Number_toString a3;
            "Move 4: Nc6    | Eval: " ++ evalStr Number_toString a4;
            "Move 5: Bb5    | Eval: " ++ evalStr Number_toString a5;
            EmptyString;
            if hasBlunders (GameAnalysisResult.moveEvaluations r)
            then blunder_summary else clean_summary]
    /\ (forall records,
          map MoveEvaluation.evaluationFloat records
          = map StockfishApiAnalysis.evaluation [a1; a2; a3; a4; a5] ->
          hasBlunders records = hasBlunders (GameAnalysisResult.moveEvaluations r)).
Proof.
  intros Hmoves Hplay Hsvc.
  unfold analyzeCompleteGame, analyzeGameMoves, try_catch. rewrite Hmoves.
  change (firstn (Nat.min (List.length opening) 30) opening) with opening.
  unfold bind at 1.
  destruct (analyzeMoves_all_succeed Hsvc opening 0 new_Chess
              ([], [game_line (match eventName pgn with
                               | Some name => name | None => "Chess Game" end)]) w Hplay)
    as (analyses & w' & Hlen & ->).
  destruct analyses as [| a1 [| a2 [| a3 [| a4 [| a5 [| a6 analyses]]]]]];
    try discriminate Hlen.
  eexists _, w', a1, a2, a3, a4, a5. split; [reflexivity |].
  cbn [GameAnalysisResult.totalMoves GameAnalysisResult.moveEvaluations
       GameAnalysisResult.rawOutput fst snd].
  repeat split.
  intros records E. apply hasBlunders_evaluations. exact E.
Qed.

End Summary.

(** C10, an instance: the book, the game 1. e4 e5, every position
    evaluated *)
Lemma analyzeCompleteGame_result_invariant_witness :
  exists r w',
    analyzeCompleteGame (H := Book.rules) steady exponent_form "1. e4 e5" "g" net0
    = (Ok r, w')
    /\ GameAnalysisResult.totalMoves r = 2
    /\ Forall rounded (GameAnalysisResult.moveEvaluations r).
Proof.
  eexists _, _. split; [vm_compute; reflexivity |].
  edestruct (analyzeCompleteGame_result_invariant (H := Book.rules) steady exponent_form
               "1. e4 e5" "g" net0) as (Htotal & _ & Hrounded);
    [vm_compute; reflexivity |].
  split; [exact Htotal | exact Hrounded].
Defined.

(** C2, the counterexample: a text without any move, and a game of which
    no position can be evaluated.  Both results have no record, and the
    last line of both transcripts is the line of a game without drops, the
    same as for a game that was evaluated and has none. *)
Lemma zero_evaluations_shown_as_clean :
  exists r1 r2 r3 w1 w2 w3,
    analyzeCompleteGame (H := Book.rules) steady exponent_form
      "not a game" "g" net0 = (Ok r1, w1)
    /\ analyzeCompleteGame (H := Book.rules) unavailable exponent_form
         "1. e4 e5 2. Nf3 Nc6 1-0" "g" net0 = (Ok r2, w2)
    /\ analyzeCompleteGame (H := Book.rules) steady exponent_form
         "1. e4 e5 2. Nf3 Nc6 1-0" "g" net0 = (Ok r3, w3)
    /\ GameAnalysisResult.moveEvaluations r1 = []
    /\ GameAnalysisResult.totalMoves r1 = 0
    /\ GameAnalysisResult.moveEvaluations r2 = []
    /\ GameAnalysisResult.totalMoves r2 = 4
    /\ List.length (GameAnalysisResult.moveEvaluations r3) = 4%nat
    /\ summary_line r1 = clean_summary
    /\ summary_line r2 = clean_summary
    /\ summary_line r3 = clean_summary
    /\ GameAnalysisResult.rawOutput r1 = GameAnalysisResult.rawOutput r2.
Proof.
  eexists _, _, _, _, _, _.
  split; [vm_compute; reflexivity |].
  split; [vm_compute; reflexivity |].
  split; [vm_compute; reflexivity |].
  repeat split.
Qed.

(** C2, an instance: no position of the game can be evaluated. *)
Lemma no_evaluation_reads_as_clean_witness :
  exists r w',
    analyzeCompleteGame (H := Book.rules) unavailable exponent_form
      "1. e4 e5 2. Nf3 Nc6 1-0" "g" net0 = (Ok r, w')
    /\ GameAnalysisResult.rawOutput r
       = join newline [game_line "Chess Game"; EmptyString; clean_summary].
Proof.
  eexists _, _. split; [vm_compute; reflexivity |].
  eapply (no_evaluation_reads_as_clean (H := Book.rules) unavailable exponent_form
            "1. e4 e5 2. Nf3 Nc6 1-0" "g" net0); [left |]; vm_compute; reflexivity.
Defined.

(** C7, the counterexample: the five moves, every position evaluated.  The
    records number the moves 1, 1, 2, 2, 3, not 1, 2, 3, 4, 5. *)
Lemma five_records_numbered_by_full_move :
  exists r w',
    analyzeCompleteGame (H := Book.rules) steady exponent_form
      "1. e4 e5 2. Nf3 Nc6 3. Bb5" "g" net0 = (Ok r, w')
    /\ List.length (GameAnalysisResult.moveEvaluations r) = 5%nat
    /\ map MoveEvaluation.moveNumber (GameAnalysisResult.moveEvaluations r)
       = [1; 1; 2; 2; 3]
    /\ map MoveEvaluation.moveNumber (GameAnalysisResult.moveEvaluations r)
       <> [1; 2; 3; 4; 5].
Proof.
  eexists _, _. split; [vm_compute; reflexivity |].
  repeat split. discriminate.
Qed.

(** C7, an instance: the book, the five moves, every position evaluated *)
Lemma analyzeCompleteGame_five_moves_witness :
  exists r w',
    analyzeCompleteGame (H := Book.rules) steady exponent_form
      "1. e4 e5 2. Nf3 Nc6 3. Bb5" "g" net0 = (Ok r, w')
    /\ map MoveEvaluation.moveNumber (GameAnalysisResult.moveEvaluations r)
       = [1; 1; 2; 2; 3].
Proof.
  destruct (analyzeCompleteGame_five_moves (H := Book.rules) steady exponent_form
              "1. e4 e5 2. Nf3 Nc6 3. Bb5" "g" net0)
    as (r & w' & a1 & a2 & a3 & a4 & a5 & Hrun & _ & _ & Hnum & _).
  - vm_compute. reflexivity.
  - vm_compute. discriminate.
  - intros n fen. vm_compute. discriminate.
  - exists r, w'. split; [exact Hrun | exact Hnum].
Defined.

(* ================================================================== *)
(** ** The Python analysers *)

Section PythonGame.
Import LichessAnalyzer Vocabulary.

Variable Board : Type.
Variable push : Board -> string -> Board.
Variable fullmove_number : Board -> Z.
Variable san : Board -> string -> option string.
Variable is_legal : Board -> string -> bool.
Variable analyse : nat -> Board -> Info.
Variable score_with : Z -> Score -> option Z.

Lemma differs_iff (played_move : string) (best_move : option string) :
  differs played_move best_move = true <-> best_move <> Some played_move.
Proof.
  destruct best_move as [best |]; cbn; [| split; [discriminate | reflexivity]].
  destruct (String.eqb_spec played_move best) as [-> | Hne]; cbn.
  - split; [discriminate | congruence].
  - split; [congruence | reflexivity].
Qed.

Lemma is_big_drop_iff (before after : Z) (played_move : string)
  (best_move : option string) :
  is_big_drop (Some before) (Some after) played_move best_move = true
  <-> 200 <= Z.abs (before - after) /\ best_move <> Some played_move.
Proof.
  unfold is_big_drop. rewrite andb_true_iff, Z.leb_le, differs_iff. reflexivity.
Qed.


Lemma analyze_moves_sound (mainline : list string) :
  forall calls board big_drops result,
    Forall (drop_in_centipawns score_with) big_drops ->
    analyze_moves Board push fullmove_number analyse score_with
      calls board mainline big_drops = Ok result ->
    Forall (drop_in_centipawns score_with) result.
Proof.
  induction mainline as [| played_move rest IH]; intros calls board big_drops result Hacc;
    cbn [analyze_moves].
  - intros [= <-]. exact Hacc.
  - destruct (first_of_pv (analyse calls board)) as [best_move | |]; try discriminate.
    apply IH.
    destruct (score_with 10000 (score (analyse calls board))) as [b |] eqn:Eb;
      [| exact Hacc].
    destruct (score_with 10000 (score (analyse (S calls) (push board played_move))))
      as [a |] eqn:Ea; [| exact Hacc].
    destruct (is_big_drop (Some b) (Some a) played_move best_move) eqn:Hd; [| exact Hacc].
    apply Forall_app. split; [exact Hacc |]. constructor; [| constructor].
    apply is_big_drop_iff in Hd. destruct Hd as [Hdelta Hbest].
    repeat split; cbn; try assumption. eauto.
Qed.

Lemma analyze_moves_pawns_sound (mainline : list string) :
  forall calls board big_drops result,
    Forall drop_in_pawns big_drops ->
    analyze_moves_pawns Board push fullmove_number san is_legal analyse
      calls board mainline big_drops = Ok result ->
    Forall drop_in_pawns result.
Proof.
  induction mainline as [| played_move rest IH]; intros calls board big_drops result Hacc;
    cbn [analyze_moves_pawns].
  - intros [= <-]. exact Hacc.
  - destruct (first_of_pv (analyse calls board)) as [best_move | |]; try discriminate.
    apply IH.
    destruct (is_big_drop_pawns _ _ played_move best_move) eqn:Hd; [| exact Hacc].
    apply Forall_app. split; [exact Hacc |]. constructor; [| constructor].
    unfold is_big_drop_pawns in Hd. apply andb_true_iff in Hd. destruct Hd as [Hdelta _].
    split; cbn; [exact Hdelta | eauto].
Qed.

(** *** The loops of the Python scripts, move by move *)

Lemma is_big_drop_pawns_iff (score_before score_after : float) (played_move : string)
  (best_move : option string) :
  is_big_drop_pawns score_before score_after played_move best_move = true
  <-> PrimFloat.leb 2.0%float (PrimFloat.abs (score_before - score_after)%float) = true
      /\ best_move <> Some played_move.
Proof.
  unfold is_big_drop_pawns. cbn zeta. rewrite andb_true_iff, differs_iff. reflexivity.
Qed.

Lemma first_of_pv_throws (info : Info) :
  match first_of_pv info with
  | Ok _ => pv info <> Some []
  | Throw e => e = "IndexError" /\ pv info = Some []
  | OutOfFuel => False
  end.
Proof.
  unfold first_of_pv. destruct (pv info) as [[| best line] |]; try discriminate.
  split; reflexivity.
Qed.

Lemma twice_succ (k calls : nat) : (2 * S k + calls = 2 * k + S (S calls))%nat.
Proof. lia. Qed.

Lemma empty_line_shift (calls : nat) (board : Board) (m : string)
  (rest : list string) (k : nat) :
  empty_line Board push analyse calls board (m :: rest) (S k)
  <-> empty_line Board push analyse (S (S calls)) (push board m) rest k.
Proof. unfold empty_line, board_before. rewrite twice_succ. reflexivity. Qed.

Lemma judged_shift (calls : nat) (board : Board) (m : string)
  (rest : list string) (k : nat) :
  judged Board push fullmove_number analyse score_with calls board (m :: rest) (S k)
  = judged Board push fullmove_number analyse score_with
      (S (S calls)) (push board m) rest k.
Proof. unfold judged, board_before. rewrite twice_succ. reflexivity. Qed.

Lemma judged_pawns_shift (calls : nat) (board : Board) (m : string)
  (rest : list string) (k : nat) :
  judged_pawns Board push fullmove_number san is_legal analyse calls board
    (m :: rest) (S k)
  = judged_pawns Board push fullmove_number san is_legal analyse
      (S (S calls)) (push board m) rest k.
Proof. unfold judged_pawns, board_before. rewrite twice_succ. reflexivity. Qed.

Lemma concat_map_seq_shift {A} (f : nat -> list A) (n : nat) :
  List.concat (map f (seq 0 (S n)))
  = (f 0%nat ++ List.concat (map (fun k => f (S k)) (seq 0 n)))%list.
Proof. cbn [seq map List.concat]. rewrite <- seq_shift, map_map. reflexivity. Qed.

Lemma in_concat_map_seq {A} (f : nat -> list A) (n : nat) (d : A) :
  In d (List.concat (map f (seq 0 n))) <-> exists k, (k < n)%nat /\ In d (f k).
Proof.
  rewrite in_concat. split.
  - intros (l & Hl & Hd). apply in_map_iff in Hl. destruct Hl as (k & <- & Hk).
    apply in_seq in Hk. exists k. split; [lia | exact Hd].
  - intros (k & Hk & Hd). exists (f k). split; [| exact Hd].
    apply in_map. apply in_seq. lia.
Qed.

Lemma reported_cons (calls : nat) (board : Board) (m : string) (rest : list string) :
  reported Board push fullmove_number analyse score_with calls board (m :: rest)
  = (judged Board push fullmove_number analyse score_with calls board (m :: rest) 0
     ++ reported Board push fullmove_number analyse score_with
          (S (S calls)) (push board m) rest)%list.
Proof.
  unfold reported. cbn [List.length]. rewrite concat_map_seq_shift. f_equal.
  f_equal. apply map_ext. intros k. apply judged_shift.
Qed.

Lemma reported_pawns_cons (calls : nat) (board : Board) (m : string)
  (rest : list string) :
  reported_pawns Board push fullmove_number san is_legal analyse calls board (m :: rest)
  = (judged_pawns Board push fullmove_number san is_legal analyse calls board
       (m :: rest) 0
     ++ reported_pawns Board push fullmove_number san is_legal analyse
          (S (S calls)) (push board m) rest)%list.
Proof.
  unfold reported_pawns. cbn [List.length]. rewrite concat_map_seq_shift. f_equal.
  f_equal. apply map_ext. intros k. apply judged_pawns_shift.
Qed.

(** The loop of the centipawn script: it returns the entries of the big
    drops after those that it was given, or raises at an empty line. *)
Lemma analyze_moves_run (mainline : list string) :
  forall calls board big_drops,
    (analyze_moves Board push fullmove_number analyse score_with
       calls board mainline big_drops
     = Ok (big_drops
           ++ reported Board push fullmove_number analyse score_with
                calls board mainline)%list
     /\ forall k, (k < List.length mainline)%nat ->
                  ~ empty_line Board push analyse calls board mainline k)
    \/ (analyze_moves Board push fullmove_number analyse score_with
          calls board mainline big_drops
        = Throw "IndexError"
        /\ exists k, (k < List.length mainline)%nat
                     /\ empty_line Board push analyse calls board mainline k).
Proof.
  induction mainline as [| m rest IH]; intros calls board big_drops.
  - left. split; [cbn; now rewrite app_nil_r | intros k Hk; cbn in Hk; lia].
  - cbn [analyze_moves]. rewrite reported_cons.
    pose proof (first_of_pv_throws (analyse calls board)) as Hpv.
    assert (Hjudged :
      judged Board push fullmove_number analyse score_with calls board (m :: rest) 0
      = match score_with 10000 (score (analyse calls board)),
              score_with 10000 (score (analyse (S calls) (push board m))),
              first_of_pv (analyse calls board) with
        | Some before, Some after, Ok best_move =>
            if is_big_drop (Some before) (Some after) m best_move
            then [{| move_number := fullmove_number (push board m);
                     played := m; best := best_move;
                     before := before; after := after |}]
            else []
        | _, _, _ => []
        end) by reflexivity.
    rewrite Hjudged. clear Hjudged.
    destruct (first_of_pv (analyse calls board)) as [best_move | e |].
    + match goal with
      | |- context [analyze_moves _ _ _ _ _ _ _ _ ?d] =>
          destruct (IH (S (S calls)) (push board m) d) as [[Hrun Hnone] | [Hrun Hsome]]
      end.
      * left. split.
        -- rewrite Hrun. f_equal.
           destruct (score_with 10000 (score (analyse calls board))) as [b |];
             [| reflexivity].
           destruct (score_with 10000 (score (analyse (S calls) (push board m))))
             as [a |]; [| reflexivity].
           destruct (is_big_drop (Some b) (Some a) m best_move);
             [now rewrite <- app_assoc | reflexivity].
        -- intros [| k] Hk; [exact Hpv |].
           rewrite empty_line_shift. apply Hnone. cbn in Hk. lia.
      * right. split; [exact Hrun |].
        destruct Hsome as (k & Hk & Hempty). exists (S k).
        split; [cbn; lia | now apply empty_line_shift].
    + right. destruct Hpv as [-> Hpv]. split; [reflexivity |].
      exists 0%nat. split; [cbn; lia | exact Hpv].
    + destruct Hpv.
Qed.

(** The loop of the scripts that count in pawns *)
Lemma analyze_moves_pawns_run (mainline : list string) :
  forall calls board big_drops,
    (analyze_moves_pawns Board push fullmove_number san is_legal analyse
       calls board mainline big_drops
     = Ok (big_drops
           ++ reported_pawns Board push fullmove_number san is_legal analyse
                calls board mainline)%list
     /\ forall k, (k < List.length mainline)%nat ->
                  ~ empty_line Board push analyse calls board mainline k)
    \/ (analyze_moves_pawns Board push fullmove_number san is_legal analyse
          calls board mainline big_drops
        = Throw "IndexError"
        /\ exists k, (k < List.length mainline)%nat
                     /\ empty_line Board push analyse calls board mainline k).
Proof.
  induction mainline as [| m rest IH]; intros calls board big_drops.
  - left. split; [cbn; now rewrite app_nil_r | intros k Hk; cbn in Hk; lia].
  - cbn [analyze_moves_pawns]. rewrite reported_pawns_cons.
    pose proof (first_of_pv_throws (analyse calls board)) as Hpv.
    assert (Hjudged :
      judged_pawns Board push fullmove_number san is_legal analyse calls board
        (m :: rest) 0
      = match first_of_pv (analyse calls board) with
        | Ok best_move =>
            if is_big_drop_pawns (score_in_pawns (score (analyse calls board)))
                 (score_in_pawns (score (analyse (S calls) (push board m))))
                 m best_move
            then [{| move_number := fullmove_number (push board m);
                     played := match san board m with Some s => s | None => m end;
                     best := Some (san_of_best Board san is_legal board best_move);
                     before := score_in_pawns (score (analyse calls board));
                     after := score_in_pawns (score (analyse (S calls) (push board m))) |}]
            else []
        | _ => []
        end) by reflexivity.
    rewrite Hjudged. clear Hjudged.
    destruct (first_of_pv (analyse calls board)) as [best_move | e |].
    + match goal with
      | |- context [analyze_moves_pawns _ _ _ _ _ _ _ _ _ ?d] =>
          destruct (IH (S (S calls)) (push board m) d) as [[Hrun Hnone] | [Hrun Hsome]]
      end.
      * left. split.
        -- rewrite Hrun. f_equal.
           destruct (is_big_drop_pawns _ _ m best_move);
             [now rewrite <- app_assoc | reflexivity].
        -- intros [| k] Hk; [exact Hpv |].
           rewrite empty_line_shift. apply Hnone. cbn in Hk. lia.
      * right. split; [exact Hrun |].
        destruct Hsome as (k & Hk & Hempty). exists (S k).
        split; [cbn; lia | now apply empty_line_shift].
    + right. destruct Hpv as [-> Hpv]. split; [reflexivity |].
      exists 0%nat. split; [cbn; lia | exact Hpv].
    + destruct Hpv.
Qed.

(** The entries of a move are those that [enters_big_drops] describes *)
Lemma judged_iff (calls : nat) (board : Board) (mainline : list string) (k : nat)
  (d : Drop Z) :
  In d (judged Board push fullmove_number analyse score_with calls board mainline k)
  <-> enters_big_drops Board push fullmove_number analyse score_with
        calls board mainline k d.
Proof.
  unfold judged, enters_big_drops. cbn zeta.
  destruct (nth_error mainline k) as [played_move |];
    [| split; [intros [] | intros (p & bm & b & a & Hn & _); discriminate]].
  destruct (score_with 10000 (score (analyse (2 * k + calls)
                                       (board_before Board push board mainline k))))
    as [before |];
    [| split; [intros [] | intros (p & bm & b & a & _ & _ & Hb & _); discriminate]].
  destruct (score_with 10000
              (score (analyse (S (2 * k + calls))
                        (push (board_before Board push board mainline k) played_move))))
    as [after |] eqn:Ea;
    [| split; [intros [] |];
       intros (p & bm & b & a & Hn & _ & _ & Ha & _); injection Hn as <-; congruence].
  destruct (first_of_pv (analyse (2 * k + calls)
                           (board_before Board push board mainline k)))
    as [best_move | e |];
    try (split; [intros [] | intros (p & bm & b & a & _ & Hf & _); discriminate]).
  destruct (is_big_drop (Some before) (Some after) played_move best_move) eqn:Hd.
  - apply is_big_drop_iff in Hd. destruct Hd as [Hdelta Hbest]. split.
    + intros [<- | []]. exists played_move, best_move, before, after. auto 10.
    + intros (p & bm & b & a & Hn & Hf & Hb & Ha & _ & _ & ->).
      injection Hn as <-. injection Hf as <-. injection Hb as <-.
      rewrite Ea in Ha. injection Ha as <-. left. reflexivity.
  - split; [intros [] |].
    intros (p & bm & b & a & Hn & Hf & Hb & Ha & Hdelta & Hbest & _).
    injection Hn as <-. injection Hf as <-. injection Hb as <-.
    rewrite Ea in Ha. injection Ha as <-.
    assert (Hyes : is_big_drop (Some before) (Some after) played_move best_move = true)
      by (apply is_big_drop_iff; split; assumption).
    congruence.
Qed.

Lemma judged_pawns_iff (calls : nat) (board : Board) (mainline : list string)
  (k : nat) (d : Drop float) :
  In d (judged_pawns Board push fullmove_number san is_legal analyse
          calls board mainline k)
  <-> enters_big_drops_pawns Board push fullmove_number san is_legal analyse
        calls board mainline k d.
Proof.
  unfold judged_pawns, enters_big_drops_pawns. cbn zeta.
  destruct (nth_error mainline k) as [played_move |];
    [| split; [intros [] | intros (p & bm & Hn & _); discriminate]].
  destruct (first_of_pv (analyse (2 * k + calls)
                           (board_before Board push board mainline k)))
    as [best_move | e |];
    try (split; [intros [] | intros (p & bm & _ & Hf & _); discriminate]).
  destruct (is_big_drop_pawns _ _ played_move best_move) eqn:Hd.
  - apply is_big_drop_pawns_iff in Hd. destruct Hd as [Hdelta Hbest]. split.
    + intros [<- | []]. exists played_move, best_move. auto 10.
    + intros (p & bm & Hn & Hf & _ & _ & ->).
      injection Hn as <-. injection Hf as <-. left. reflexivity.
  - split; [intros [] |].
    intros (p & bm & Hn & Hf & Hdelta & Hbest & _).
    injection Hn as <-. injection Hf as <-.
    assert (Hyes : is_big_drop_pawns
                     (score_in_pawns
                        (score (analyse (2 * k + calls)
                                  (board_before Board push board mainline k))))
                     (score_in_pawns
                        (score (analyse (S (2 * k + calls))
                                  (push (board_before Board push board mainline k)
                                     played_move))))
                     played_move best_move = true)
      by (apply is_big_drop_pawns_iff; split; assumption).
    congruence.
Qed.

Lemma reported_iff (calls : nat) (board : Board) (mainline : list string) (d : Drop Z) :
  In d (reported Board push fullmove_number analyse score_with calls board mainline)
  <-> exists k,
        enters_big_drops Board push fullmove_number analyse score_with
          calls board mainline k d.
Proof.
  unfold reported. rewrite in_concat_map_seq. split.
  - intros (k & _ & Hd). exists k. now apply judged_iff.
  - intros (k & Hd). exists k. split; [| now apply judged_iff].
    destruct Hd as (p & bm & b & a & Hn & _). apply nth_error_Some. congruence.
Qed.

Lemma reported_pawns_iff (calls : nat) (board : Board) (mainline : list string)
  (d : Drop float) :
  In d (reported_pawns Board push fullmove_number san is_legal analyse
          calls board mainline)
  <-> exists k,
        enters_big_drops_pawns Board push fullmove_number san is_legal analyse
          calls board mainline k d.
Proof.
  unfold reported_pawns. rewrite in_concat_map_seq. split.
  - intros (k & _ & Hd). exists k. now apply judged_pawns_iff.
  - intros (k & Hd). exists k. split; [| now apply judged_pawns_iff].
    destruct Hd as (p & bm & Hn & _). apply nth_error_Some. congruence.
Qed.

(** A game in which the engine always hands back a line or none: the
    centipawn script returns, and a move is in [big_drops] exactly when it
    enters it. *)
Lemma analyze_game_entries (board : Board) (mainline : list string) :
  (forall k, (k < List.length mainline)%nat ->
             ~ empty_line Board push analyse 0 board mainline k) ->
  exists result,
    analyze_game Board push fullmove_number analyse score_with board mainline
    = Ok result
    /\ forall d,
         In d result
         <-> exists k,
               enters_big_drops Board push fullmove_number analyse score_with
                 0 board mainline k d.
Proof.
  intros Hnone. unfold analyze_game.
  destruct (analyze_moves_run mainline 0%nat board []) as [[Hrun _] | [_ Hsome]].
  - rewrite Hrun. eexists. split; [reflexivity |]. intros d. apply reported_iff.
  - destruct Hsome as (k & Hk & Hempty). destruct (Hnone k Hk Hempty).
Qed.

Lemma analyze_game_pawns_entries (board : Board) (mainline : list string) :
  (forall k, (k < List.length mainline)%nat ->
             ~ empty_line Board push analyse 0 board mainline k) ->
  exists result,
    analyze_game_pawns Board push fullmove_number san is_legal analyse board mainline
    = Ok result
    /\ forall d,
         In d result
         <-> exists k,
               enters_big_drops_pawns Board push fullmove_number san is_legal analyse
                 0 board mainline k d.
Proof.
  intros Hnone. unfold analyze_game_pawns.
  destruct (analyze_moves_pawns_run mainline 0%nat board []) as [[Hrun _] | [_ Hsome]].
  - rewrite Hrun. eexists. split; [reflexivity |]. intros d. apply reported_pawns_iff.
  - destruct Hsome as (k & Hk & Hempty). destruct (Hnone k Hk Hempty).
Qed.


(** C1, as the code has it.  The remote analyser has no flag per move: its
    flag for the game is set exactly when two consecutive records differ by
    more than one pawn in absolute value, and the evaluations alone decide
    it, whatever the moves played and suggested.  The rule with the
    suggested move is that of the Python scripts: their test holds exactly
    when the delta is at least 200 centipawns (2.0 pawns) and the played
    move is not the suggested one; from +150 to -150 a move is a big drop
    when it differs from the suggested move and is none when it is the
    suggested move.  In a game whose analyses hand back a line or none,
    the scripts return, and a move is in [big_drops] exactly when it passes
    this test on the scores of the analyses before and after it. *)
Theorem drop_rules (played_move : string) :
  (forall records,
     hasBlunders records = true <->
     exists before p c after,
       records = (before ++ p :: c :: after)%list /\ big_swing p c = true)
  /\ (forall records records',
        map MoveEvaluation.evaluationFloat records
        = map MoveEvaluation.evaluationFloat records' ->
        hasBlunders records = hasBlunders records')
  /\ (forall before after best_move,
        is_big_drop (Some before) (Some after) played_move best_move = true
        <-> 200 <= Z.abs (before - after) /\ best_move <> Some played_move)
  /\ (forall best_move,
        best_move <> Some played_move ->
        is_big_drop (Some 150) (Some (-150)) played_move best_move = true
        /\ is_big_drop_pawns 1.5%float (-1.5)%float played_move best_move = true)
  /\ is_big_drop (Some 150) (Some (-150)) played_move (Some played_move) = false
  /\ is_big_drop_pawns 1.5%float (-1.5)%float played_move (Some played_move) = false
  /\ (forall board mainline result,
        analyze_game Board push fullmove_number analyse score_with board mainline
        = Ok result ->
        Forall (drop_in_centipawns score_with) result)
  /\ (forall board mainline result,
        analyze_game_pawns Board push fullmove_number san is_legal analyse board mainline
        = Ok result ->
        Forall drop_in_pawns result)
  /\ (forall score_before score_after best_move,
        is_big_drop_pawns score_before score_after played_move best_move = true
        <-> PrimFloat.leb 2.0%float
              (PrimFloat.abs (score_before - score_after)%float) = true
            /\ best_move <> Some played_move)
  /\ (forall board mainline,
        (forall k, (k < List.length mainline)%nat ->
                   ~ empty_line Board push analyse 0 board mainline k) ->
        exists result,
          analyze_game Board push fullmove_number analyse score_with board mainline
          = Ok result
          /\ forall d,
               In d result
               <-> exists k,
                     enters_big_drops Board push fullmove_number analyse score_with
                       0 board mainline k d)
  /\ (forall board mainline,
        (forall k, (k < List.length mainline)%nat ->
                   ~ empty_line Board push analyse 0 board mainline k) ->
        exists result,
          analyze_game_pawns Board push fullmove_number san is_legal analyse
            board mainline
          = Ok result
          /\ forall d,
               In d result
               <-> exists k,
                     enters_big_drops_pawns Board push fullmove_number san is_legal
                       analyse 0 board mainline k d).
Proof.
  split; [exact hasBlunders_iff |].
  split; [exact hasBlunders_evaluations |].
  split; [intros; apply is_big_drop_iff |].
  split.
  { intros best_move Hne. apply differs_iff in Hne.
    unfold is_big_drop, is_big_drop_pawns. rewrite Hne. split; reflexivity. }
  assert (Hsame : differs played_move (Some played_move) = false).
  { cbn. now rewrite String.eqb_refl. }
  split; [unfold is_big_drop; rewrite Hsame; apply andb_false_r |].
  split; [unfold is_big_drop_pawns; rewrite Hsame; apply andb_false_r |].
  split; [intros board mainline result; apply analyze_moves_sound; constructor |].
  split; [intros board mainline result; apply analyze_moves_pawns_sound; constructor |].
  split; [intros; apply is_big_drop_pawns_iff |].
  split; [exact analyze_game_entries | exact analyze_game_pawns_entries].
Qed.


End PythonGame.

(** C1, the counterexample: the game 1. e4 e5, the position after e4
    evaluated at 1.5 pawns with [e5] suggested, the position after e5 at
    -1.5 pawns.  The move played is the suggested one, which the rule of
    the specification never counts as a blunder, and the analyser reports
    major drops. *)
Lemma suggested_move_reported_as_drop :
  exists r w' r1 r2,
    analyzeCompleteGame (H := Book.rules) swing exponent_form "1. e4 e5" "g" net0
    = (Ok r, w')
    /\ GameAnalysisResult.moveEvaluations r = [r1; r2]
    /\ MoveEvaluation.bestMove r1 = "e5"
    /\ MoveEvaluation.move r2 = padEnd 7 "e5" ++ "|"
    /\ hasBlunders (GameAnalysisResult.moveEvaluations r) = true
    /\ summary_line r = blunder_summary
    /\ spec_isBlunder 2.0%float (MoveEvaluation.evaluationFloat r1)
         (MoveEvaluation.evaluationFloat r2) "e5" (MoveEvaluation.bestMove r1) = false.
Proof.
  eexists _, _, _, _. split; [vm_compute; reflexivity |].
  split; [reflexivity |]. repeat split.
Qed.

(** C1, an instance: a game of one move in the setting of [PyExample];
    the move played, [e7e5], is not the suggested [d7d5] and the score goes
    from 150 to -150: the script returns, and the move is in its list. *)
Lemma drop_rules_witness :
  LichessAnalyzer.is_big_drop (Some 150) (Some (-150)) "e7e5" (Some "d7d5") = true
  /\ LichessAnalyzer.is_big_drop (Some 150) (Some (-150)) "e7e5" (Some "e7e5") = false
  /\ exists result,
       LichessAnalyzer.analyze_game PyExample.Board PyExample.push
         PyExample.fullmove_number PyExample.analyse PyExample.score_with [] ["e7e5"]
       = Ok result
       /\ Forall (drop_in_centipawns PyExample.score_with) result
       /\ In {| LichessAnalyzer.move_number := 1;
                LichessAnalyzer.played := "e7e5";
                LichessAnalyzer.best := Some "d7d5";
                LichessAnalyzer.before := 150;
                LichessAnalyzer.after := -150 |} result.
Proof.
  destruct (drop_rules PyExample.Board PyExample.push PyExample.fullmove_number
              PyExample.san PyExample.is_legal PyExample.analyse PyExample.score_with
              "e7e5")
    as (_ & _ & _ & Hdiff & Hsame & _ & Hloop & _ & _ & Hentries & _).
  split; [apply Hdiff; discriminate |]. split; [exact Hsame |].
  destruct (Hentries [] ["e7e5"]) as (result & Hrun & Hin).
  { intros k _. unfold Vocabulary.empty_line. cbn. discriminate. }
  exists result. split; [exact Hrun |].
  split; [apply (Hloop [] ["e7e5"]); exact Hrun |].
  apply Hin. exists 0%nat, "e7e5", (Some "d7d5"), 150, (-150).
  repeat split; try reflexivity; [cbn; lia | discriminate].
Defined.



(* ================================================================== *)
(** ** The manual extraction of the moves *)

Lemma list_ascii_append (s t : string) :
  list_ascii_of_string (s ++ t) = (list_ascii_of_string s ++ list_ascii_of_string t)%list.
Proof. induction s as [| c s IH]; cbn; [reflexivity | now rewrite IH]. Qed.

Lemma split_lines_cons (s : string) :
  exists first rest, JsString.split_lines s = first :: rest.
Proof.
  induction s as [| c s (first & rest & E)]; cbn; [eauto |].
  rewrite E. destruct (Ascii.eqb c "010"); eauto.
Qed.

(** A line without a line feed, a line feed, and the rest *)
Lemma split_lines_line (s t : string) :
  no_newline s ->
  JsString.split_lines (s ++ newline ++ t) = s :: JsString.split_lines t.
Proof.
  induction s as [| c s IH]; intros Hs.
  - cbn. destruct (split_lines_cons t) as (first & rest & ->). reflexivity.
  - cbn [append JsString.split_lines].
    rewrite IH by (intros d Hd; apply Hs; right; exact Hd).
    destruct (Ascii.eqb_spec c "010"%char) as [-> | _]; [| reflexivity].
    exfalso. apply (Hs "010"%char); [left; reflexivity | reflexivity].
Qed.

Lemma no_newline_header (body : string) : no_newline body -> no_newline (header body).
Proof.
  intros Hb c Hc. unfold header in Hc. cbn in Hc. rewrite list_ascii_append in Hc.
  destruct Hc as [<- | Hc]; [discriminate |].
  apply in_app_or in Hc. destruct Hc as [Hc | [<- | []]]; [now apply Hb | discriminate].
Qed.

Lemma split_lines_pgn_text (bodies : list string) (movetext : string) :
  Forall no_newline bodies ->
  JsString.split_lines (pgn_text bodies movetext)
  = (map header bodies ++ JsString.split_lines (newline ++ movetext))%list.
Proof.
  induction 1 as [| body bodies Hb _ IH]; [reflexivity |].
  cbn [pgn_text fold_right map List.app]. rewrite split_lines_line by now apply no_newline_header.
  f_equal. exact IH.
Qed.

Lemma trimStart_rev_bracket (l : list ascii) (c : ascii) :
  Regex.is_space c = false ->
  JsString.trimStart (List.rev (l ++ [c])) = List.rev (l ++ [c]).
Proof.
  intros Hc. rewrite rev_app_distr. cbn [List.rev List.app JsString.trimStart].
  now rewrite Hc.
Qed.

Lemma trim_header (body : string) : JsString.trim (header body) = header body.
Proof.
  unfold JsString.trim, header. cbn [append list_ascii_of_string JsString.trimStart].
  change (Regex.is_space "[") with false. cbn iota.
  rewrite list_ascii_append. cbn [list_ascii_of_string].
  change ("["%char :: (list_ascii_of_string body ++ ["]"%char])%list)
    with ((("["%char :: list_ascii_of_string body) ++ ["]"%char]))%list.
  rewrite trimStart_rev_bracket by reflexivity.
  rewrite rev_involutive. cbn [List.app string_of_list_ascii]. f_equal.
  change ["]"%char] with (list_ascii_of_string "]").
  rewrite <- list_ascii_append. apply string_of_list_ascii_of_string.
Qed.

Lemma lastIndexOf_end (s : string) (c : ascii) :
  JsString.lastIndexOf (s ++ String c EmptyString) c = Some (String.length s).
Proof.
  induction s as [| d s IH]; cbn.
  - now rewrite Ascii.eqb_refl.
  - now rewrite IH.
Qed.

Lemma length_append (s t : string) :
  String.length (s ++ t) = (String.length s + String.length t)%nat.
Proof. induction s as [| c s IH]; cbn; [reflexivity | now rewrite IH]. Qed.

Lemma startsWith_header (body : string) : startsWith (header body) "[" = true.
Proof. unfold startsWith, header. cbn. now destruct (body ++ "]"). Qed.

(** A header line gives no text to the extraction. *)
Lemma moveLines_header (bodies : list string) (movetext : string) :
  Forall no_newline bodies ->
  moveLines (pgn_text bodies movetext) = moveLines (newline ++ movetext).
Proof.
  intros Hb. unfold moveLines. rewrite split_lines_pgn_text by exact Hb.
  rewrite flat_map_app.
  match goal with |- (?skipped ++ _)%list = _ => assert (Hs : skipped = []) end.
  { clear Hb. induction bodies as [| body bodies IH]; [reflexivity |].
    cbn [map flat_map]. rewrite IH, app_nil_r. rewrite trim_header.
    rewrite startsWith_header.
    change (header body) with (String "["%char (body ++ "]")).
    cbn [JsString.lastIndexOf]. rewrite lastIndexOf_end.
    cbn [String.length]. rewrite length_append. cbn [String.length].
    replace (S (String.length body) <? S (String.length body + 1) - 1)%nat with false;
      [reflexivity |].
    symmetry. apply Nat.ltb_ge. lia. }
  rewrite Hs. reflexivity.
Qed.

Section Extraction.
Context `{ChessRules}.
Variable service : nat -> string -> FetchOutcome.
Variable Number_toString : float -> string.

(** The candidates that are kept are those before the first one that the
    rules refuse. *)
Lemma validateMoves_spec (candidates : list string) :
  forall (chess : Chess) (gameMoves : list string),
  exists kept dropped p,
    candidates = (kept ++ dropped)%list
    /\ validateMoves candidates chess gameMoves = (gameMoves ++ kept)%list
    /\ replay (position chess) kept = Some p
    /\ match dropped with
       | [] => True
       | refused :: _ => move_san p refused = None
       end.
Proof.
  induction candidates as [| move rest IH]; intros chess gameMoves.
  - exists [], [], (position chess). cbn. now rewrite app_nil_r.
  - cbn [validateMoves]. unfold chess_move_san.
    destruct (move_san (position chess) move) as [p |] eqn:E.
    + match goal with
      | |- context [validateMoves rest ?c ?g] =>
          destruct (IH c g) as (kept & dropped & q & -> & -> & Hq & Hd)
      end.
      exists (move :: kept), dropped, q. cbn [position replay] in *.
      rewrite E, <- app_assoc. auto.
    + exists [], (move :: rest), (position chess). cbn. now rewrite app_nil_r.
Qed.

Lemma validateMoves_all (candidates : list string) :
  forall (chess : Chess) (gameMoves : list string),
    replay (position chess) candidates <> None ->
    validateMoves candidates chess gameMoves = (gameMoves ++ candidates)%list.
Proof.
  induction candidates as [| move rest IH]; intros chess gameMoves Hplay.
  - cbn. now rewrite app_nil_r.
  - cbn [validateMoves replay] in *. unfold chess_move_san.
    destruct (move_san (position chess) move) as [p |]; [| congruence].
    rewrite IH by exact Hplay. now rewrite <- app_assoc.
Qed.

Lemma analyzeGameMoves_returns (analyze : string -> M Net StockfishApiAnalysis.t)
  (maxMoves : nat) (pgn gameId : string) (gameMoves : list string) (w : Net) :
  (forall fen w, fst (analyze fen w) <> OutOfFuel) ->
  replay startpos gameMoves <> None ->
  exists r w',
    analyzeGameMoves Number_toString analyze maxMoves pgn gameId gameMoves w = (Ok r, w')
    /\ GameAnalysisResult.totalMoves r = Z.of_nat (List.length gameMoves).
Proof.
  intros Hfuel Hplay. unfold analyzeGameMoves, try_catch, bind.
  pose proof (analyzeMoves_spec Number_toString analyze Hfuel (firstn maxMoves gameMoves) 0
                new_Chess
                ([], [game_line (match eventName pgn with
                                 | Some name => name | None => "Chess Game" end)]) w) as Hloop.
  destruct (analyzeMoves _ _ _ _ _ _ _) as [[out' | e |] w1].
  - eexists _, _. split; reflexivity.
  - exfalso. revert Hloop. apply replay_firstn. exact Hplay.
  - contradiction.
Qed.

(** C6: from a text of header lines, an empty line and the line
    [1. e4 e5 2. Nf3 Nc6 1-0] the manual extraction recovers the four
    moves, without the move numbers and the result.  For every text the
    candidates are played in order from the starting position and the moves
    kept are those before the first candidate that is refused.  When the
    parser of chess.js throws, the analysis of the game returns a result,
    whatever the service does and however few moves were recovered. *)
Theorem manual_extraction (bodies : list string) :
  Forall no_newline bodies ->
  replay startpos sample_moves <> None ->
  extractManually (pgn_text bodies "1. e4 e5 2. Nf3 Nc6 1-0") = sample_moves
  /\ (forall pgn,
        exists dropped p,
          extractedMoves pgn = (extractManually pgn ++ dropped)%list
          /\ replay startpos (extractManually pgn) = Some p
          /\ match dropped with
             | [] => True
             | refused :: _ => move_san p refused = None
             end)
  /\ (forall pgn gameId w,
        loadPgn pgn = None ->
        exists r w',
          analyzeCompleteGame service Number_toString pgn gameId w = (Ok r, w')
          /\ GameAnalysisResult.totalMoves r
             = Z.of_nat (List.length (extractManually pgn))).
Proof.
  intros Hbodies Hplay.
  assert (Hspec : forall pgn,
             exists dropped p,
               extractedMoves pgn = (extractManually pgn ++ dropped)%list
               /\ replay startpos (extractManually pgn) = Some p
               /\ match dropped with
                  | [] => True
                  | refused :: _ => move_san p refused = None
                  end).
  { intros pgn. unfold extractManually.
    destruct (validateMoves_spec (extractedMoves pgn) new_Chess [])
      as (kept & dropped & p & E & -> & Hp & Hd).
    exists dropped, p. cbn [List.app]. auto. }
  split; [| split; [exact Hspec |]].
  - unfold extractManually, extractedMoves.
    rewrite moveLines_header by exact Hbodies.
    replace (filter _ _) with sample_moves by (vm_compute; reflexivity).
    apply (validateMoves_all sample_moves new_Chess []). exact Hplay.
  - intros pgn gameId w Hload. unfold analyzeCompleteGame, gameMovesOf. rewrite Hload.
    apply analyzeGameMoves_returns; [apply analyzePosition_returns |].
    destruct (Hspec pgn) as (dropped & p & _ & -> & _). discriminate.
Qed.

End Extraction.

(** C6, an instance: the book and a text with two headers *)
Lemma manual_extraction_witness :
  extractManually (H := Book.rules)
    (pgn_text ["Event " ++ String quote "Casual Game" ++ String quote EmptyString;
               "Result " ++ String quote "1-0" ++ String quote EmptyString]
       "1. e4 e5 2. Nf3 Nc6 1-0")
  = ["e4"; "e5"; "Nf3"; "Nc6"].
Proof.
  apply (manual_extraction (H := Book.rules) steady exponent_form).
  - repeat constructor; intros c Hc; cbn in Hc;
      repeat (destruct Hc as [<- | Hc]; [discriminate |]); destruct Hc.
  - vm_compute. discriminate.
Defined.

(* ================================================================== *)
(** ** The heuristic evaluator and the best-move search *)

Section Search.
Import RealStockfishEngine.
Context `{ChessRules}.

(** The evaluation reads the position of the board and nothing else. *)
Lemma evaluation_of_position (p : Position) (undone undone' : list Position) :
  calculateStockfishStyleEvaluation {| position := p; undo_stack := undone |}
  = calculateStockfishStyleEvaluation {| position := p; undo_stack := undone' |}.
Proof.
  unfold calculateStockfishStyleEvaluation, getMaterialBalance, evaluatePieceActivity,
    evaluateKingSafety, evaluatePawnStructure, evaluatePositionalFactors,
    evaluateTacticalFactors, countPawns, isIsolatedPawn.
  cbn [position]. reflexivity.
Qed.

(** Scoring a candidate: the score when the move is accepted, the error of
    chess.js when it is not; the board is as before in both cases. *)
Lemma scoreAfter_run (m : Move) (chess : Chess) :
  scoreAfter m chess
  = match move (position chess) m with
    | Some _ => (Ok (candidateScore chess m), chess)
    | None => (Throw "Invalid move", chess)
    end.
Proof.
  unfold scoreAfter, candidateScore, bind, chess_move, get, chess_undo, ret.
  destruct (move (position chess) m); [| reflexivity].
  cbn. destruct chess; reflexivity.
Qed.

Lemma scoreAfter_frame (m : Move) (chess : Chess) : snd (scoreAfter m chess) = chess.
Proof. rewrite scoreAfter_run. now destruct (move (position chess) m). Qed.

Lemma findBest_loop_frame (ms : list Move) :
  forall bestMove bestEvaluation chess,
    snd (findBest_loop ms bestMove bestEvaluation chess) = chess.
Proof.
  induction ms as [| m rest IH]; intros bestMove bestEvaluation chess; [reflexivity |].
  cbn [findBest_loop]. unfold bind. rewrite scoreAfter_run.
  destruct (move (position chess) m); [| reflexivity].
  destruct (gt _ _); apply IH.
Qed.

Lemma findBest_frame (chess : Chess) :
  snd (findBestMoveUsingEvaluation chess) = chess.
Proof.
  unfold findBestMoveUsingEvaluation, bind, get.
  destruct (moves (position chess)) as [| first rest] eqn:E; [reflexivity |].
  pose proof (findBest_loop_frame (first :: rest) first NegInfinity chess) as Hf.
  destruct (findBest_loop _ _ _ _) as [[best | e |] chess']; cbn in *; now subst.
Qed.

Lemma mapM_frame {A B} (f : A -> M Chess B) (l : list A) (chess : Chess) :
  (forall a c, snd (f a c) = c) -> snd (mapM f l chess) = chess.
Proof.
  intros Hf. revert chess. induction l as [| a rest IH]; intros chess; [reflexivity |].
  cbn [mapM]. unfold bind. pose proof (Hf a chess) as Ha.
  destruct (f a chess) as [[b | e |] c1]; cbn in Ha; subst; try reflexivity.
  pose proof (IH chess) as Hr.
  destruct (mapM f rest chess) as [[bs | e |] c2]; cbn in Hr; subst; reflexivity.
Qed.

Lemma getTopAlternatives_frame (chess : Chess) :
  snd (getTopAlternativesWithEvaluation chess) = chess.
Proof.
  unfold getTopAlternativesWithEvaluation. unfold bind at 1. unfold get at 1.
  apply mapM_frame. intros m c. unfold bind.
  pose proof (scoreAfter_frame m c) as Hs.
  destruct (scoreAfter m c) as [[v | e |] c1]; cbn in Hs; subst; reflexivity.
Qed.

(** The loop of the search, when the rules accept the moves they list *)
Lemma findBest_loop_run (chess : Chess) (ms : list Move) :
  (forall m, In m ms -> move (position chess) m <> None) ->
  forall bestMove bestEvaluation,
    findBest_loop ms bestMove bestEvaluation chess
    = (Ok (selected chess ms bestMove bestEvaluation), chess).
Proof.
  induction ms as [| m rest IH]; intros Hlegal bestMove bestEvaluation; [reflexivity |].
  cbn [findBest_loop selected]. unfold bind. rewrite scoreAfter_run.
  destruct (move (position chess) m) eqn:E;
    [| exfalso; apply (Hlegal m); [left; reflexivity | exact E]].
  destruct (gt _ _); apply IH; intros x Hx; apply Hlegal; right; exact Hx.
Qed.

(** The candidate selected against a running best of score [v] *)
Lemma selected_spec (chess : Chess) (ms : list Move) :
  forall bestMove,
    let v := candidateScore chess bestMove in
    let r := selected chess ms bestMove (Int v) in
    (r = bestMove /\ forall m, In m ms -> candidateScore chess m <= v)
    \/ exists before after,
         ms = (before ++ r :: after)%list
         /\ v < candidateScore chess r
         /\ (forall m, In m before -> candidateScore chess m < candidateScore chess r)
         /\ (forall m, In m after -> candidateScore chess m <= candidateScore chess r).
Proof.
  induction ms as [| m rest IH]; intros bestMove; cbn zeta.
  - left. split; [reflexivity | intros m []].
  - cbn [selected gt]. destruct (candidateScore chess bestMove <? candidateScore chess m) eqn:E.
    + apply Z.ltb_lt in E. right.
      destruct (IH m) as [[-> Hall] | (before & after & Hms & Hv & Hb & Ha)].
      * exists [], rest. repeat split; auto. intros x [].
      * exists (m :: before), after. rewrite Hms at 1. repeat split; auto; [lia |].
        intros x [<- | Hx]; [exact Hv | now apply Hb].
    + apply Z.ltb_ge in E.
      destruct (IH bestMove) as [[-> Hall] | (before & after & Hms & Hv & Hb & Ha)].
      * left. split; [reflexivity |]. intros x [<- | Hx]; [exact E | now apply Hall].
      * right. exists (m :: before), after. rewrite Hms at 1. repeat split; auto.
        intros x [<- | Hx]; [lia | now apply Hb].
Qed.

(** C5: on a position whose listed moves the rules accept, the search
    returns without throwing and leaves the board as it was.  It returns
    the sentinel [none] when there is no legal move, and only then, no move
    being written [none].  When there is a legal move it returns the
    notation of one of them, a move whose score, the negated evaluation of
    the position after it, is the greatest; the moves listed before it
    score strictly less, so that the first of the best moves is returned. *)
Theorem findBestMoveUsingEvaluation_spec (chess : Chess) :
  (forall m, In m (moves (position chess)) -> move (position chess) m <> None) ->
  exists result,
    findBestMoveUsingEvaluation chess = (Ok result, chess)
    /\ (moves (position chess) = [] -> result = "none")
    /\ ((forall m, In m (moves (position chess)) -> san m <> "none") ->
        result = "none" -> moves (position chess) = [])
    /\ (moves (position chess) <> [] ->
        exists before best after,
          moves (position chess) = (before ++ best :: after)%list
          /\ result = san best
          /\ (forall m, In m before -> candidateScore chess m < candidateScore chess best)
          /\ (forall m, In m after -> candidateScore chess m <= candidateScore chess best)).
Proof.
  intros Hlegal. unfold findBestMoveUsingEvaluation, bind, get.
  destruct (moves (position chess)) as [| first rest] eqn:E.
  - exists "none". repeat split; auto. congruence.
  - rewrite findBest_loop_run by exact Hlegal. unfold ret.
    set (best := selected chess (first :: rest) first NegInfinity).
    assert (Hbest : exists before after,
               first :: rest = (before ++ best :: after)%list
               /\ (forall m, In m before -> candidateScore chess m < candidateScore chess best)
               /\ (forall m, In m after -> candidateScore chess m <= candidateScore chess best)).
    { unfold best. cbn [selected gt].
      destruct (selected_spec chess rest first) as [[-> Hall] | (before & after & Hms & Hv & Hb & Ha)].
      - exists [], rest. repeat split; auto. intros x [].
      - exists (first :: before), after. rewrite Hms at 1. repeat split; auto.
        intros x [<- | Hx]; [exact Hv | now apply Hb]. }
    destruct Hbest as (before & after & Hms & Hb & Ha).
    exists (san best). split; [reflexivity |]. split; [discriminate |]. split.
    + intros Hnone Hres. exfalso. apply (Hnone best); [| exact Hres].
      rewrite Hms. apply in_elt.
    + intros _. exists before, best, after. auto.
Qed.

(** C9: the best-move search and the list of the first alternatives leave
    the board as they found it, the position and the moves that can be
    taken back: every move that they play is taken back, and a move that
    the rules refuse changes nothing. *)
Theorem search_leaves_board_unchanged (chess : Chess) :
  snd (findBestMoveUsingEvaluation chess) = chess
  /\ snd (getTopAlternativesWithEvaluation chess) = chess
  /\ (forall m, snd (scoreAfter m chess) = chess).
Proof.
  split; [apply findBest_frame |]. split; [apply getTopAlternatives_frame |].
  intros m. apply scoreAfter_frame.
Qed.

(** C8: the evaluation is a function of the position: it is the same
    whatever moves can be taken back, it is the same before and after a
    best-move search and a listing of the alternatives on the same board,
    and two analyses of the same FEN agree on everything but the two fields
    drawn at random, whatever is drawn. *)
Theorem evaluation_deterministic :
  (forall p undone undone',
     calculateStockfishStyleEvaluation {| position := p; undo_stack := undone |}
     = calculateStockfishStyleEvaluation {| position := p; undo_stack := undone' |})
  /\ (forall chess,
        calculateStockfishStyleEvaluation (snd (findBestMoveUsingEvaluation chess))
        = calculateStockfishStyleEvaluation chess
        /\ calculateStockfishStyleEvaluation (snd (getTopAlternativesWithEvaluation chess))
           = calculateStockfishStyleEvaluation chess)
  /\ (forall random random' fen,
        without_random (analyzePosition random fen)
        = without_random (analyzePosition random' fen)).
Proof.
  split; [exact evaluation_of_position |]. split.
  - intros chess. now rewrite findBest_frame, getTopAlternatives_frame.
  - intros random random' fen. unfold analyzePosition.
    destruct (load fen) as [p |]; [| reflexivity].
    unfold bind, get, ret.
    destruct (findBestMoveUsingEvaluation _) as [[best | e |] c1]; try reflexivity.
    destruct (getTopAlternativesWithEvaluation c1) as [[alts | e |] c2]; try reflexivity.
    destruct (identifyRealTactics c2) as [[themes | e |] c3]; reflexivity.
Qed.

End Search.

(** C5, an instance: the starting position of the book, where the knight
    move scores best *)
Lemma findBestMoveUsingEvaluation_witness :
  exists result,
    RealStockfishEngine.findBestMoveUsingEvaluation Book.opening_board
    = (Ok result, Book.opening_board)
    /\ result = "Nf3".
Proof.
  destruct (findBestMoveUsingEvaluation_spec Book.opening_board) as (result & Hrun & _).
  - intros m Hm. vm_compute in Hm.
    repeat (destruct Hm as [<- | Hm]; [vm_compute; discriminate |]). destruct Hm.
  - exists result. split; [exact Hrun |].
    apply (f_equal fst) in Hrun. vm_compute in Hrun. now injection Hrun as <-.
Defined.

(* ================================================================== *)
(** * More properties *)

Import Vocabulary.

(* ================================================================== *)
(** ** The remote call, for every retry count *)

Section RetryCounts.
Variable service : nat -> string -> FetchOutcome.

Lemma succeeded_success (o : FetchOutcome) (data : StockfishApiAnalysis.t) :
  succeeded o = Some data -> StockfishApiAnalysis.success data = true.
Proof.
  destruct o as [m | st | m | d]; cbn; try discriminate.
  destruct (StockfishApiAnalysis.success d) eqn:E; [| discriminate].
  intros [= <-]. exact E.
Qed.

Lemma analyzePosition_fuel_run (fen : string) (fuel : nat) :
  forall (retryCount : Z) (w : Net),
    (Z.to_nat (maxRetries - retryCount) < fuel)%nat ->
    exists r w' k,
      analyzePosition_fuel service fuel fen retryCount w = (r, w')
      /\ (k <= Z.to_nat (maxRetries - retryCount))%nat
      /\ fetches w' = (fetches w + k + 1)%nat
      /\ sleeps w'
         = (sleeps w
            ++ map (fun j => delay_after (retryCount + Z.of_nat j)) (seq 0 k))%list
      /\ ((exists data, r = Ok data
                        /\ StockfishApiAnalysis.success data = true
                        /\ errors w' = errors w)
          \/ (r = Throw position_error
              /\ exists e, errors w' = (errors w ++ [e])%list)).
Proof.
  induction fuel as [| fuel IH]; intros retryCount w Hfuel; [lia |].
  cbn [analyzePosition_fuel]. unfold bind. rewrite attempt_cases. cbn zeta.
  destruct (succeeded (service (fetches w) fen)) as [data |] eqn:Es.
  { exists (Ok data), (sent w), 0%nat. cbn. rewrite app_nil_r.
    repeat split; try lia. left. exists data. repeat split.
    eapply succeeded_success; exact Es. }
  destruct ((retryCount <? maxRetries) && retryable (service (fetches w) fen)) eqn:Er.
  - apply andb_true_iff in Er. destruct Er as [Hlt _]. apply Z.ltb_lt in Hlt.
    destruct (IH (retryCount + 1)
                (slept (baseDelay + retryCount * 200) (sent w)))
      as (r & w' & k & Hrun & Hk & Hf & Hs & Hr).
    { unfold maxRetries in *. lia. }
    exists r, w', (S k). split; [exact Hrun |]. split; [unfold maxRetries in *; lia |].
    split; [cbn in Hf; lia |]. split.
    + rewrite Hs. cbn [slept sent sleeps seq map]. rewrite <- app_assoc. cbn [List.app].
      do 2 f_equal; [unfold delay_after; f_equal; lia |].
      rewrite <- seq_shift, map_map. apply map_ext. intros j.
      unfold delay_after. f_equal. lia.
    + exact Hr.
  - exists (Throw position_error),
      (logged (error_of (service (fetches w) fen)) (sent w)), 0%nat.
    cbn. rewrite app_nil_r. repeat split; try lia. right. split; [reflexivity | eauto].
Qed.

(** X1: a call of [analyzePosition] with any retry count ends: it sends
    one request and at most [2 - retryCount] more, none more when the count
    is 2 or above; before the [j]-th of these it sleeps
    [600 + 200 * (retryCount + j - 1)] ms; it returns data marked as a
    success, or logs one error and throws [position_error]. *)
Theorem analyzePosition_any_retryCount (fen : string) (retryCount : Z) (w : Net) :
  exists r w' k,
    analyzePosition service fen retryCount w = (r, w')
    /\ (k <= Z.to_nat (maxRetries - retryCount))%nat
    /\ fetches w' = (fetches w + k + 1)%nat
    /\ sleeps w'
       = (sleeps w
          ++ map (fun j => delay_after (retryCount + Z.of_nat j)) (seq 0 k))%list
    /\ ((exists data, r = Ok data
                      /\ StockfishApiAnalysis.success data = true
                      /\ errors w' = errors w)
        \/ (r = Throw position_error
            /\ exists e, errors w' = (errors w ++ [e])%list)).
Proof. unfold analyzePosition. apply analyzePosition_fuel_run. lia. Qed.

Lemma analyzePosition_first_failure (fen : string) (retryCount : Z) (w : Net) :
  succeeded (service (fetches w) fen) = None ->
  retryable (service (fetches w) fen) = false ->
  analyzePosition service fen retryCount w
  = (Throw position_error, logged (error_of (service (fetches w) fen)) (sent w)).
Proof.
  intros Hs Hr. unfold analyzePosition. cbn [analyzePosition_fuel]. unfold bind.
  rewrite attempt_cases. cbn zeta. rewrite Hs, Hr, andb_false_r. reflexivity.
Qed.

(** X2: a rejection of [fetch] or of [response.json()] whose message
    contains [API request failed:] or [unsuccessful response] is not
    retried, whatever the retry count: the call sends the one request,
    does not sleep, logs the message and throws [position_error]. *)
Theorem marked_rejection_not_retried (fen message : string) (retryCount : Z) (w : Net) :
  includes message "API request failed:" = true
  \/ includes message "unsuccessful response" = true ->
  service (fetches w) fen = FetchRejected message
  \/ service (fetches w) fen = BodyRejected message ->
  analyzePosition service fen retryCount w
  = (Throw position_error, logged message (sent w)).
Proof.
  intros Hmark Hout.
  assert (Hr : retryable (service (fetches w) fen) = false).
  { destruct Hout as [-> | ->]; cbn; destruct Hmark as [-> | ->]; cbn;
      [reflexivity | apply andb_false_r | reflexivity | apply andb_false_r]. }
  assert (He : error_of (service (fetches w) fen) = message)
    by (destruct Hout as [-> | ->]; reflexivity).
  rewrite <- He. apply analyzePosition_first_failure; [| exact Hr].
  destruct Hout as [-> | ->]; reflexivity.
Qed.

(** X3: the earlier [analyzePosition] sends exactly one request and never
    sleeps; it returns the body as the service delivered it, also one whose
    [success] is false, and throws [position_error], the error logged, for
    everything else. *)
Theorem analyzePosition_v1_single_request (fen : string) (w : Net) :
  exists r w',
    analyzePosition_v1 service fen w = (r, w')
    /\ fetches w' = S (fetches w)
    /\ sleeps w' = sleeps w
    /\ match service (fetches w) fen with
       | Body data => r = Ok data /\ errors w' = errors w
       | failure =>
           r = Throw position_error
           /\ errors w' = (errors w ++ [error_of failure])%list
       end.
Proof.
  unfold analyzePosition_v1, try_catch, bind, fetch.
  destruct (service (fetches w) fen) as [m | st | m | data];
    eexists _, _; (split; [reflexivity |]); cbn; auto.
Qed.

End RetryCounts.

(** X2, an instance: the transport fails with a message that carries the
    mark of the engine's own errors. *)
Lemma marked_rejection_not_retried_witness :
  analyzePosition (fun _ _ => FetchRejected "proxy: API request failed: 502")
    "startpos" 0 net0
  = (Throw position_error,
     {| fetches := 1; sleeps := []; errors := ["proxy: API request failed: 502"] |}).
Proof.
  apply (marked_rejection_not_retried
           (fun _ _ => FetchRejected "proxy: API request failed: 502")
           "startpos" "proxy: API request failed: 502" 0 net0).
  - left. vm_compute. reflexivity.
  - left. reflexivity.
Defined.

(* ================================================================== *)
(** ** The requests, the delays and the records of a game *)

Section GameTrace.
Context `{ChessRules}.
Variable service : nat -> string -> FetchOutcome.
Variable Number_toString : float -> string.

Lemma spacings_app (w : Net) (l : list Z) :
  count_occ Z.eq_dec (sleeps w ++ l) 500
  = (spacings w + count_occ Z.eq_dec l 500%Z)%nat.
Proof. unfold spacings. apply count_occ_app. Qed.

Lemma no_spacing_in_retries (retryCount : Z) (l : list nat) :
  0 <= retryCount ->
  count_occ Z.eq_dec (map (fun j => delay_after (retryCount + Z.of_nat j)) l) 500 = 0%nat.
Proof.
  intros Hr. induction l as [| j l IH]; [reflexivity |].
  cbn [map count_occ]. destruct (Z.eq_dec _ 500) as [E | _]; [| exact IH].
  unfold delay_after, baseDelay in E. lia.
Qed.

(** A position of the game: one to three requests, the 500 ms before it
    when it is not the first, and its record and line or nothing *)
Lemma evaluateMove_trace (i : Z) (move currentFen : string) (out : Output) (w : Net) :
  exists out' w',
    evaluateMove Number_toString (fun fen => analyzePosition service fen 0)
      i move currentFen out w = (Ok out', w')
    /\ (fetches w < fetches w' <= fetches w + 3)%nat
    /\ spacings w' = (spacings w + if (0 <? i)%Z then 1 else 0)%nat
    /\ (out' = out
        \/ exists analysis,
             StockfishApiAnalysis.success analysis = true
             /\ out' = ((fst out ++ [recordOf i move analysis])%list,
                        (snd out ++ [lineOf Number_toString i move analysis])%list)).
Proof.
  unfold evaluateMove, try_catch, bind.
  set (w1 := if 0 <? i then slept 500 w else w).
  assert (Hp : (if 0 <? i then sleep 500 else ret tt) w = (Ok tt, w1)).
  { unfold w1. destruct (0 <? i); reflexivity. }
  rewrite Hp.
  assert (Hf1 : fetches w1 = fetches w) by (unfold w1; destruct (0 <? i); reflexivity).
  assert (Hs1 : spacings w1 = (spacings w + if (0 <? i)%Z then 1 else 0)%nat).
  { unfold w1. destruct (0 <? i); [| lia].
    unfold spacings at 1. cbn [slept sleeps]. rewrite spacings_app. reflexivity. }
  destruct (analyzePosition_fuel_run service currentFen 3 0 w1)
    as (r & w2 & k & Hrun & Hk & Hf & Hs & Hr); [cbn; lia |].
  change (analyzePosition_fuel service 3 currentFen 0 w1)
    with (analyzePosition service currentFen 0 w1) in Hrun.
  rewrite Hrun. change (Z.to_nat (maxRetries - 0)) with 2%nat in Hk.
  assert (Hs2 : spacings w2 = spacings w1).
  { unfold spacings at 1. rewrite Hs, spacings_app, no_spacing_in_retries; lia. }
  destruct Hr as [(data & -> & Hsucc & _) | (-> & _)].
  - rewrite Hsucc. eexists _, w2. split; [reflexivity |].
    repeat split; try lia. right. exists data. auto.
  - unfold console_error, modify. eexists _, _. split; [reflexivity |].
    cbn. unfold spacings in *. cbn. repeat split; try lia. left. reflexivity.
Qed.

Lemma analyzeMoves_throws (analyze : string -> M Net StockfishApiAnalysis.t)
  (gameMoves : list string) :
  (forall fen w, fst (analyze fen w) <> OutOfFuel) ->
  forall (i : Z) (chess : Chess) (out : Output) (w : Net),
    replay (position chess) gameMoves = None ->
    exists w',
      analyzeMoves Number_toString analyze i gameMoves chess out w
      = (Throw "Invalid move", w').
Proof.
  intros Hfuel. induction gameMoves as [| move rest IH]; intros i chess out w Hplay;
    [discriminate |].
  cbn [analyzeMoves replay] in *. unfold chess_move_san.
  destruct (move_san (position chess) move) as [p |]; [| eexists; reflexivity].
  unfold bind.
  destruct (evaluateMove_cases Number_toString analyze Hfuel i move
              (fen (position {| position := p;
                                undo_stack := position chess :: undo_stack chess |}))
              out w) as [w1 [E | (analysis & _ & E)]]; rewrite E; apply IH; exact Hplay.
Qed.

(** The loop over moves that the rules accept: the records are those of
    an increasing selection [ks] of the moves. *)
Lemma analyzeMoves_trace (gameMoves : list string) :
  forall (i : Z) (chess : Chess) (out : Output) (w : Net),
    0 <= i ->
    replay (position chess) gameMoves <> None ->
    exists (entries : list Entry) (ks : list nat) (w' : Net),
      analyzeMoves Number_toString (fun fen => analyzePosition service fen 0)
        i gameMoves chess out w
      = (Ok ((fst out ++ map record_of_entry entries)%list,
             (snd out ++ map (line_of_entry Number_toString) entries)%list), w')
      /\ StronglySorted lt ks
      /\ Forall (fun k => (k < List.length gameMoves)%nat) ks
      /\ map fst entries
         = map (fun k => (i + Z.of_nat k, nth k gameMoves EmptyString)) ks
      /\ (fetches w + List.length gameMoves <= fetches w'
          <= fetches w + 3 * List.length gameMoves)%nat
      /\ spacings w'
         = (spacings w
            + if (0 <? i)%Z then List.length gameMoves
              else Nat.pred (List.length gameMoves))%nat.
Proof.
  induction gameMoves as [| move rest IH]; intros i chess out w Hi Hplay.
  - exists [], [], w. cbn. rewrite !app_nil_r.
    repeat split; try constructor; try lia; try (destruct out; reflexivity).
    destruct (0 <? i); lia.
  - cbn [analyzeMoves replay] in *. unfold chess_move_san.
    destruct (move_san (position chess) move) as [p |]; [| congruence].
    cbn [position]. unfold bind at 1.
    destruct (evaluateMove_trace i move (fen p) out w)
      as (out1 & w1 & -> & Hf1 & Hs1 & Hout).
    match goal with
    | |- context [analyzeMoves _ _ ?j rest ?c ?o ?v] =>
        destruct (IH j c o v ltac:(lia) Hplay)
          as (entries & ks & w' & -> & Hsorted & Hlt & Hidx & Hf & Hs)
    end.
    assert (Hshift : map (fun k => (i + 1 + Z.of_nat k, nth k rest EmptyString)) ks
                     = map (fun k => (i + Z.of_nat k, nth k (move :: rest) EmptyString))
                         (map S ks)).
    { rewrite map_map. apply map_ext. intros k. cbn [nth]. f_equal. lia. }
    assert (Hsorted' : StronglySorted lt (map S ks)).
    { clear -Hsorted. induction Hsorted as [| k ks _ IHs Hk]; [constructor |].
      cbn. constructor; [exact IHs |]. apply Forall_map.
      eapply Forall_impl; [| exact Hk]. cbn. intros; lia. }
    assert (Hlt' : Forall (fun k => (k < List.length (move :: rest))%nat) (map S ks)).
    { apply Forall_map. eapply Forall_impl; [| exact Hlt]. cbn. intros; lia. }
    assert (Hspace : spacings w'
                     = (spacings w
                        + if (0 <? i)%Z then List.length (move :: rest)
                          else Nat.pred (List.length (move :: rest)))%nat).
    { rewrite Hs, Hs1. replace (0 <? i + 1) with true by (symmetry; apply Z.ltb_lt; lia).
      cbn [List.length Nat.pred]. destruct (0 <? i); lia. }
    destruct Hout as [-> | (analysis & Hsucc & ->)].
    + exists entries, (map S ks), w'. split; [reflexivity |].
      split; [exact Hsorted' |]. split; [exact Hlt' |].
      split; [rewrite Hidx; exact Hshift |].
      split; [cbn [List.length]; lia | exact Hspace].
    + exists ((i, move, analysis) :: entries), (0%nat :: map S ks), w'.
      cbn [fst snd map]. rewrite <- !app_assoc. split; [reflexivity |].
      split.
      { constructor; [exact Hsorted' |]. apply Forall_map, Forall_forall. intros; lia. }
      split; [constructor; [cbn; lia | exact Hlt'] |].
      split.
      { cbn [nth]. f_equal; [f_equal; lia |]. rewrite Hidx. exact Hshift. }
      split; [cbn [List.length]; lia | exact Hspace].
Qed.

Lemma firstn_min_length {A} (l : list A) (n : nat) :
  firstn (Nat.min (List.length l) n) l = firstn n l.
Proof.
  destruct (Nat.le_ge_cases n (List.length l)) as [Hle | Hge].
  - now rewrite Nat.min_r.
  - rewrite Nat.min_l by exact Hge. now rewrite firstn_all, firstn_all2.
Qed.

(** The run of [analyzeCompleteGame], from the moves of the game *)
Lemma analyzeCompleteGame_run (pgn gameId : string) (w : Net) :
  let plies := firstn 30 (gameMovesOf pgn) in
  match replay startpos plies with
  | None =>
      exists w',
        analyzeCompleteGame service Number_toString pgn gameId w = (Throw game_error, w')
  | Some _ =>
      exists (entries : list Entry) (ks : list nat) (w' : Net),
        analyzeCompleteGame service Number_toString pgn gameId w
        = (Ok {| GameAnalysisResult.gameId := gameId;
                 GameAnalysisResult.pgn := pgn;
                 GameAnalysisResult.moveEvaluations := map record_of_entry entries;
                 GameAnalysisResult.rawOutput :=
                   join newline
                     ((game_line (match eventName pgn with
                                  | Some name => name | None => "Chess Game" end)
                       :: map (line_of_entry Number_toString) entries)
                      ++ [EmptyString;
                          if hasBlunders (map record_of_entry entries)
                          then blunder_summary else clean_summary])%list;
                 GameAnalysisResult.totalMoves :=
                   Z.of_nat (List.length (gameMovesOf pgn)) |}, w')
        /\ StronglySorted lt ks
        /\ Forall (fun k => (k < List.length plies)%nat) ks
        /\ map fst entries = map (fun k => (Z.of_nat k, nth k plies EmptyString)) ks
        /\ (fetches w + List.length plies <= fetches w'
            <= fetches w + 3 * List.length plies)%nat
        /\ spacings w' = (spacings w + Nat.pred (List.length plies))%nat
  end.
Proof.
  intros plies. unfold analyzeCompleteGame, analyzeGameMoves, try_catch.
  rewrite firstn_min_length. fold plies.
  destruct (replay startpos plies) as [p |] eqn:Hplay; unfold bind at 1.
  - destruct (analyzeMoves_trace plies 0 new_Chess
                ([], [game_line (match eventName pgn with
                                 | Some name => name | None => "Chess Game" end)]) w)
      as (entries & ks & w' & Hrun & Hsorted & Hlt & Hidx & Hf & Hs);
      [lia | change (replay startpos plies <> None); congruence |].
    exists entries, ks, w'. rewrite Hrun. split; [reflexivity |].
    repeat split; try assumption; lia.
  - destruct (analyzeMoves_throws (fun fen => analyzePosition service fen 0) plies
                (analyzePosition_returns service) 0 new_Chess
                ([], [game_line (match eventName pgn with
                                 | Some name => name | None => "Chess Game" end)]) w Hplay)
      as (w' & Hrun).
    eexists. rewrite Hrun. reflexivity.
Qed.

(** X4: [analyzeCompleteGame] throws exactly when the rules refuse one of
    the first 30 moves of the game, and what it throws then is
    [game_error]; otherwise it returns a result, whatever the service
    does. *)
Theorem analyzeCompleteGame_throws_iff (pgn gameId : string) (w : Net) :
  (replay startpos (firstn 30 (gameMovesOf pgn)) = None ->
   exists w',
     analyzeCompleteGame service Number_toString pgn gameId w = (Throw game_error, w'))
  /\ (replay startpos (firstn 30 (gameMovesOf pgn)) <> None ->
      exists r w',
        analyzeCompleteGame service Number_toString pgn gameId w = (Ok r, w')).
Proof.
  pose proof (analyzeCompleteGame_run pgn gameId w) as Hrun. cbn zeta in Hrun.
  destruct (replay startpos (firstn 30 (gameMovesOf pgn))).
  - split; [discriminate |]. intros _.
    destruct Hrun as (entries & ks & w' & -> & _). eauto.
  - split; [intros _; exact Hrun | congruence].
Qed.

Lemma analyzeCompleteGame_ok_inv (pgn gameId : string) (w w' : Net)
  (r : GameAnalysisResult.t) :
  analyzeCompleteGame service Number_toString pgn gameId w = (Ok r, w') ->
  let plies := firstn 30 (gameMovesOf pgn) in
  exists (entries : list Entry) (ks : list nat),
    GameAnalysisResult.moveEvaluations r = map record_of_entry entries
    /\ GameAnalysisResult.rawOutput r
       = join newline
           ((game_line (match eventName pgn with
                        | Some name => name | None => "Chess Game" end)
             :: map (line_of_entry Number_toString) entries)
            ++ [EmptyString;
                if hasBlunders (map record_of_entry entries)
                then blunder_summary else clean_summary])%list
    /\ StronglySorted lt ks
    /\ Forall (fun k => (k < List.length plies)%nat) ks
    /\ map fst entries = map (fun k => (Z.of_nat k, nth k plies EmptyString)) ks
    /\ (fetches w + List.length plies <= fetches w'
        <= fetches w + 3 * List.length plies)%nat
    /\ spacings w' = (spacings w + Nat.pred (List.length plies))%nat.
Proof.
  intros Hok plies.
  pose proof (analyzeCompleteGame_run pgn gameId w) as Hrun. cbn zeta in Hrun.
  fold plies in Hrun. destruct (replay startpos plies).
  - destruct Hrun as (entries & ks & w2 & Hrun & Hrest).
    rewrite Hrun in Hok. injection Hok as <- <-.
    exists entries, ks. cbn. auto.
  - destruct Hrun as (w2 & Hrun). rewrite Hrun in Hok. discriminate.
Qed.

(** X5: a game that [analyzeCompleteGame] analyses costs at least one and at
    most three requests for each of its first 30 moves, so never more than
    90 requests. *)
Theorem analyzeCompleteGame_request_budget (pgn gameId : string) (w w' : Net)
  (r : GameAnalysisResult.t) :
  analyzeCompleteGame service Number_toString pgn gameId w = (Ok r, w') ->
  let n := Nat.min (List.length (gameMovesOf pgn)) 30 in
  (fetches w + n <= fetches w' <= fetches w + 3 * n)%nat
  /\ (fetches w' <= fetches w + 90)%nat.
Proof.
  intros Hok n. destruct (analyzeCompleteGame_ok_inv pgn gameId w w' r Hok)
    as (entries & ks & _ & _ & _ & _ & _ & Hf & _).
  rewrite length_firstn in Hf. fold n in Hf.
  assert (n <= 30)%nat by (unfold n; lia). rewrite Nat.min_comm in Hf. fold n in Hf. lia.
Qed.

(** X6: between two positions the analysis sleeps 500 ms: a run that returns
    has slept them once less than it analysed moves, the first position
    being requested at once, and not at all for a game without moves. *)
Theorem analyzeCompleteGame_spacing (pgn gameId : string) (w w' : Net)
  (r : GameAnalysisResult.t) :
  analyzeCompleteGame service Number_toString pgn gameId w = (Ok r, w') ->
  spacings w'
  = (spacings w + Nat.pred (Nat.min (List.length (gameMovesOf pgn)) 30))%nat.
Proof.
  intros Hok. destruct (analyzeCompleteGame_ok_inv pgn gameId w w' r Hok)
    as (entries & ks & _ & _ & _ & _ & _ & _ & Hs).
  rewrite length_firstn, Nat.min_comm in Hs. exact Hs.
Qed.

(** X7: the records of a result are those of some of the first 30 moves,
    in the order of the game and each move at most once: the record of the
    move of index [k] has the full-move number [k / 2 + 1] and the move
    padded to seven characters and followed by a bar, so that every
    [moveNumber] lies between 1 and 15. *)
Theorem analyzeCompleteGame_records (pgn gameId : string) (w w' : Net)
  (r : GameAnalysisResult.t) :
  analyzeCompleteGame service Number_toString pgn gameId w = (Ok r, w') ->
  exists ks : list nat,
    StronglySorted lt ks
    /\ Forall (fun k => (k < Nat.min (List.length (gameMovesOf pgn)) 30)%nat) ks
    /\ map number_and_move (GameAnalysisResult.moveEvaluations r)
       = map (numbered (gameMovesOf pgn)) ks
    /\ Forall (fun e => 1 <= MoveEvaluation.moveNumber e <= 15)
         (GameAnalysisResult.moveEvaluations r).
Proof.
  intros Hok. destruct (analyzeCompleteGame_ok_inv pgn gameId w w' r Hok)
    as (entries & ks & -> & _ & Hsorted & Hlt & Hidx & _ & _).
  rewrite length_firstn, Nat.min_comm in Hlt.
  assert (Hnum : map number_and_move (map record_of_entry entries)
                 = map (numbered (gameMovesOf pgn)) ks).
  { rewrite map_map.
    transitivity (map (fun ie : Z * string => (fst ie / 2 + 1, padEnd 7 (snd ie) ++ "|"))
                    (map fst entries)).
    - rewrite map_map. apply map_ext. intros [[i move] analysis]. reflexivity.
    - rewrite Hidx, map_map. apply map_ext_in. intros k Hk. unfold numbered. cbn [fst snd].
      rewrite Forall_forall in Hlt. specialize (Hlt k Hk).
      rewrite nth_firstn. replace (k <? 30)%nat with true; [reflexivity |].
      symmetry. apply Nat.ltb_lt. lia. }
  exists ks. split; [exact Hsorted |]. split; [exact Hlt |]. split; [exact Hnum |].
  apply Forall_forall. intros e He.
  apply (in_map number_and_move) in He. rewrite Hnum in He.
  apply in_map_iff in He. destruct He as (k & Hk & Hin).
  rewrite Forall_forall in Hlt. specialize (Hlt k Hin).
  unfold number_and_move, numbered in Hk. injection Hk as Hk _. rewrite <- Hk.
  assert (0 <= Z.of_nat k / 2 < 15); [| lia].
  split; [apply Z.div_pos; lia |]. apply Z.div_lt_upper_bound; lia.
Qed.

End GameTrace.

(** X4, two instances: rules whose [loadPgn] hands back the moves as they
    are written and whose [move] refuses the first of them; and the book
    with a service that is never available *)
Lemma analyzeCompleteGame_throws_iff_witness :
  (exists w',
     analyzeCompleteGame (H := unchecked_book) flaky exponent_form "1. a3 e5" "g" net0
     = (Throw game_error, w'))
  /\ (exists r w',
        analyzeCompleteGame (H := Book.rules) unavailable exponent_form
          "1. e4 e5 2. Nf3 Nc6 3. Bb5" "g" net0 = (Ok r, w')).
Proof.
  split.
  - apply (proj1 (analyzeCompleteGame_throws_iff (H := unchecked_book) flaky
                    exponent_form "1. a3 e5" "g" net0)).
    vm_compute. reflexivity.
  - apply (proj2 (analyzeCompleteGame_throws_iff (H := Book.rules) unavailable
                    exponent_form "1. e4 e5 2. Nf3 Nc6 3. Bb5" "g" net0)).
    vm_compute. discriminate.
Defined.

(** X5, an instance: the book, the game of five moves and a service whose
    first two requests fail *)
Lemma analyzeCompleteGame_request_budget_witness :
  exists r w',
    analyzeCompleteGame (H := Book.rules) flaky exponent_form
      "1. e4 e5 2. Nf3 Nc6 3. Bb5" "g" net0 = (Ok r, w')
    /\ (5 <= fetches w' <= 15)%nat.
Proof.
  eexists _, _. split; [vm_compute; reflexivity |].
  edestruct (analyzeCompleteGame_request_budget (H := Book.rules) flaky exponent_form
               "1. e4 e5 2. Nf3 Nc6 3. Bb5" "g" net0) as [Hn _];
    [vm_compute; reflexivity |].
  exact Hn.
Defined.

(** X6, an instance: the same game and service *)
Lemma analyzeCompleteGame_spacing_witness :
  exists r w',
    analyzeCompleteGame (H := Book.rules) flaky exponent_form
      "1. e4 e5 2. Nf3 Nc6 3. Bb5" "g" net0 = (Ok r, w')
    /\ spacings w' = 4%nat.
Proof.
  eexists _, _. split; [vm_compute; reflexivity |].
  eapply (analyzeCompleteGame_spacing (H := Book.rules) flaky exponent_form
            "1. e4 e5 2. Nf3 Nc6 3. Bb5" "g" net0).
  vm_compute. reflexivity.
Defined.

(** X7, an instance: the same game and service *)
Lemma analyzeCompleteGame_records_witness :
  exists r w',
    analyzeCompleteGame (H := Book.rules) flaky exponent_form
      "1. e4 e5 2. Nf3 Nc6 3. Bb5" "g" net0 = (Ok r, w')
    /\ Forall (fun e => 1 <= MoveEvaluation.moveNumber e <= 15)
         (GameAnalysisResult.moveEvaluations r).
Proof.
  eexists _, _. split; [vm_compute; reflexivity |].
  edestruct (analyzeCompleteGame_records (H := Book.rules) flaky exponent_form
               "1. e4 e5 2. Nf3 Nc6 3. Bb5" "g" net0) as (ks & _ & _ & _ & Hall);
    [vm_compute; reflexivity |].
  exact Hall.
Defined.

(* ================================================================== *)
(** ** The transcript *)

Lemma append_assoc (a b c : string) : (a ++ b) ++ c = a ++ b ++ c.
Proof. induction a as [| x a IH]; cbn; [reflexivity | now rewrite IH]. Qed.

Lemma join_snoc (sep s : string) (xs : list string) :
  xs <> [] -> join sep (xs ++ [s]) = join sep xs ++ sep ++ s.
Proof.
  unfold join. induction xs as [| x [| y xs] IH]; intros Hne; [congruence | reflexivity |].
  change (String.concat sep ((x :: y :: xs) ++ [s]))
    with (x ++ sep ++ String.concat sep ((y :: xs) ++ [s])).
  rewrite IH by discriminate.
  change (String.concat sep (x :: y :: xs)) with (x ++ sep ++ String.concat sep (y :: xs)).
  now rewrite !append_assoc.
Qed.

Lemma split_lines_single (s : string) :
  no_newline s -> JsString.split_lines s = [s].
Proof.
  induction s as [| c s IH]; intros Hs; [reflexivity |].
  cbn [JsString.split_lines]. rewrite IH by (intros d Hd; apply Hs; right; exact Hd).
  destruct (Ascii.eqb_spec c "010"%char) as [-> | _]; [| reflexivity].
  exfalso. apply (Hs "010"%char); [left; reflexivity | reflexivity].
Qed.

(** The text after the last line feed is the last line. *)
Lemma last_line (a s : string) :
  no_newline s ->
  last (JsString.split_lines (a ++ newline ++ s)) EmptyString = s.
Proof.
  intros Hs.
  assert (Hstrong : exists first rest,
             JsString.split_lines (a ++ newline ++ s) = first :: rest
             /\ rest <> [] /\ last rest EmptyString = s).
  { induction a as [| c a (first & rest & E & Hne & Hlast)].
    - cbn [append newline JsString.split_lines]. rewrite split_lines_single by exact Hs.
      cbn. exists EmptyString, [s]. repeat split. discriminate.
    - cbn [append JsString.split_lines]. rewrite E.
      destruct (Ascii.eqb c "010").
      + exists EmptyString, (first :: rest). repeat split; [discriminate |].
        destruct rest; [congruence | exact Hlast].
      + exists (String c first), rest. auto. }
  destruct Hstrong as (first & rest & -> & Hne & Hlast).
  destruct rest; [congruence | exact Hlast].
Qed.

Lemma no_newline_check (s : string) :
  forallb (fun c => negb (Ascii.eqb c "010")) (list_ascii_of_string s) = true ->
  no_newline s.
Proof.
  intros Hall c Hc ->. rewrite forallb_forall in Hall. specialize (Hall _ Hc).
  discriminate.
Qed.

Section Transcript.
Context `{ChessRules}.
Variable service : nat -> string -> FetchOutcome.
Variable Number_toString : float -> string.

(** X8: the last line of the transcript of a result is the verdict of the
    check for drops: [blunder_summary] when the records have a drop,
    [clean_summary] otherwise, in both versions of the analyser and whatever
    the name of the game contains. *)
Theorem transcript_ends_with_verdict (pgn gameId : string) (w w' : Net)
  (r : GameAnalysisResult.t) :
  analyzeCompleteGame service Number_toString pgn gameId w = (Ok r, w')
  \/ analyzeCompleteGame_v1 service Number_toString pgn gameId w = (Ok r, w') ->
  summary_line r
  = if hasBlunders (GameAnalysisResult.moveEvaluations r)
    then blunder_summary else clean_summary.
Proof.
  intros Hrun.
  assert (Hok : exists analyze maxMoves gameMoves,
             (forall fen w, fst (analyze fen w) <> OutOfFuel)
             /\ analyzeGameMoves Number_toString analyze maxMoves pgn gameId gameMoves w
                = (Ok r, w')).
  { destruct Hrun as [Hrun | Hrun].
    - eexists _, _, _. split; [| exact Hrun]. apply analyzePosition_returns.
    - unfold analyzeCompleteGame_v1 in Hrun. destruct (loadPgn pgn); [| discriminate].
      eexists _, _, _. split; [| exact Hrun]. apply analyzePosition_v1_returns. }
  destruct Hok as (analyze & maxMoves & gameMoves & Hfuel & Hok).
  apply analyzeGameMoves_ok in Hok; [| exact Hfuel].
  destruct Hok as (entries & _ & _ & -> & _ & Hraw).
  unfold summary_line. rewrite Hraw.
  set (verdict := if hasBlunders (map record_of_entry entries)
                  then blunder_summary else clean_summary).
  set (lines := game_line _ :: map (line_of_entry Number_toString) entries).
  replace (lines ++ [EmptyString; verdict])%list
    with ((lines ++ [EmptyString]) ++ [verdict])%list by now rewrite <- app_assoc.
  rewrite join_snoc by (unfold lines; discriminate).
  apply last_line. apply no_newline_check.
  unfold verdict. destruct (hasBlunders _); vm_compute; reflexivity.
Qed.



(** X10: a text made of header lines only, which the parser of chess.js
    refuses, is analysed without any request to the service: the result
    counts no move, has no record, and its transcript is the game line, an
    empty line and [clean_summary]. *)
Theorem headers_only (bodies : list string) (gameId : string) (w : Net) :
  Forall no_newline bodies ->
  loadPgn (pgn_text bodies EmptyString) = None ->
  analyzeCompleteGame service Number_toString (pgn_text bodies EmptyString) gameId w
  = (Ok {| GameAnalysisResult.gameId := gameId;
           GameAnalysisResult.pgn := pgn_text bodies EmptyString;
           GameAnalysisResult.moveEvaluations := [];
           GameAnalysisResult.rawOutput :=
             join newline
               [game_line (match eventName (pgn_text bodies EmptyString) with
                           | Some name => name | None => "Chess Game" end);
                EmptyString; clean_summary];
           GameAnalysisResult.totalMoves := 0 |}, w).
Proof.
  intros Hbodies Hload.
  assert (Hnone : gameMovesOf (pgn_text bodies EmptyString) = []).
  { unfold gameMovesOf. rewrite Hload. unfold extractManually, extractedMoves.
    rewrite moveLines_header by exact Hbodies.
    replace (filter _ _) with (@nil string) by (vm_compute; reflexivity).
    reflexivity. }
  unfold analyzeCompleteGame. rewrite Hnone. reflexivity.
Qed.

End Transcript.

(* ================================================================== *)
(** ** The two versions of the remote analyser, side by side *)

Section Versions.
Context `{ChessRules}.
Variable Number_toString : float -> string.

(** The service by depth: [endpoint depth n fen] is what the [n]-th request
    of a run comes to when it asks for this FEN at this depth *)
Variable endpoint : Z -> nat -> string -> FetchOutcome.


End Versions.

(** X11: once the records of a game have a drop, they have at least two
    records and keep the drop whatever records come before or after. *)
Theorem hasBlunders_persists (records : list MoveEvaluation.t) :
  hasBlunders records = true ->
  (2 <= List.length records)%nat
  /\ forall before after, hasBlunders (before ++ records ++ after) = true.
Proof.
  intros Hdrop. apply hasBlunders_iff in Hdrop.
  destruct Hdrop as (l1 & p & c & l2 & -> & Hswing). split.
  - rewrite length_app. cbn. lia.
  - intros before after. apply hasBlunders_iff.
    exists (before ++ l1)%list, p, c, (l2 ++ after)%list. split; [| exact Hswing].
    rewrite <- !app_assoc. reflexivity.
Qed.

(** X8, an instance: the game 1. e4 e5 with a drop of three pawns *)
Lemma transcript_ends_with_verdict_witness :
  exists r w',
    analyzeCompleteGame (H := Book.rules) swing exponent_form "1. e4 e5" "g" net0
    = (Ok r, w')
    /\ summary_line r = blunder_summary.
Proof.
  eexists _, _. split; [vm_compute; reflexivity |].
  etransitivity;
    [eapply (transcript_ends_with_verdict (H := Book.rules) swing exponent_form
               "1. e4 e5" "g" net0); left; vm_compute; reflexivity |].
  vm_compute. reflexivity.
Defined.


(** X10, an instance: two headers and nothing else *)
Lemma headers_only_witness :
  exists r,
    analyzeCompleteGame (H := Book.rules) steady exponent_form
      (pgn_text ["Event " ++ String quote "Casual Game" ++ String quote EmptyString;
                 "Result " ++ String quote "*" ++ String quote EmptyString]
         EmptyString) "g" net0
    = (Ok r, net0)
    /\ GameAnalysisResult.totalMoves r = 0.
Proof.
  eexists. split.
  - apply (headers_only (H := Book.rules) steady exponent_form).
    + repeat constructor; apply no_newline_check; vm_compute; reflexivity.
    + reflexivity.
  - reflexivity.
Defined.

(** X11, an instance: a pawn and a half, then minus a pawn and a half *)
Lemma hasBlunders_persists_witness :
  hasBlunders ([record_at 0%float] ++ [record_at 1.5%float; record_at (-1.5)%float]
               ++ [record_at (-1.5)%float]) = true.
Proof.
  apply (hasBlunders_persists [record_at 1.5%float; record_at (-1.5)%float]).
  vm_compute. reflexivity.
Defined.

(* ================================================================== *)
(** ** The name of the game *)

(** A run of characters of a class, up to a character that is not of it:
    the whole run is taken when the rest of the pattern matches after it. *)
Lemma plus_whole_run {A} (p : ascii -> bool) (k : option ascii -> list ascii -> option A)
  (stop : ascii) (tail : list ascii) (x : A) (l : list ascii) :
  l <> [] ->
  Forall (fun c => p c = true) l ->
  p stop = false ->
  (forall prev, k prev (stop :: tail) = Some x) ->
  forall prev, Regex.plus p k prev (l ++ stop :: tail) = Some x.
Proof.
  intros Hne Hall Hstop Hk. induction l as [| c l IH]; [congruence |].
  inversion Hall as [| ? ? Hc Hl]; subst. intros prev. cbn [List.app Regex.plus].
  rewrite Hc. destruct l as [| c' l].
  - cbn [List.app Regex.plus]. rewrite Hstop. apply Hk.
  - rewrite IH; [reflexivity | discriminate | exact Hl].
Qed.

Lemma firstn_prefix {A} (l l' : list A) :
  firstn (List.length (l ++ l') - List.length l') (l ++ l') = l.
Proof.
  rewrite length_app. replace (List.length l + List.length l' - List.length l')%nat
    with (List.length l + 0)%nat by lia.
  rewrite firstn_app_2. cbn. apply app_nil_r.
Qed.

(** X12: the name of the game is read back from the header of the event:
    a text that starts with the header [Event], in brackets and with a
    name in quotes that is not empty and holds no quote, has that name. *)
Theorem eventName_of_header (name rest : string) :
  name <> EmptyString ->
  no_quote name ->
  eventName (event_text name rest) = Some name.
Proof.
  intros Hne Hq. unfold eventName, event_text.
  cbn [append list_ascii_of_string]. rewrite list_ascii_append.
  cbn [list_ascii_of_string List.app].
  set (closing := quote :: "]"%char :: list_ascii_of_string rest).
  cbn [Regex.search]. cbn [Regex.run Regex.lit].
  change (Ascii.eqb "[" "[") with true. change (Ascii.eqb "E" "E") with true.
  change (Ascii.eqb "v" "v") with true. change (Ascii.eqb "e" "e") with true.
  change (Ascii.eqb "n" "n") with true. change (Ascii.eqb "t" "t") with true.
  cbv iota. cbn [Regex.plus].
  change (Regex.is_space " ") with true. change (Regex.is_space quote) with false.
  cbv iota. change (Ascii.eqb quote quote) with true. cbv iota.
  rewrite (plus_whole_run _ _ quote ("]"%char :: list_ascii_of_string rest) name).
  - reflexivity.
  - destruct name; [congruence | discriminate].
  - apply Forall_forall. intros c Hc. apply negb_true_iff.
    destruct (Ascii.eqb_spec c quote) as [-> | _]; [| reflexivity].
    exfalso. now apply (Hq quote).
  - reflexivity.
  - intros prev. cbn [Regex.run Regex.lit].
    change (Ascii.eqb quote quote) with true. change (Ascii.eqb "]" "]") with true.
    cbv iota. f_equal. unfold Regex.matched, closing.
    rewrite firstn_prefix. apply string_of_list_ascii_of_string.
Qed.

Lemma search_without_bracket {A} (r : Regex.re)
  (k : option ascii -> list ascii -> option A) (s : list ascii) :
  (forall c, In c s -> c <> "["%char) ->
  forall prev,
    Regex.search (Regex.run (Regex.Seq (Regex.lit "[Event") r) k) prev s = None.
Proof.
  induction s as [| c s IH]; intros Hs prev; [reflexivity |].
  cbn [Regex.search Regex.run Regex.lit].
  destruct (Ascii.eqb_spec "["%char c) as [<- | _].
  - exfalso. apply (Hs "["%char); [left; reflexivity | reflexivity].
  - apply IH. intros d Hd. apply Hs. right. exact Hd.
Qed.

(** X13: a text without an opening bracket has no event name, and the
    transcript of its analysis starts with the line of the default name,
    [Chess Game]. *)
Theorem eventName_default (pgn : string) :
  no_bracket pgn ->
  eventName pgn = None
  /\ forall `{ChessRules} service Number_toString gameId w w' r,
       analyzeCompleteGame service Number_toString pgn gameId w = (Ok r, w') ->
       exists lines,
         GameAnalysisResult.rawOutput r
         = join newline (game_line "Chess Game" :: lines).
Proof.
  intros Hb.
  assert (Hnone : eventName pgn = None) by (apply search_without_bracket; exact Hb).
  split; [exact Hnone |].
  intros H service Number_toString gameId w w' r Hok.
  apply analyzeGameMoves_ok in Hok; [| apply analyzePosition_returns].
  destruct Hok as (entries & _ & _ & _ & _ & ->). rewrite Hnone.
  eexists. reflexivity.
Qed.

(** X12, an instance: a game of a club evening *)
Lemma eventName_of_header_witness :
  eventName ("[Event " ++ String quote "Club Evening"
             ++ String quote ("]" ++ newline ++ "1. e4 e5"))
  = Some "Club Evening".
Proof.
  apply (eventName_of_header "Club Evening" (newline ++ "1. e4 e5")).
  - discriminate.
  - intros c Hc. cbn in Hc.
    repeat (destruct Hc as [<- | Hc]; [discriminate |]). destruct Hc.
Defined.

(** X13, an instance: the moves alone *)
Lemma eventName_default_witness : eventName "1. e4 e5 2. Nf3 Nc6 1-0" = None.
Proof.
  apply (eventName_default "1. e4 e5 2. Nf3 Nc6 1-0").
  intros c Hc. cbn in Hc.
  repeat (destruct Hc as [<- | Hc]; [discriminate |]). destruct Hc.
Defined.

(* ================================================================== *)
(** ** The heuristic engine: the second search, the alternatives, the
       themes *)

Section Engine2.
Import RealStockfishEngine.
Context `{ChessRules}.

Lemma forEach_search {B} (k : Move -> M Chess B) (ms : list Move) :
  forall (bestMove : Move) (bestScore : Num) (chess : Chess),
    bind (forEach ms
            (fun m (best : Move * Num) =>
               score <- scoreAfter m ;;
               if gt score (snd best) then ret (m, Int score) else ret best)%js
            (bestMove, bestScore))
      (fun best => k (fst best)) chess
    = bind (findBest_loop ms bestMove bestScore) k chess.
Proof.
  induction ms as [| m rest IH]; intros bestMove bestScore chess; [reflexivity |].
  cbn [forEach findBest_loop]. unfold bind in *.
  destruct (scoreAfter m chess) as [[score | e |] chess1]; try reflexivity.
  cbn [snd]. destruct (gt score bestScore); unfold ret; apply IH.
Qed.

Lemma bind_get {S B} (k : S -> M S B) (s : S) : bind get k s = k s s.
Proof. reflexivity. Qed.

(** X14: [findStrongestMove], written with [forEach] and a callback, and
    [findBestMoveUsingEvaluation], written with a loop, return the same
    move and leave the same board on every position, also when chess.js
    throws; the two listings of the alternatives and the two positional
    terms agree as well. *)
Theorem second_copies_agree (chess : Chess) :
  findStrongestMove chess = findBestMoveUsingEvaluation chess
  /\ getTopAlternatives chess = getTopAlternativesWithEvaluation chess
  /\ evaluatePosition chess = evaluatePositionalFactors chess.
Proof.
  split; [| split; reflexivity].
  unfold findStrongestMove, findBestMoveUsingEvaluation.
  rewrite !bind_get.
  destruct (moves (position chess)) as [| first rest]; [reflexivity |].
  apply (forEach_search (fun best => ret (san best))).
Qed.

Lemma mapM_run {A B} (f : A -> M Chess B) (g : A -> B) (l : list A) (chess : Chess) :
  (forall a, In a l -> f a chess = (Ok (g a), chess)) ->
  mapM f l chess = (Ok (map g l), chess).
Proof.
  induction l as [| a rest IH]; intros Hf; [reflexivity |].
  cbn [mapM map]. unfold bind. rewrite (Hf a) by (left; reflexivity).
  rewrite IH by (intros b Hb; apply Hf; right; exact Hb). reflexivity.
Qed.

(** X15: on a position whose first three listed moves the rules accept,
    the listing of the alternatives returns, without throwing and leaving
    the board as it was, one alternative for each of these moves, in their
    order: the notation of the move, its score and its description; there
    are three of them, or as many as there are moves. *)
Theorem getTopAlternatives_listing (chess : Chess) :
  (forall m, In m (firstn 3 (moves (position chess))) ->
             move (position chess) m <> None) ->
  getTopAlternativesWithEvaluation chess
  = (Ok (map (alternative_of chess) (firstn 3 (moves (position chess)))), chess)
  /\ List.length (map (alternative_of chess) (firstn 3 (moves (position chess))))
     = Nat.min 3 (List.length (moves (position chess))).
Proof.
  intros Hlegal. split; [| now rewrite length_map, length_firstn].
  unfold getTopAlternativesWithEvaluation. rewrite bind_get.
  apply mapM_run. intros m Hm. unfold bind. rewrite scoreAfter_run.
  destruct (move (position chess) m) eqn:E; [reflexivity |].
  exfalso. exact (Hlegal m Hm E).
Qed.

Lemma createsFork_frame (m : Move) (chess : Chess) :
  snd (createsFork m chess) = chess.
Proof.
  unfold createsFork. destruct (negb (PieceType_eqb (piece m) Knight)); [reflexivity |].
  unfold bind, chess_move, get, chess_undo, ret.
  destruct (move (position chess) m); [| reflexivity].
  cbn. destruct chess; reflexivity.
Qed.

Lemma createsFork_returns (m : Move) (chess : Chess) :
  move (position chess) m <> None ->
  exists fork, createsFork m chess = (Ok fork, chess).
Proof.
  intros Hlegal. unfold createsFork.
  destruct (negb (PieceType_eqb (piece m) Knight)); [eexists; reflexivity |].
  unfold bind, chess_move, get, chess_undo, ret.
  destruct (move (position chess) m); [| congruence].
  cbn. destruct chess; eexists; reflexivity.
Qed.

Lemma knight_fork_frame (m : Move) (chess : Chess) :
  snd ((if PieceType_eqb (piece m) Knight then createsFork m else ret false) chess)
  = chess.
Proof. destruct (PieceType_eqb (piece m) Knight); [apply createsFork_frame | reflexivity]. Qed.

Lemma collectTactics_step (m : Move) (rest tactics : list string) (ms : list Move)
  (chess : Chess) :
  collectTactics (m :: ms) tactics chess
  = match (if PieceType_eqb (piece m) Knight then createsFork m else ret false) chess with
    | (Ok fork, chess1) => collectTactics ms (themes_after tactics m fork) chess1
    | (Throw e, chess1) => (Throw e, chess1)
    | (OutOfFuel, chess1) => (OutOfFuel, chess1)
    end.
Proof. reflexivity. Qed.

Lemma collectTactics_frame (ms : list Move) :
  forall tactics chess, snd (collectTactics ms tactics chess) = chess.
Proof.
  induction ms as [| m ms IH]; intros tactics chess; [reflexivity |].
  rewrite (collectTactics_step m tactics tactics).
  pose proof (knight_fork_frame m chess) as Hf.
  destruct ((if PieceType_eqb (piece m) Knight then createsFork m else ret false) chess)
    as [[fork | e |] chess1]; cbn in Hf; subst; [apply IH | reflexivity | reflexivity].
Qed.

Lemma collectTactics_returns (ms : list Move) (chess : Chess) :
  (forall m, In m ms -> move (position chess) m <> None) ->
  forall tactics, exists themes, collectTactics ms tactics chess = (Ok themes, chess).
Proof.
  induction ms as [| m ms IH]; intros Hlegal tactics; [eexists; reflexivity |].
  rewrite (collectTactics_step m tactics tactics).
  assert (Hf : exists fork,
             (if PieceType_eqb (piece m) Knight then createsFork m else ret false) chess
             = (Ok fork, chess)).
  { destruct (PieceType_eqb (piece m) Knight); [| eexists; reflexivity].
    apply createsFork_returns. apply Hlegal. left. reflexivity. }
  destruct Hf as [fork ->]. apply IH. intros x Hx. apply Hlegal. right. exact Hx.
Qed.

Lemma in_themes_after (x : string) (tactics : list string) (m : Move) (fork : bool) :
  In x (themes_after tactics m fork) <->
  In x tactics
  \/ (x = "Capture" /\ includes (flags m) "c" = true)
  \/ (x = "Check" /\ includes (flags m) "+" = true)
  \/ (x = "Fork" /\ fork = true)
  \/ (x = "Pin" /\ createsPinOrSkewer m = true).
Proof.
  unfold themes_after.
  destruct (includes (flags m) "c"), (includes (flags m) "+"), fork,
    (createsPinOrSkewer m);
    repeat rewrite in_app_iff; cbn [In]; intuition congruence.
Qed.

(** What the callback collects: names of themes, and a capture, a check
    or a pin exactly when a move has one. *)
Lemma collectTactics_themes (ms : list Move) :
  forall tactics chess themes chess',
    collectTactics ms tactics chess = (Ok themes, chess') ->
    (forall x, In x themes -> In x tactics \/ In x theme_names)
    /\ (In "Capture" themes <->
        In "Capture" tactics \/ exists m, In m ms /\ includes (flags m) "c" = true)
    /\ (In "Check" themes <->
        In "Check" tactics \/ exists m, In m ms /\ includes (flags m) "+" = true)
    /\ (In "Pin" themes <->
        In "Pin" tactics \/ exists m, In m ms /\ createsPinOrSkewer m = true).
Proof.
  induction ms as [| m ms IH]; intros tactics chess themes chess' Hrun.
  - injection Hrun as <- _. repeat split; auto; try tauto;
      intros [Hin | (m & [] & _)]; exact Hin.
  - rewrite (collectTactics_step m tactics tactics) in Hrun.
    destruct ((if PieceType_eqb (piece m) Knight then createsFork m else ret false) chess)
      as [[fork | e |] chess1]; try discriminate.
    destruct (IH _ _ _ _ Hrun) as (Hnames & Hcap & Hchk & Hpin).
    split; [| split; [| split]].
    + intros x Hx. destruct (Hnames x Hx) as [Hin | Hin]; [| right; exact Hin].
      apply in_themes_after in Hin.
      destruct Hin as [Hin | [[-> _] | [[-> _] | [[-> _] | [-> _]]]]];
        [left; exact Hin | right; cbn; tauto ..].
    + rewrite Hcap, in_themes_after. split.
      * intros [[Hin | [[_ Hc] | [[E _] | [[E _] | [E _]]]]] | (x & Hx & Hc)];
          try discriminate E; [left; exact Hin | right; exists m; cbn; auto |
                               right; exists x; cbn; auto].
      * intros [Hin | (x & [<- | Hx] & Hc)]; [left; left; exact Hin | left; auto |
                                              right; eauto].
    + rewrite Hchk, in_themes_after. split.
      * intros [[Hin | [[E _] | [[_ Hc] | [[E _] | [E _]]]]] | (x & Hx & Hc)];
          try discriminate E; [left; exact Hin | right; exists m; cbn; auto |
                               right; exists x; cbn; auto].
      * intros [Hin | (x & [<- | Hx] & Hc)]; [left; left; exact Hin | left; auto |
                                              right; eauto].
    + rewrite Hpin, in_themes_after. split.
      * intros [[Hin | [[E _] | [[E _] | [[E _] | [_ Hc]]]]] | (x & Hx & Hc)];
          try discriminate E; [left; exact Hin | right; exists m; cbn; auto |
                               right; exists x; cbn; auto].
      * intros [Hin | (x & [<- | Hx] & Hc)]; [left; left; exact Hin | left; auto 10 |
                                              right; eauto].
Qed.

Lemma existsb_eqb_In (x : string) (l : list string) :
  existsb (String.eqb x) l = true <-> In x l.
Proof.
  rewrite existsb_exists. split.
  - intros (y & Hy & E). apply String.eqb_eq in E. now subst.
  - intros Hx. exists x. split; [exact Hx | apply String.eqb_refl].
Qed.

Lemma uniqueTactics_fold (l : list string) :
  forall unique,
    NoDup unique ->
    let result :=
      fold_left (fun unique tactic =>
        if existsb (String.eqb tactic) unique then unique else (unique ++ [tactic])%list)
        l unique in
    NoDup result /\ forall x, In x result <-> In x unique \/ In x l.
Proof.
  induction l as [| t l IH]; intros unique Hnd; cbn zeta; cbn [fold_left].
  - split; [exact Hnd | intros x; cbn; tauto].
  - destruct (existsb (String.eqb t) unique) eqn:E.
    + apply existsb_eqb_In in E. destruct (IH unique Hnd) as [Hr Hin].
      split; [exact Hr |]. intros x. rewrite Hin. cbn [In].
      split; [tauto |]. intros [Hx | [<- | Hx]]; auto.
    + assert (Hnot : ~ In t unique).
      { intros Hin. apply existsb_eqb_In in Hin. congruence. }
      assert (Hnd' : NoDup (unique ++ [t])).
      { apply NoDup_app; [exact Hnd | repeat constructor; intros [] | ].
        intros x Hx [<- | []]. exact (Hnot Hx). }
      destruct (IH _ Hnd') as [Hr Hin]. split; [exact Hr |].
      intros x. rewrite Hin, in_app_iff. cbn [In]. tauto.
Qed.

(** X16: [identifyRealTactics] leaves the board as it was; when it returns,
    its list names each theme at most once and names only [Capture],
    [Check], [Fork] and [Pin]; it names [Capture] exactly when a listed move
    has the flag [c], [Check] exactly when one has the flag [+], and [Pin]
    exactly when one is a move of a bishop, a rook or a queen. *)
Theorem identifyRealTactics_themes (chess : Chess) :
  snd (identifyRealTactics chess) = chess
  /\ forall themes,
       fst (identifyRealTactics chess) = Ok themes ->
       NoDup themes
       /\ incl themes theme_names
       /\ (In "Capture" themes <->
           exists m, In m (moves (position chess)) /\ includes (flags m) "c" = true)
       /\ (In "Check" themes <->
           exists m, In m (moves (position chess)) /\ includes (flags m) "+" = true)
       /\ (In "Pin" themes <->
           exists m, In m (moves (position chess)) /\ createsPinOrSkewer m = true).
Proof.
  unfold identifyRealTactics. rewrite bind_get. unfold bind.
  pose proof (collectTactics_frame (moves (position chess)) [] chess) as Hframe.
  pose proof (collectTactics_themes (moves (position chess)) [] chess) as Hthemes.
  destruct (collectTactics (moves (position chess)) [] chess) as [[tactics | e |] chess1];
    cbn in Hframe; subst chess1; (split; [reflexivity |]); try discriminate.
  intros themes [= <-].
  destruct (Hthemes tactics chess eq_refl) as (Hnames & Hcap & Hchk & Hpin).
  destruct (uniqueTactics_fold tactics [] (NoDup_nil _)) as [Hnd Hin].
  fold (uniqueTactics tactics) in Hnd, Hin.
  assert (Hsame : forall x, In x (uniqueTactics tactics) <-> In x tactics).
  { intros x. rewrite Hin. cbn. tauto. }
  split; [exact Hnd |]. split.
  - intros x Hx. apply Hsame in Hx. destruct (Hnames x Hx) as [[] | Hn]. exact Hn.
  - rewrite !Hsame, Hcap, Hchk, Hpin. cbn [In]. tauto.
Qed.

Lemma signed_zero (c : Color) : signed c 0 = 0.
Proof. now destruct c. Qed.

(** X17: on a position without legal moves the mobility and the tactical
    terms vanish, the positional term counts the four central squares only
    and lies between -140 and 140, the search returns the sentinel [none],
    and the listings of the alternatives and of the themes are empty; none
    of them throws or changes the board. *)
Theorem without_legal_moves (chess : Chess) :
  moves (position chess) = [] ->
  evaluatePieceActivity chess = 0
  /\ evaluateTacticalFactors chess = 0
  /\ -140 <= evaluatePositionalFactors chess <= 140
  /\ calculateStockfishStyleEvaluation chess
     = getMaterialBalance chess + evaluateKingSafety chess
       + evaluatePawnStructure chess + evaluatePositionalFactors chess
  /\ findBestMoveUsingEvaluation chess = (Ok "none", chess)
  /\ getTopAlternativesWithEvaluation chess = (Ok [], chess)
  /\ identifyRealTactics chess = (Ok [], chess).
Proof.
  intros Hnone.
  assert (Ha : evaluatePieceActivity chess = 0).
  { unfold evaluatePieceActivity. rewrite Hnone. cbn. apply signed_zero. }
  assert (Ht : evaluateTacticalFactors chess = 0).
  { unfold evaluateTacticalFactors. rewrite Hnone. reflexivity. }
  assert (Hp : -140 <= evaluatePositionalFactors chess <= 140).
  { unfold evaluatePositionalFactors, attackedSquares. rewrite Hnone.
    cbn [map nodup List.length Z.of_nat Z.mul]. rewrite signed_zero.
    unfold centerSquares. cbn [fold_left].
    repeat match goal with
           | |- context [get_square ?p ?s] =>
               destruct (get_square p s) as [[? []] |]
           end; cbn [signed color]; lia. }
  split; [exact Ha |]. split; [exact Ht |]. split; [exact Hp |]. split.
  - unfold calculateStockfishStyleEvaluation. cbn zeta. rewrite Ha, Ht. lia.
  - unfold findBestMoveUsingEvaluation, getTopAlternativesWithEvaluation,
      identifyRealTactics.
    rewrite !bind_get, Hnone. repeat split.
Qed.

Lemma findBest_returns (chess : Chess) :
  (forall m, In m (moves (position chess)) -> move (position chess) m <> None) ->
  exists best, findBestMoveUsingEvaluation chess = (Ok best, chess).
Proof.
  intros Hlegal. unfold findBestMoveUsingEvaluation. rewrite bind_get.
  destruct (moves (position chess)) as [| first rest] eqn:E; [eexists; reflexivity |].
  unfold bind. rewrite findBest_loop_run by exact Hlegal. eexists. reflexivity.
Qed.

(** X18: the analysis of a FEN that chess.js refuses throws; the analysis
    of a FEN whose position lists moves that the rules accept returns: the
    evaluation is that of the position, the best move is that of the
    search and is the whole principal variation, the depth is 15, the
    alternatives are those of the first three moves, and the two numbers
    drawn at random give [nodes] and [time]. *)
Theorem analyzePosition_heuristic (random : nat -> float) (fen : string) :
  match load fen with
  | None => exists e, analyzePosition random fen = Throw e
  | Some p =>
      let chess := {| position := p; undo_stack := [] |} in
      (forall m, In m (moves p) -> move p m <> None) ->
      exists a,
        analyzePosition random fen = Ok a
        /\ evaluation (currentEvaluation a) = calculateStockfishStyleEvaluation chess
        /\ fst (findBestMoveUsingEvaluation chess) = Ok (bestMove (currentEvaluation a))
        /\ principalVariation (currentEvaluation a) = [bestMove (currentEvaluation a)]
        /\ depth (currentEvaluation a) = 15
        /\ nodes (currentEvaluation a)
           = (150000 + Math_floor (random 0%nat * 100000))%float
        /\ time (currentEvaluation a)
           = (1000 + Math_floor (random 1%nat * 800))%float
        /\ alternativeMoves a = map (alternative_of chess) (firstn 3 (moves p))
        /\ fst (identifyRealTactics chess) = Ok (tacticalThemes a)
        /\ positionType a = classifyGamePhase chess
  end.
Proof.
  unfold analyzePosition. destruct (load fen) as [p |]; [| eexists; reflexivity].
  set (chess := {| position := p; undo_stack := [] |}).
  intros Hlegal. rewrite bind_get. unfold bind at 1.
  destruct (findBest_returns chess Hlegal) as (best & Hbest).
  rewrite Hbest. unfold bind at 1.
  destruct (getTopAlternatives_listing chess) as [Halts _].
  { intros m Hm. apply Hlegal. change p with (position chess).
    rewrite <- (firstn_skipn 3 (moves (position chess))).
    apply in_or_app. left. exact Hm. }
  rewrite Halts. cbn zeta. unfold bind at 1.
  assert (Hth : exists themes, identifyRealTactics chess = (Ok themes, chess)).
  { unfold identifyRealTactics. rewrite bind_get. unfold bind.
    destruct (collectTactics_returns (moves (position chess)) chess Hlegal [])
      as (tactics & ->).
    eexists. reflexivity. }
  destruct Hth as (themes & Hth). rewrite Hth. rewrite bind_get. unfold ret.
  eexists. split; [reflexivity |]. repeat split.
Qed.

End Engine2.

(** X15, an instance: the starting position of the book *)
Lemma getTopAlternatives_listing_witness :
  fst (RealStockfishEngine.getTopAlternativesWithEvaluation Book.opening_board)
  = Ok (map (alternative_of Book.opening_board)
          (firstn 3 (moves (position Book.opening_board)))).
Proof.
  destruct (getTopAlternatives_listing Book.opening_board) as [Hrun _].
  - intros m Hm. vm_compute in Hm.
    repeat (destruct Hm as [<- | Hm]; [vm_compute; discriminate |]). destruct Hm.
  - rewrite Hrun. reflexivity.
Defined.

(** X16, an instance: the starting position of the book *)
Lemma identifyRealTactics_themes_witness :
  exists themes,
    fst (RealStockfishEngine.identifyRealTactics Book.opening_board) = Ok themes
    /\ NoDup themes.
Proof.
  pose proof (proj2 (identifyRealTactics_themes Book.opening_board)) as Hthemes.
  eexists. split; [vm_compute; reflexivity |].
  refine (proj1 (Hthemes _ _)). vm_compute. reflexivity.
Defined.

(** X18, an instance: the FEN of the starting position, read by the book *)
Lemma analyzePosition_heuristic_witness :
  exists a,
    RealStockfishEngine.analyzePosition (H := Book.rules) (fun _ => 0%float)
      (Book.fen_of Book.start) = Ok a
    /\ RealStockfishEngine.depth (RealStockfishEngine.currentEvaluation a) = 15.
Proof.
  pose proof (analyzePosition_heuristic (H := Book.rules) (fun _ => 0%float)
                (Book.fen_of Book.start)) as W.
  assert (E : @load Book.rules (Book.fen_of Book.start) = Some Book.start)
    by (vm_compute; reflexivity).
  rewrite E in W. cbn zeta in W.
  destruct W as (a & Ha & _ & _ & _ & Hd & _).
  - intros m Hm. vm_compute in Hm.
    repeat (destruct Hm as [<- | Hm]; [vm_compute; discriminate |]). destruct Hm.
  - exists a. split; assumption.
Defined.

(** X17, an instance: a board of [two_boards], which lists no move *)
Lemma without_legal_moves_witness :
  fst (RealStockfishEngine.findBestMoveUsingEvaluation (board_without_moves false))
  = Ok "none".
Proof.
  destruct (without_legal_moves (board_without_moves false) eq_refl)
    as (_ & _ & _ & _ & Hbest & _).
  rewrite Hbest. reflexivity.
Defined.

(* ================================================================== *)
(** ** The heuristic engine: the colours exchanged *)

Section Colours.
Import RealStockfishEngine.
Context `{ChessRules}.

(** A fold that answers the opposite on the opposite *)
Lemma fold_left_opposite {A} (f f' : Z -> A -> Z) (l : list A) :
  (forall a x, f' (- a) x = - f a x) ->
  forall a, fold_left f' l (- a) = - fold_left f l a.
Proof.
  intros Hstep. induction l as [| x l IH]; intros a; [reflexivity |].
  cbn [fold_left]. rewrite Hstep. apply IH.
Qed.

Lemma fold_left_same {A B} (f f' : B -> A -> B) (l : list A) :
  (forall a x, f' a x = f a x) ->
  forall a, fold_left f' l a = fold_left f l a.
Proof.
  intros Hstep. induction l as [| x l IH]; intros a; [reflexivity |].
  cbn [fold_left]. rewrite Hstep. apply IH.
Qed.

Lemma signed_opposite (c : Color) (v : Z) : signed (opposite c) v = - signed c v.
Proof. destruct c; cbn; lia. Qed.

Lemma is_pawn_of_recolour (c : Color) (sq : option Piece) :
  is_pawn_of c (option_map recolour sq) = is_pawn_of (opposite c) sq.
Proof. destruct sq as [[t []] |], c; cbn; try reflexivity; now destruct t. Qed.

Lemma countPawns_recoloured (chess chess' : Chess) (file : Z) (c : Color) :
  recoloured (position chess) (position chess') ->
  countPawns chess' file c = countPawns chess file (opposite c).
Proof.
  intros Hrec. unfold countPawns. apply fold_left_same.
  intros n rank. now rewrite Hrec, is_pawn_of_recolour.
Qed.

Lemma isIsolatedPawn_recoloured (chess chess' : Chess) (file : Z) (c : Color) :
  recoloured (position chess) (position chess') ->
  isIsolatedPawn chess' file c = isIsolatedPawn chess file (opposite c).
Proof.
  intros Hrec. unfold isIsolatedPawn. cbn zeta. cbn [forallb].
  assert (Hsame : forall checkFile,
            existsb (fun rank => is_pawn_of c (board (position chess') rank checkFile))
              range8
            = existsb (fun rank =>
                         is_pawn_of (opposite c) (board (position chess) rank checkFile))
                range8).
  { intros checkFile. induction range8 as [| rank l IH]; [reflexivity |].
    cbn [existsb]. now rewrite Hrec, is_pawn_of_recolour, IH. }
  now rewrite !Hsame.
Qed.

(** X19: the material balance and the pawn structure term of a board are
    the opposites of those of the board with the colours exchanged. *)
Theorem colours_exchanged (chess chess' : Chess) :
  recoloured (position chess) (position chess') ->
  getMaterialBalance chess' = - getMaterialBalance chess
  /\ evaluatePawnStructure chess' = - evaluatePawnStructure chess.
Proof.
  intros Hrec. split.
  - unfold getMaterialBalance. change 0 with (- 0) at 1.
    apply fold_left_opposite. intros material rank.
    apply fold_left_opposite. intros a file. rewrite Hrec.
    destruct (board (position chess) rank file) as [piece |]; [| reflexivity].
    cbn [option_map recolour color type]. rewrite signed_opposite. lia.
  - unfold evaluatePawnStructure. change 0 with (- 0) at 1.
    apply fold_left_opposite. intros a file. cbn zeta.
    rewrite !(countPawns_recoloured chess chess') by exact Hrec.
    rewrite !(isIsolatedPawn_recoloured chess chess') by exact Hrec.
    cbn [opposite].
    destruct (1 <? countPawns chess file White), (1 <? countPawns chess file Black),
      ((countPawns chess file White =? 1) && isIsolatedPawn chess file White),
      ((countPawns chess file Black =? 1) && isIsolatedPawn chess file Black); lia.
Qed.

End Colours.

(** X19, an instance: the board after 1. e4 d5 2. exd5 and the same with
    the colours exchanged *)
Lemma colours_exchanged_witness :
  RealStockfishEngine.getMaterialBalance (board_without_moves true)
  = - RealStockfishEngine.getMaterialBalance (board_without_moves false)
  /\ RealStockfishEngine.evaluatePawnStructure (board_without_moves true)
     = - RealStockfishEngine.evaluatePawnStructure (board_without_moves false).
Proof.
  apply (colours_exchanged (board_without_moves false) (board_without_moves true)).
  intros rank file. reflexivity.
Defined.

(* ================================================================== *)
(** ** The Python scripts: what they raise and what they report *)

Section Scripts.
Import LichessAnalyzer.

Variable Board : Type.
Variable push : Board -> string -> Board.
Variable fullmove_number : Board -> Z.
Variable san : Board -> string -> option string.
Variable is_legal : Board -> string -> bool.
Variable analyse : nat -> Board -> Info.
Variable score_with : Z -> Score -> option Z.

(** X20: the centipawn script raises, an [IndexError], exactly when the
    engine hands back an empty line before some move of the game.
    Otherwise it returns, and its list is that of the big drops in the
    order of the game: the move of index [k] is judged on the analyses
    number [2k] and [2k+1], of the boards before and after it, and numbered
    by the board after it. *)
Theorem analyze_game_reports (board : Board) (mainline : list string) :
  (analyze_game Board push fullmove_number analyse score_with board mainline
   = Throw "IndexError"
   <-> exists k, (k < List.length mainline)%nat
                 /\ empty_line Board push analyse 0 board mainline k)
  /\ ((forall k, (k < List.length mainline)%nat ->
                 ~ empty_line Board push analyse 0 board mainline k) ->
      analyze_game Board push fullmove_number analyse score_with board mainline
      = Ok (reported Board push fullmove_number analyse score_with 0 board mainline)).
Proof.
  unfold analyze_game.
  destruct (analyze_moves_run Board push fullmove_number analyse score_with
              mainline 0%nat board []) as [[Hrun Hnone] | [Hrun Hsome]];
    rewrite Hrun; split.
  - split; [discriminate |]. intros (k & Hk & Hempty). destruct (Hnone k Hk Hempty).
  - intros _. reflexivity.
  - split; [intros _; exact Hsome | reflexivity].
  - intros Hnone. destruct Hsome as (k & Hk & Hempty). destruct (Hnone k Hk Hempty).
Qed.

(** X21: the same of the scripts that count in pawns, whose entries hold
    the notations of the played and of the suggested move. *)
Theorem analyze_game_pawns_reports (board : Board) (mainline : list string) :
  (analyze_game_pawns Board push fullmove_number san is_legal analyse board mainline
   = Throw "IndexError"
   <-> exists k, (k < List.length mainline)%nat
                 /\ empty_line Board push analyse 0 board mainline k)
  /\ ((forall k, (k < List.length mainline)%nat ->
                 ~ empty_line Board push analyse 0 board mainline k) ->
      analyze_game_pawns Board push fullmove_number san is_legal analyse board mainline
      = Ok (reported_pawns Board push fullmove_number san is_legal analyse
              0 board mainline)).
Proof.
  unfold analyze_game_pawns.
  destruct (analyze_moves_pawns_run Board push fullmove_number san is_legal analyse
              mainline 0%nat board [])
    as [[Hrun Hnone] | [Hrun Hsome]]; rewrite Hrun; split.
  - split; [discriminate |]. intros (k & Hk & Hempty). destruct (Hnone k Hk Hempty).
  - intros _. reflexivity.
  - split; [intros _; exact Hsome | reflexivity].
  - intros Hnone. destruct Hsome as (k & Hk & Hempty). destruct (Hnone k Hk Hempty).
Qed.

End Scripts.

(** X20, an instance: the game of one move of the example, whose engine
    always suggests a move *)
Lemma analyze_game_reports_witness :
  LichessAnalyzer.analyze_game PyExample.Board PyExample.push
    PyExample.fullmove_number PyExample.analyse PyExample.score_with [] ["e7e5"]
  = Ok (reported PyExample.Board PyExample.push PyExample.fullmove_number
          PyExample.analyse PyExample.score_with 0 [] ["e7e5"]).
Proof.
  apply (analyze_game_reports PyExample.Board PyExample.push
           PyExample.fullmove_number PyExample.analyse PyExample.score_with
           [] ["e7e5"]).
  intros k _. unfold empty_line. cbn. discriminate.
Defined.

(** X21, an instance *)
Lemma analyze_game_pawns_reports_witness :
  LichessAnalyzer.analyze_game_pawns PyExample.Board PyExample.push
    PyExample.fullmove_number PyExample.san PyExample.is_legal PyExample.analyse
    [] ["e7e5"]
  = Ok (reported_pawns PyExample.Board PyExample.push PyExample.fullmove_number
          PyExample.san PyExample.is_legal PyExample.analyse 0 [] ["e7e5"]).
Proof.
  apply (analyze_game_pawns_reports PyExample.Board PyExample.push
           PyExample.fullmove_number PyExample.san PyExample.is_legal
           PyExample.analyse [] ["e7e5"]).
  intros k _. unfold empty_line. cbn. discriminate.
Defined.

(* ================================================================== *)
(** ** The script that evaluates every move of a PGN *)

Section Pgn.
Import PgnAnalyzer.

Variable Board : Type.
Variable Move : Type.
Variable push : Board -> Move -> Board.
Variable san : Board -> Move -> string.
Variable fen : Board -> string.
Variable get_evaluation : nat -> string -> Evaluation.

Lemma nth_error_combine_seq {A} (l : list A) :
  forall start i x,
    nth_error l i = Some x ->
    nth_error (combine (seq start (List.length l)) l) i = Some ((start + i)%nat, x).
Proof.
  induction l as [| y rest IH]; intros start [| i] x Hx; try discriminate; cbn in *.
  - injection Hx as <-. now rewrite Nat.add_0_r.
  - rewrite (IH (S start) i x Hx). f_equal. f_equal. lia.
Qed.

(** The numbers of the loop after [i] moves, from a start at 1 with White *)
Lemma mainline_loop_run (mainline : list Move) :
  forall played board analysis_results,
    mainline_loop Board Move push san fen get_evaluation mainline
      (fold_left push played board)
      (Z.of_nat (List.length played) / 2 + 1)
      (Nat.even (List.length played)) analysis_results (List.length played)
    = (analysis_results
       ++ map (fun im =>
                 entry_of push san fen get_evaluation board (played ++ mainline)
                   (fst im) (snd im))
            (combine (seq (List.length played) (List.length mainline)) mainline))%list.
Proof.
  induction mainline as [| m rest IH]; intros played board analysis_results.
  - cbn. now rewrite app_nil_r.
  - cbn [mainline_loop List.length seq combine map].
    assert (Hnext : (if negb (Nat.even (List.length played))
                     then Z.of_nat (List.length played) / 2 + 1 + 1
                     else Z.of_nat (List.length played) / 2 + 1)
                    = Z.of_nat (List.length (played ++ [m])) / 2 + 1).
    { rewrite length_app. cbn [List.length].
      destruct (Nat.even (List.length played)) eqn:E; cbn [negb].
      - apply Nat.even_spec in E. destruct E as [h E]. rewrite E.
        replace (Z.of_nat (2 * h + 1)) with (1 + Z.of_nat h * 2) by lia.
        replace (Z.of_nat (2 * h)) with (0 + Z.of_nat h * 2) by lia.
        rewrite !Z.div_add by lia. reflexivity.
      - assert (Ho : Nat.odd (List.length played) = true)
          by (unfold Nat.odd; now rewrite E).
        apply Nat.odd_spec in Ho. destruct Ho as [h Ho]. rewrite Ho.
        replace (Z.of_nat (2 * h + 1 + 1)) with (0 + (Z.of_nat h + 1) * 2) by lia.
        replace (Z.of_nat (2 * h + 1)) with (1 + Z.of_nat h * 2) by lia.
        rewrite !Z.div_add by lia. change (1 / 2) with 0. change (0 / 2) with 0. lia. }
    rewrite Hnext.
    assert (Hlen : List.length (played ++ [m]) = S (List.length played))
      by (rewrite length_app; cbn; lia).
    assert (Heven : negb (Nat.even (List.length played))
                    = Nat.even (List.length (played ++ [m])))
      by (rewrite Hlen, Nat.even_succ; unfold Nat.odd; reflexivity).
    assert (Hboard : push (fold_left push played board) m
                     = fold_left push (played ++ [m]) board)
      by (now rewrite fold_left_app).
    rewrite Heven, Hboard, <- Hlen, IH, <- !app_assoc. cbn [List.app].
    f_equal. f_equal. unfold entry_of. cbn [fst snd].
    assert (Hfirst : firstn (List.length played) (played ++ m :: rest) = played)
      by (now rewrite firstn_app, Nat.sub_diag, firstn_all, app_nil_r).
    rewrite Hfirst, Hboard. reflexivity.
Qed.

(** X22: [analyze_pgn] returns nothing when the engine is not found or
    when the PGN holds no game.  Otherwise it returns one entry for each
    move of the main line: the entry of index [i] holds the number
    [i / 2 + 1], the notation of the move on the board before it, and the
    evaluation asked at the call of index [i] for the position after it. *)
Theorem analyze_pgn_entries (stockfish_found : bool) (game : option (Board * list Move)) :
  match analyze_pgn Board Move push san fen get_evaluation stockfish_found game with
  | None => stockfish_found = false \/ game = None
  | Some results =>
      stockfish_found = true
      /\ exists board mainline,
           game = Some (board, mainline)
           /\ List.length results = List.length mainline
           /\ forall i m,
                nth_error mainline i = Some m ->
                nth_error results i
                = Some (entry_of push san fen get_evaluation board mainline i m)
  end.
Proof.
  unfold analyze_pgn. destruct stockfish_found; [| left; reflexivity].
  destruct game as [[board mainline] |]; [| right; reflexivity].
  split; [reflexivity |]. exists board, mainline. split; [reflexivity |].
  pose proof (mainline_loop_run mainline [] board []) as Hrun.
  cbn [fold_left List.length Z.of_nat Nat.even List.app] in Hrun.
  change (0 / 2 + 1) with 1 in Hrun. rewrite Hrun. clear Hrun.
  split.
  - rewrite length_map, length_combine, length_seq. apply Nat.min_id.
  - intros i m Hm.
    rewrite nth_error_map.
    rewrite (nth_error_combine_seq mainline 0 i m Hm). reflexivity.
Qed.

End Pgn.

(** X22, an instance: three moves, the board being the list of the moves
    pushed; the third entry holds the number 2 *)
Lemma analyze_pgn_entries_witness :
  exists results,
    PgnAnalyzer.analyze_pgn (list string) string
      (fun board m => (board ++ [m])%list) (fun _ m => m) (join " ")
      (fun n _ => PgnAnalyzer.cp (Z.of_nat n)) true (Some ([], ["e4"; "e5"; "Nf3"]))
    = Some results
    /\ option_map PgnAnalyzer.move_number (nth_error results 2) = Some 2.
Proof.
  pose proof (analyze_pgn_entries (list string) string
                (fun board m => (board ++ [m])%list) (fun _ m => m) (join " ")
                (fun n _ => PgnAnalyzer.cp (Z.of_nat n)) true
                (Some ([], ["e4"; "e5"; "Nf3"]))) as W.
  destruct (PgnAnalyzer.analyze_pgn (list string) string
              (fun board m => (board ++ [m])%list) (fun _ m => m) (join " ")
              (fun n _ => PgnAnalyzer.cp (Z.of_nat n)) true
              (Some ([], ["e4"; "e5"; "Nf3"]))) as [results |].
  - destruct W as (_ & board & mainline & Hg & _ & Hnth).
    injection Hg as <- <-. exists results. split; [reflexivity |].
    rewrite (Hnth 2%nat "Nf3" eq_refl). reflexivity.
  - destruct W; discriminate.
Defined.
